(** * FixNet client: estimator, centre ranking, request submission, API wrapper

    A shallow embedding of the logic of [src/App.tsx] and [src/api.ts]
    (the React components [Repair], [MapPicker], [Support] and the [http]
    wrapper), and the properties the specification states about it.

    Modelling conventions.
    - A JavaScript string is its sequence of UTF-16 code units ([jsstring]);
      a "character" is one code unit, as for [length], [trim] and [/\D/].
    - A number that is only parsed, tested and passed on (a field of a JSON
      value, an id) is [num]: NaN, the two infinities, or a finite value held
      as the exact rational its literal denotes; overflow to an infinity and
      underflow to zero of a parsed literal are modelled.
    - A number that is computed with (coordinates, distances, the estimate)
      is a binary64 value ([F64.f64], the [spec_float] of the standard
      library): every [+ - * /] and [Math.sqrt] rounds to nearest, ties to
      even.  [F64.of_Q] is the rounding a literal or a parsed number goes
      through.  [Math.sin], [Math.cos], [Math.atan2] and [**], which
      ECMAScript leaves to the implementation outside their special cases,
      are the fields of a [MathLib] record.
    - [Number] and [String] of a value return [None] where the source throws
      a TypeError: on an object that owns a [toString] property (whatever
      JSON puts there is not callable), alone or inside an array.
    - The price map is a plain object: its own entries are the bindings of a
      [gmap]; the binding of the key [__proto__] stands for the object that
      an assignment to that key installs as the prototype.  A read goes
      through [Repair.priceMap_get], which follows the prototype chain down
      to [Object.prototype].
    - [Array.prototype.sort] is a relation: the result is a permutation of
      the input, and it is the stable sorted one when the comparator is
      consistent; otherwise the order is left to the implementation.
    - Host built-ins whose result is an engine-produced string
      ([JSON.parse], [JSON.stringify], number-to-string, error messages) are
      fields of a [Host] record the definitions take as an argument. *)

From Stdlib Require Import ZArith QArith Qround Lia List Bool.
From Stdlib Require Import String Ascii Permutation Sorted SpecFloat.
From stdpp Require Import base option list gmap strings.

Set Warnings "-register-all".
Local Open Scope Z_scope.

(* ===================================================================== *)
(** * JavaScript values                                                   *)
(* ===================================================================== *)

Module JS.

(** UTF-16 code units. *)
Definition char16 := N.
Definition jsstring := list char16.

(** A string literal of the source, as code units. *)
Definition js (s : string) : jsstring :=
  List.map N_of_ascii (list_ascii_of_string s).

Inductive num : Type :=
  | NaN
  | PosInf
  | NegInf
  | Fin (q : Q).

Definition isFinite (n : num) : bool :=
  match n with Fin _ => true | _ => false end.

(** [a === b] on numbers. *)
Definition num_eqb (a b : num) : bool :=
  match a, b with
  | Fin x, Fin y => Qeq_bool x y
  | PosInf, PosInf => true
  | NegInf, NegInf => true
  | _, _ => false
  end.

(** ToBoolean on numbers: [0] and [NaN] are falsy. *)
Definition num_truthy (n : num) : bool :=
  match n with
  | NaN => false
  | Fin q => negb (Qeq_bool q 0)
  | _ => true
  end.

(** [Math.round]: the nearest integer, ties towards +infinity. *)
Definition Math_round (x : Q) : Z := Qfloor (x + (1 # 2)).

(** ** Strings *)

(** WhiteSpace and LineTerminator code units (what [trim] and the numeric
    string grammar skip). *)
Definition is_ws (c : char16) : bool :=
  let c := Z.of_N c in
  (c =? 9) || (c =? 10) || (c =? 11) || (c =? 12) || (c =? 13) || (c =? 32)
  || (c =? 160) || (c =? 5760) || ((8192 <=? c) && (c <=? 8202))
  || (c =? 8232) || (c =? 8233) || (c =? 8239) || (c =? 8287)
  || (c =? 12288) || (c =? 65279).

(** [/\d/] *)
Definition is_digit (c : char16) : bool :=
  let c := Z.of_N c in (48 <=? c) && (c <=? 57).

Fixpoint trim_start (s : jsstring) : jsstring :=
  match s with
  | c :: s' => if is_ws c then trim_start s' else s
  | [] => []
  end.

Definition trim_end (s : jsstring) : jsstring := rev (trim_start (rev s)).

(** [s.trim()] *)
Definition trim (s : jsstring) : jsstring := trim_end (trim_start s).

(** [s.replace(/\D/g, '')] *)
Definition strip_non_digits (s : jsstring) : jsstring := List.filter is_digit s.

(** The number of characters of [s] that are not white space. *)
Definition nonws_count (s : jsstring) : nat :=
  length (List.filter (fun c => negb (is_ws c)) s).

Definition quote : char16 := 34%N.

(** [s.replace(re, '')] for the pattern that matches a double quote at the
    start or at the end: one leading and one trailing quote go. *)
Definition strip_quotes (s : jsstring) : jsstring :=
  let s1 := match s with c :: r => if N.eqb c quote then r else s | [] => [] end in
  match rev s1 with
  | c :: r => if N.eqb c quote then rev r else s1
  | [] => s1
  end.

Definition jsstring_eqb (a b : jsstring) : bool := bool_decide (a = b).

(** ** StringToNumber *)

Fixpoint span_digits (ok : char16 -> bool) (s : jsstring) : jsstring * jsstring :=
  match s with
  | c :: s' =>
      if ok c then let '(d, r) := span_digits ok s' in (c :: d, r) else ([], s)
  | [] => ([], [])
  end.

Definition hex_val (c : char16) : option Z :=
  let z := Z.of_N c in
  if (48 <=? z) && (z <=? 57) then Some (z - 48)
  else if (97 <=? z) && (z <=? 102) then Some (z - 87)
  else if (65 <=? z) && (z <=? 70) then Some (z - 55)
  else None.

Definition digit_ok (radix : Z) (c : char16) : bool :=
  match hex_val c with Some v => v <? radix | None => false end.

Definition digits_value (radix : Z) (ds : jsstring) : Z :=
  fold_left (fun acc c => acc * radix + default 0 (hex_val c)) ds 0.

(** The largest magnitudes that still round to a finite binary64 value, and
    the smallest that do not round to zero. *)
Definition overflow_bound : Q := inject_Z (2 ^ 1024 - 2 ^ 970).
Definition underflow_bound : Q := 1 # (2 ^ 1075).

Definition to_double_range (q : Q) : num :=
  if Qle_bool overflow_bound q then PosInf
  else if Qle_bool q (- overflow_bound) then NegInf
  else if Qle_bool (- underflow_bound) q && Qle_bool q underflow_bound then Fin 0
  else Fin q.

Definition pow10 (e : Z) : Q :=
  if 0 <=? e then inject_Z (10 ^ e) else 1 # (Z.to_pos (10 ^ (- e))).

(** ExponentPart opt: [e] or [E], an optional sign, one digit or more. *)
Definition parse_exponent (s : jsstring) : option Z :=
  match s with
  | [] => Some 0
  | c :: r =>
      if N.eqb c 101 || N.eqb c 69 then
        let '(neg, r') :=
          match r with
          | c' :: r'' =>
              if N.eqb c' 45 then (true, r'')
              else if N.eqb c' 43 then (false, r'') else (false, r)
          | [] => (false, r)
          end in
        let '(ds, rest) := span_digits is_digit r' in
        match ds, rest with
        | _ :: _, [] =>
            let e := digits_value 10 ds in Some (if neg then - e else e)
        | _, _ => None
        end
      else None
  end.

(** StrUnsignedDecimalLiteral, without the [Infinity] alternative. *)
Definition parse_unsigned_decimal (s : jsstring) : option Q :=
  let '(ip, r1) := span_digits is_digit s in
  let '(fp, r2) :=
    match r1 with
    | c :: r => if N.eqb c 46 then span_digits is_digit r else ([], r1)
    | [] => ([], r1)
    end in
  match ip, fp with
  | [], [] => None
  | _, _ =>
      match parse_exponent r2 with
      | Some e =>
          let m := digits_value 10 (ip ++ fp) in
          Some (inject_Z m * pow10 (e - Z.of_nat (length fp)))%Q
      | None => None
      end
  end.

Definition Infinity_lit : jsstring := js "Infinity".

Definition parse_signed_decimal (s : jsstring) : num :=
  let '(neg, body) :=
    match s with
    | c :: r =>
        if N.eqb c 45 then (true, r)
        else if N.eqb c 43 then (false, r) else (false, s)
    | [] => (false, s)
    end in
  if jsstring_eqb body Infinity_lit then (if neg then NegInf else PosInf)
  else
    match parse_unsigned_decimal body with
    | Some q => to_double_range (if neg then - q else q)%Q
    | None => NaN
    end.

(** NonDecimalIntegerLiteral: [0x], [0o], [0b] and their digits, unsigned. *)
Definition parse_non_decimal (s : jsstring) : option num :=
  match s with
  | z :: p :: ds =>
      if N.eqb z 48 then
        let radix :=
          if N.eqb p 120 || N.eqb p 88 then Some 16
          else if N.eqb p 111 || N.eqb p 79 then Some 8
          else if N.eqb p 98 || N.eqb p 66 then Some 2
          else None in
        match radix with
        | Some rx =>
            match span_digits (digit_ok rx) ds with
            | (_ :: _, []) => Some (to_double_range (inject_Z (digits_value rx ds)))
            | _ => Some NaN
            end
        | None => None
        end
      else None
  | _ => None
  end.

(** [Number(s)] for a string [s]. *)
Definition StringToNumber (s : jsstring) : num :=
  let t := trim s in
  match t with
  | [] => Fin 0
  | _ =>
      match parse_non_decimal t with
      | Some n => n
      | None => parse_signed_decimal t
      end
  end.

(** ** Values of type [any] *)

Inductive value : Type :=
  | VUndef
  | VNull
  | VBool (b : bool)
  | VNum (n : num)
  | VStr (s : jsstring)
  | VArr (items : list value)
  | VObj (props : list (jsstring * value)).

(** ToBoolean *)
Definition truthy (v : value) : bool :=
  match v with
  | VUndef | VNull => false
  | VBool b => b
  | VNum n => num_truthy n
  | VStr s => match s with [] => false | _ => true end
  | VArr _ | VObj _ => true
  end.

Fixpoint assoc (k : jsstring) (ps : list (jsstring * value)) : option value :=
  match ps with
  | (k', v) :: ps' => if jsstring_eqb k k' then Some v else assoc k ps'
  | [] => None
  end.

(** [v?.k] for the property names the program reads ([results], [data],
    [issue], [code], [price_min], [price_max], [hours], [detail], [error],
    [message], [id]): none of them is a built-in property of a string, an
    array, a number or a prototype, so the read yields [undefined] on
    everything but an object that owns the key. *)
Definition get (v : value) (k : string) : value :=
  match v with
  | VObj ps => default VUndef (assoc (js k) ps)
  | _ => VUndef
  end.

(** [a || b] and [a && b] *)
Definition or_else (a b : value) : value := if truthy a then a else b.
Definition and_then (a b : value) : value := if truthy a then b else a.

(** ToPrimitive of a value that came out of [JSON.parse] throws a TypeError
    exactly when it reaches an object that owns a [toString] property: the
    own property shadows [Object.prototype.toString], is not callable, and
    [valueOf] (own and not callable, or [Object.prototype.valueOf], which
    returns the object) gives no primitive.  An array converts through
    [join], which converts each element that is not [null] or
    [undefined]. *)
Fixpoint to_primitive_throws (v : value) : bool :=
  match v with
  | VObj ps => bool_decide (is_Some (assoc (js "toString") ps))
  | VArr items => existsb to_primitive_throws items
  | _ => false
  end.

(** The number a value converts to when the conversion does not throw.  An
    array converts through its string form: the empty array through the
    empty string, a one-element array through the string of its element, a
    longer one through a string with a comma, which is no numeric
    literal. *)
Fixpoint to_number (v : value) : num :=
  match v with
  | VUndef => NaN
  | VNull => Fin 0
  | VBool b => if b then Fin 1 else Fin 0
  | VNum n => n
  | VStr s => StringToNumber s
  | VObj _ => NaN
  | VArr [] => Fin 0
  | VArr [x] =>
      match x with
      | VUndef | VNull => Fin 0
      | VBool _ => NaN
      | _ => to_number x
      end
  | VArr _ => NaN
  end.

(** [Number(v)]; [None] is the TypeError. *)
Definition Number (v : value) : option num :=
  if to_primitive_throws v then None else Some (to_number v).

Record Host : Type := {
  JSON_parse : jsstring -> option value;   (* [None]: SyntaxError *)
  JSON_stringify : value -> jsstring;
  Number_toString : num -> jsstring;
  (* the message of the TypeError for reading a property of null/undefined *)
  nullish_read_message : jsstring;
  (* the message of the TypeError of a failed ToPrimitive *)
  to_primitive_message : jsstring
}.

Definition comma : jsstring := js ",".

Fixpoint join (parts : list jsstring) : jsstring :=
  match parts with
  | [] => []
  | [p] => p
  | p :: ps => p ++ comma ++ join ps
  end.

(** The string a value converts to when the conversion does not throw. *)
Fixpoint to_string (h : Host) (v : value) : jsstring :=
  match v with
  | VUndef => js "undefined"
  | VNull => js "null"
  | VBool b => if b then js "true" else js "false"
  | VNum n => Number_toString h n
  | VStr s => s
  | VArr items =>
      join (List.map (fun x =>
              match x with
              | VUndef | VNull => []
              | _ => to_string h x
              end) items)
  | VObj _ => js "[object Object]"
  end.

(** [String(v)], and the property key [v] stands for in [m[v]]; [None] is
    the TypeError. *)
Definition ToString (h : Host) (v : value) : option jsstring :=
  if to_primitive_throws v then None else Some (to_string h v).

(** The errors a promise rejects with here: [new Error(msg)], the TypeError
    of a failed fetch, the engine's TypeError for a property read on [null]
    or [undefined] and for a failed ToPrimitive.  All carry a string
    message. *)
Inductive JsError : Type :=
  | ErrorObj (message : jsstring).

Inductive Outcome (A : Type) : Type :=
  | Resolved (a : A)
  | Rejected (e : JsError).
Arguments Resolved {A} a.
Arguments Rejected {A} e.

End JS.


Import JS.

(* ===================================================================== *)
(** * Binary64 arithmetic                                                 *)
(* ===================================================================== *)

Module F64.

Definition prec : Z := 53.
Definition emax : Z := 1024.

(** A Number that is computed with: zero and infinity with their sign, NaN,
    or a finite value [(-1)^s * m * 2^e]. *)
Definition f64 : Type := spec_float.

Definition nan : f64 := S754_nan.
Definition zero : f64 := S754_zero false.

(** [x + y], [x - y], [x * y], [x / y] and [Math.sqrt(x)]: the exact result
    rounded to nearest, ties to even. *)
Definition fadd : f64 -> f64 -> f64 := SFadd prec emax.
Definition fsub : f64 -> f64 -> f64 := SFsub prec emax.
Definition fmul : f64 -> f64 -> f64 := SFmul prec emax.
Definition fdiv : f64 -> f64 -> f64 := SFdiv prec emax.
Definition Math_sqrt : f64 -> f64 := SFsqrt prec emax.

(** [x < y], [x <= y] and [x == y]: false as soon as one side is NaN. *)
Definition ltb : f64 -> f64 -> bool := SFltb.
Definition leb : f64 -> f64 -> bool := SFleb.
Definition eqb : f64 -> f64 -> bool := SFeqb.

Definition is_nan (x : f64) : bool :=
  match x with S754_nan => true | _ => false end.

(** [Math.abs(x)] *)
Definition Math_abs : f64 -> f64 := SFabs.

(** [x] is a zero, a finite value or an infinity of sign [s] ([true] for
    minus). *)
Definition has_sign (s : bool) (x : f64) : bool :=
  match x with
  | S754_zero s' | S754_infinity s' | S754_finite s' _ _ => Bool.eqb s s'
  | S754_nan => false
  end.

(** [Number.isFinite(x)], for a value in its canonical representation: a
    zero, or a finite value of 53 bits, or of fewer bits at the least
    exponent, which is how every result of the arithmetic is
    represented. *)
Definition isFinite (x : f64) : bool :=
  match x with
  | S754_zero _ => true
  | S754_finite _ m e => bounded prec emax m e
  | _ => false
  end.

(** The place of a value that is no NaN in the order of the numbers: the
    infinities at the ends, the zeros in the middle, the finite values by
    sign, exponent and mantissa; and the comparison of two places. *)
Definition rank (x : f64) : Z * Z * Z :=
  match x with
  | S754_infinity true => (-2, 0, 0)
  | S754_finite true m e => (-1, - e, Z.neg m)
  | S754_zero _ | S754_nan => (0, 0, 0)
  | S754_finite false m e => (1, e, Z.pos m)
  | S754_infinity false => (2, 0, 0)
  end.

Definition lex3 (a b : Z * Z * Z) : comparison :=
  match a.1.1 ?= b.1.1 with
  | Eq => match a.1.2 ?= b.1.2 with
          | Eq => a.2 ?= b.2
          | c => c
          end
  | c => c
  end.

(** Are two values the same Number (NaN being one value)? *)
Definition same (x y : f64) : bool :=
  match x, y with
  | S754_zero s, S754_zero s' => Bool.eqb s s'
  | S754_infinity s, S754_infinity s' => Bool.eqb s s'
  | S754_nan, S754_nan => true
  | S754_finite s m e, S754_finite s' m' e' =>
      Bool.eqb s s' && Pos.eqb m m' && Z.eqb e e'
  | _, _ => false
  end.

(** The Number of an integer literal. *)
Definition of_Z (z : Z) : f64 := binary_normalize prec emax z 0 false.

(** The Number nearest to a rational: what a decimal literal of the source
    and a parsed numeric string denote. *)
Definition of_Q (q : Q) : f64 :=
  match Qnum q with
  | 0 => zero
  | Zpos n =>
      let '(mz, ez, lz) :=
        SFdiv_core_binary prec emax (Zpos n) 0 (Zpos (Qden q)) 0 in
      binary_round_aux prec emax false mz ez lz
  | Zneg n =>
      let '(mz, ez, lz) :=
        SFdiv_core_binary prec emax (Zpos n) 0 (Zpos (Qden q)) 0 in
      binary_round_aux prec emax true mz ez lz
  end.

(** The rational a finite Number is. *)
Definition to_Q (x : f64) : option Q :=
  match x with
  | S754_zero _ => Some 0%Q
  | S754_finite s m e =>
      let n := if s then Zneg m else Zpos m in
      Some (if 0 <=? e then inject_Z (n * 2 ^ e)
            else (n # Z.to_pos (2 ^ (- e))))%Q
  | _ => None
  end.

Definition one : f64 := of_Z 1.
Definition two : f64 := of_Z 2.

(** [Math.PI] = 0x1.921fb54442d18p+1 *)
Definition PI : f64 := S754_finite false 7074237752028440 (-51).

(** [Math.round(x)]: NaN, the infinities, the zeros and the integers are
    returned as they are; another value becomes floor(x + 1/2), computed
    exactly, and a zero result keeps the sign of [x]. *)
Definition Math_round (x : f64) : f64 :=
  match x with
  | S754_finite s m e =>
      if 0 <=? e then x
      else
        let n :=
          Z.shiftr (2 * (if s then Zneg m else Zpos m) + 2 ^ (- e)) (1 - e) in
        binary_normalize prec emax n 0 s
  | _ => x
  end.

(** [Math.max(a, b)]: NaN when one argument is; +0 is larger than -0. *)
Definition Math_max (a b : f64) : f64 :=
  if is_nan a || is_nan b then nan
  else if ltb a b then b
  else if ltb b a then a
  else match a with S754_zero true => b | _ => a end.

(** The functions ECMAScript calls implementation-approximated, on the
    arguments for which it fixes no result. *)
Record MathLib : Type := {
  sin_approx : f64 -> f64;
  cos_approx : f64 -> f64;
  atan2_approx : f64 -> f64 -> f64;
  pow_approx : f64 -> f64 -> f64
}.

(** [Math.sin(x)]: NaN for NaN and the infinities, the zero itself for a
    zero. *)
Definition Math_sin (m : MathLib) (x : f64) : f64 :=
  match x with
  | S754_nan | S754_infinity _ => nan
  | S754_zero _ => x
  | S754_finite _ _ _ => sin_approx m x
  end.

(** [Math.cos(x)]: NaN for NaN and the infinities, 1 for a zero. *)
Definition Math_cos (m : MathLib) (x : f64) : f64 :=
  match x with
  | S754_nan | S754_infinity _ => nan
  | S754_zero _ => one
  | S754_finite _ _ _ => cos_approx m x
  end.

(** [x ** 2]: NaN for NaN, +Infinity for an infinity, +0 for a zero. *)
Definition sqr (m : MathLib) (x : f64) : f64 :=
  match x with
  | S754_nan => nan
  | S754_infinity _ => S754_infinity false
  | S754_zero _ => zero
  | S754_finite _ _ _ => pow_approx m x two
  end.

(** [Math.atan2(y, x)]: NaN as soon as one argument is NaN; the zero [y]
    itself when [y] is a zero and [x] is +0 or positive; a zero of the sign
    of [y] when [y] is finite and not zero and [x] is +Infinity. *)
Definition Math_atan2 (m : MathLib) (y x : f64) : f64 :=
  match y, x with
  | S754_nan, _ | _, S754_nan => nan
  | S754_zero _, (S754_zero false | S754_finite false _ _ | S754_infinity false) => y
  | S754_finite s _ _, S754_infinity false => S754_zero s
  | _, _ => atan2_approx m y x
  end.

End F64.

(* ===================================================================== *)
(** * src/App.tsx: great-circle distance                                  *)
(* ===================================================================== *)

Module Geo.
Import F64.

(** The quantity [a] of [haversine]. *)
Definition hav_a (m : MathLib) (lat1 lon1 lat2 lon2 : f64) : f64 :=
  let dLat := fdiv (fmul (fsub lat2 lat1) PI) (of_Z 180) in
  let dLon := fdiv (fmul (fsub lon2 lon1) PI) (of_Z 180) in
  fadd (sqr m (Math_sin m (fdiv dLat two)))
       (fmul (fmul (Math_cos m (fdiv (fmul lat1 PI) (of_Z 180)))
                   (Math_cos m (fdiv (fmul lat2 PI) (of_Z 180))))
             (sqr m (Math_sin m (fdiv dLon two)))).

Definition haversine (m : MathLib) (lat1 lon1 lat2 lon2 : f64) : f64 :=
  let R := of_Z 6371 in
  let a := hav_a m lat1 lon1 lat2 lon2 in
  fmul (fmul two R) (Math_atan2 m (Math_sqrt a) (Math_sqrt (fsub one a))).

End Geo.

(* ===================================================================== *)
(** * src/api.ts: the HTTP wrapper                                        *)
(* ===================================================================== *)

Module Api.

Record Request : Type := {
  req_path : jsstring;
  req_method : jsstring;
  req_body : option jsstring
}.

(** What [fetch] resolves with, once its body text has been read. *)
Record Response : Type := {
  ok : bool;
  statusText : jsstring;
  text : jsstring
}.

(** The network: what a request is answered with.  A rejection is a
    transport failure. *)
Definition Fetch := Request -> Outcome Response.

(** [text ? (() => { try { return JSON.parse(text) } catch { return text } })() : null] *)
Definition parse_body (h : Host) (text : jsstring) : value :=
  match text with
  | [] => VNull
  | _ => match JSON_parse h text with
         | Some v => v
         | None => VStr text
         end
  end.

(** [(data && (data.detail || data.error || data.message)) || res.statusText
     || 'Request failed'] *)
Definition error_value (data : value) (statusText : jsstring) : value :=
  or_else
    (or_else
       (and_then data
          (or_else (or_else (get data "detail") (get data "error"))
                   (get data "message")))
       (VStr statusText))
    (VStr (js "Request failed")).

(** [typeof msg === 'string' ? msg : JSON.stringify(msg)] *)
Definition message_text (h : Host) (msg : value) : jsstring :=
  match msg with
  | VStr s => s
  | _ => JSON_stringify h msg
  end.

Definition http_response (h : Host) (res : Response) : Outcome value :=
  let data := parse_body h (text res) in
  if negb (ok res) then
    Rejected (ErrorObj (message_text h (error_value data (statusText res))))
  else Resolved data.

Definition http (h : Host) (fetch : Fetch) (req : Request) : Outcome value :=
  match fetch req with
  | Rejected e => Rejected e
  | Resolved res => http_response h res
  end.

Definition createRequest_req (h : Host) (payload : value) : Request :=
  {| req_path := js "/repairs/";
     req_method := js "POST";
     req_body := Some (JSON_stringify h payload) |}.

Definition createRequest (h : Host) (fetch : Fetch) (payload : value)
  : Outcome value :=
  http h fetch (createRequest_req h payload).

Definition createSupportMessage_req (h : Host) (payload : value) : Request :=
  {| req_path := js "/support-messages/";
     req_method := js "POST";
     req_body := Some (JSON_stringify h payload) |}.

Definition createSupportMessage (h : Host) (fetch : Fetch) (payload : value)
  : Outcome value :=
  http h fetch (createSupportMessage_req h payload).

End Api.

(* ===================================================================== *)
(** * src/App.tsx: the components' logic                                  *)
(* ===================================================================== *)

Module Center.
Record t : Type := {
  id : num;
  name : jsstring;
  address : jsstring;
  lat : F64.f64;
  lng : F64.f64
}.
End Center.

Module UserPos.
Record t : Type := { lat : F64.f64; lng : F64.f64 }.
End UserPos.

Module Brand.
Record t : Type := { id : num; name : jsstring }.
End Brand.

Module DeviceModel.
Record t : Type := { id : num; name : jsstring }.
End DeviceModel.

Module App.

(** ** MapPicker: [centersSorted] *)

Section ArraySort.
Context {A : Type} (compareFn : A -> A -> F64.f64).

(** The sign [sort] reads off [compareFn(x, y)]; a NaN counts as 0. *)
Definition SortCompare (x y : A) : comparison :=
  let v := compareFn x y in
  if F64.ltb v F64.zero then Lt
  else if F64.ltb F64.zero v then Gt else Eq.

(** A consistent comparator on the elements of [l]: it never returns NaN,
    comparing equal is reflexive, symmetric and transitive, and comparing
    less and comparing greater are transitive. *)
Definition consistent (l : list A) : Prop :=
  forall a b c, In a l -> In b l -> In c l ->
    F64.is_nan (compareFn a b) = false
    /\ SortCompare a a = Eq
    /\ (SortCompare a b = Eq -> SortCompare b a = Eq)
    /\ (SortCompare a b = Eq -> SortCompare b c = Eq -> SortCompare a c = Eq)
    /\ (SortCompare a b = Lt -> SortCompare b c = Lt -> SortCompare a c = Lt)
    /\ (SortCompare a b = Gt -> SortCompare b c = Gt -> SortCompare a c = Gt).

Fixpoint insert (x : A) (l : list A) : list A :=
  match l with
  | [] => [x]
  | y :: l' =>
      match SortCompare x y with
      | Gt => y :: insert x l'
      | _ => x :: y :: l'
      end
  end.

(** The sorted arrangement that keeps elements comparing equal in their
    order, built by insertion from the right. *)
Fixpoint stable_sort (l : list A) : list A :=
  match l with
  | [] => []
  | x :: l' => insert x (stable_sort l')
  end.

(** [[...l].sort(compareFn)] may return [l']: a permutation of [l], which
    is the stable sorted one when the comparator is consistent. *)
Definition Array_sort (l l' : list A) : Prop :=
  Permutation l l' /\ (consistent l -> l' = stable_sort l).

End ArraySort.

(** A comparator [(a, b) => key(a) - key(b)], the order it sorts by, the
    elements whose key is a finite number, and the elements that compare
    equal to [c0]. *)
Definition by_key {A : Type} (key : A -> F64.f64) (a b : A) : F64.f64 :=
  F64.fsub (key a) (key b).
Definition key_le {A : Type} (key : A -> F64.f64) (a b : A) : Prop :=
  F64.leb (key a) (key b) = true.
Definition key_finite {A : Type} (key : A -> F64.f64) (a : A) : Prop :=
  F64.isFinite (key a) = true.
Definition ties {A : Type} (key : A -> F64.f64) (c0 c : A) : bool :=
  F64.eqb (key c0) (key c).

(** [haversine(userPos.lat, userPos.lng, c.lat, c.lng)] *)
Definition distance_to (m : F64.MathLib) (userPos : UserPos.t) (c : Center.t)
  : F64.f64 :=
  Geo.haversine m (UserPos.lat userPos) (UserPos.lng userPos)
                (Center.lat c) (Center.lng c).

(** [(a, b) => da - db] *)
Definition compare_distance (m : F64.MathLib) (userPos : UserPos.t)
    (a b : Center.t) : F64.f64 :=
  let da := distance_to m userPos a in
  let db := distance_to m userPos b in
  F64.fsub da db.

(** [a] is not farther from the user than [b]: [da <= db]. *)
Definition by_distance (m : F64.MathLib) (userPos : UserPos.t)
    (a b : Center.t) : Prop :=
  F64.leb (distance_to m userPos a) (distance_to m userPos b) = true.

(** [centersSorted] may be [result]. *)
Definition centersSorted (m : F64.MathLib) (centers : list Center.t)
    (userPos : option UserPos.t) (result : list Center.t) : Prop :=
  match userPos with
  | None => result = centers
  | Some p => Array_sort (compare_distance m p) centers result
  end.

(** ** Repair: prices and the estimate *)

Record PriceRange : Type := { min : Q; max : Q; hours : Q }.

Record Estimate : Type := { priceMid : Q; time : Z }.

Definition FALLBACK_PRICES : gmap jsstring PriceRange :=
  list_to_map
    [ (js "screen",   {| min := 7000; max := 12000; hours := 2 |});
      (js "battery",  {| min := 3000; max := 6000;  hours := 1 |});
      (js "back",     {| min := 4000; max := 9000;  hours := 2 |});
      (js "camera",   {| min := 3500; max := 8000;  hours := 3 # 2 |});
      (js "charging", {| min := 2500; max := 6000;  hours := 1 |});
      (js "water",    {| min := 5000; max := 9000;  hours := 3 |});
      (js "speaker",  {| min := 2000; max := 5000;  hours := 1 |}) ].

Definition default_price : PriceRange :=
  {| min := 9000; max := 12000; hours := 1 |}.

(** The expression of [estimate] read over the rationals, without the
    rounding of binary64: what the formula gives in exact arithmetic.  The
    function the source computes is [Repair.estimate]. *)
Definition estimate (currentBase : PriceRange) (urgency : num) : Estimate :=
  let coefUrgency : Q :=
    (if num_eqb urgency (Fin 3) then 5 # 4
     else if num_eqb urgency (Fin 2) then 11 # 10 else 1)%Q in
  let priceMid := ((min currentBase + max currentBase) / 2 * coefUrgency)%Q in
  let time :=
    Z.max 1
      (Math_round
         (hours currentBase *
          (if num_eqb urgency (Fin 3) then 8 # 10
           else if num_eqb urgency (Fin 2) then 1 else 12 # 10))%Q) in
  {| priceMid := priceMid; time := time |}.

(** ** Repair: the model-prices effect *)

(** [m[code]]: the property key of a truthy [code]; [None] is the
    TypeError. *)
Definition property_key (h : Host) (code : value) : option jsstring :=
  ToString h code.

(** What one turn of [for (const r of rows)] does: it throws ([Throw]),
    goes on without an assignment ([Skip]), or assigns [m[key] = range]. *)
Inductive RowStep : Type :=
  | Throw
  | Skip
  | Assign (key : jsstring) (range : PriceRange).

Definition row_step (h : Host) (r : value) : RowStep :=
  let code := get (get r "issue") "code" in
  if negb (truthy code) then Skip
  else
    match Number (get r "price_min"), Number (get r "price_max"),
          Number (get r "hours") with
    | Some min, Some max, Some hours =>
        match min, max with
        | Fin mn, Fin mx =>
            match property_key h code with
            | Some key =>
                Assign key
                  {| min := mn; max := mx;
                     hours := match hours with Fin x => x | _ => 1 end |}
            | None => Throw
            end
        | _, _ => Skip
        end
    | _, _, _ => Throw
    end.

(** Does the turn on [r] throw?  Does it assign under the key [k]? *)
Definition row_throws (h : Host) (r : value) : bool :=
  match row_step h r with Throw => true | _ => false end.

Definition row_assigns (h : Host) (k : jsstring) (r : value) : bool :=
  match row_step h r with
  | Assign key _ => bool_decide (key = k)
  | _ => false
  end.

(** One turn of the loop on the map built so far, [m]; [None] when it
    throws.  The bindings of [m] are the own entries of the object, but for
    the binding of [__proto__], which is the object the assignment
    [m['__proto__'] = {...}] installed as the prototype (such an assignment
    adds no entry). *)
Definition price_row (h : Host) (m : gmap jsstring PriceRange) (r : value)
  : option (gmap jsstring PriceRange) :=
  match row_step h r with
  | Throw => None
  | Skip => Some m
  | Assign key range => Some (<[ key := range ]> m)
  end.

(** The loop from the map [m] on; [None] when a turn throws. *)
Fixpoint price_loop (h : Host) (rows : list value)
    (m : gmap jsstring PriceRange) : option (gmap jsstring PriceRange) :=
  match rows with
  | [] => Some m
  | r :: rows' =>
      match price_row h m r with
      | Some m' => price_loop h rows' m'
      | None => None
      end
  end.

(** The price map stored for an array of rows: the map the loop built, or
    [{}], stored by [.catch], when the loop threw. *)
Definition build_price_map (h : Host) (rows : list value)
  : gmap jsstring PriceRange :=
  default ∅ (price_loop h rows ∅).

(** The [.then] handler on what [getModelPrices] resolved with, and the
    [.catch] behind it.  A string iterates as one-character strings, none
    of which has an [issue]; any other non-array makes [for ... of] throw,
    and [.catch] stores [{}]. *)
Definition prices_then (h : Host) (rows : value) : gmap jsstring PriceRange :=
  match rows with
  | VArr items => build_price_map h items
  | _ => ∅
  end.

(** The effect on [modelId]: the price map it stores. *)
Definition prices_effect (h : Host) (modelId : option num)
    (reply : Outcome value) : gmap jsstring PriceRange :=
  match modelId with
  | None => ∅
  | Some n =>
      if negb (num_truthy n) then ∅
      else match reply with
           | Resolved rows => prices_then h rows
           | Rejected _ => ∅
           end
  end.

(** ** Repair: the list effects *)

Definition isArray (v : value) : bool :=
  match v with VArr _ => true | _ => false end.

(** [Array.isArray(data) ? data : data?.results || []] *)
Definition brands_arr (data : value) : value :=
  if isArray data then data else or_else (get data "results") (VArr []).

Definition models_arr (data : value) : value :=
  if isArray data then data else or_else (get data "results") (VArr []).

Definition issues_arr (d : value) : value :=
  if isArray d then d else or_else (get d "results") (VArr []).

(** [(Array.isArray(data) && data) || (data && (data.results || data.data)) || []] *)
Definition centers_arr (data : value) : value :=
  or_else
    (or_else (and_then (VBool (isArray data)) data)
             (and_then data (or_else (get data "results") (get data "data"))))
    (VArr []).

(** ** Repair: the draft and [submit] *)

Record RepairState : Type := {
  brands : list Brand.t;
  models : list DeviceModel.t;
  brandId : option num;
  modelId : option num;
  issueCode : jsstring;
  urgency : num;
  desc : jsstring;
  selectedCenterId : option jsstring;
  showDialog : bool;
  name : jsstring;
  phone : jsstring;
  agree : bool
}.

(** What [submit] does to the outside: the request it sends, the alert it
    raises (a fixed prefix followed by [e?.message || e]),
    the [onOrder] callback. *)
Inductive Event : Type :=
  | EvFetch (r : Api.Request)
  | EvAlertCreateFailed (e : JsError)
  | EvOnOrder (id : jsstring).

(** [phone.replace(/\D/g, '').length >= 7] *)
Definition phoneOk (s : RepairState) : bool :=
  (7 <=? length (strip_non_digits (phone s)))%nat.

(** [name.trim().length >= 2] *)
Definition nameOk (s : RepairState) : bool :=
  (2 <=? length (trim (name s)))%nat.

(** [!x] for [x : number | null] and for [x : string | null] *)
Definition not_id (x : option num) : bool :=
  match x with
  | None => true
  | Some n => negb (num_truthy n)
  end.

Definition not_str (x : option jsstring) : bool :=
  match x with
  | None | Some [] => true
  | Some (_ :: _) => false
  end.

(** [l.find(x => x.id === id)?.name || ''] *)
Definition selectedBrandName (s : RepairState) : jsstring :=
  match brandId s with
  | Some i =>
      match List.find (fun b => num_eqb (Brand.id b) i) (brands s) with
      | Some b => Brand.name b
      | None => []
      end
  | None => []
  end.

Definition selectedModelName (s : RepairState) : jsstring :=
  match modelId s with
  | Some i =>
      match List.find (fun m => num_eqb (DeviceModel.id m) i) (models s) with
      | Some m => DeviceModel.name m
      | None => []
      end
  | None => []
  end.

Definition submit_payload (s : RepairState) : value :=
  VObj
    [ (js "brand", VStr (selectedBrandName s));
      (js "model", VStr (selectedModelName s));
      (js "issue", VStr (issueCode s));
      (js "urgency", VNum (urgency s));
      (js "description", VStr (desc s));
      (js "center", VNum (match selectedCenterId s with
                          | Some c => StringToNumber c
                          | None => Fin 0
                          end));
      (js "customer_name", VStr (trim (name s)));
      (js "customer_phone", VStr (trim (phone s)));
      (js "agree_to_offer", VBool true) ].

(** The success path: [setShowDialog(false)], [setName('')], [setPhone('')],
    [setAgree(false)], [setDesc('')]. *)
Definition reset_draft (s : RepairState) : RepairState :=
  {| brands := brands s;
     models := models s;
     brandId := brandId s;
     modelId := modelId s;
     issueCode := issueCode s;
     urgency := urgency s;
     desc := [];
     selectedCenterId := selectedCenterId s;
     showDialog := false;
     name := [];
     phone := [];
     agree := false |}.

Definition submit_blocked (s : RepairState) : bool :=
  not_str (selectedCenterId s) || negb (agree s) || negb (nameOk s)
  || negb (phoneOk s) || not_id (brandId s) || not_id (modelId s).

Definition submit (h : Host) (fetch : Api.Fetch) (s : RepairState)
  : RepairState * list Event :=
  if submit_blocked s then (s, [])
  else
    let payload := submit_payload s in
    let sent := EvFetch (Api.createRequest_req h payload) in
    match Api.createRequest h fetch payload with
    | Resolved created =>
        match created with
        | VUndef | VNull =>
            (* [created.id] throws after the setters ran *)
            (reset_draft s,
             [sent; EvAlertCreateFailed (ErrorObj (nullish_read_message h))])
        | _ =>
            (* so does [String(created.id)] when it throws *)
            match ToString h (get created "id") with
            | Some id => (reset_draft s, [sent; EvOnOrder id])
            | None =>
                (reset_draft s,
                 [sent; EvAlertCreateFailed (ErrorObj (to_primitive_message h))])
            end
        end
    | Rejected e => (s, [sent; EvAlertCreateFailed e])
    end.

(** ** Support: [send] *)

(** The three toasts: fill in the form, message sent, and the error text
    behind a fixed prefix. *)
Inductive Toast : Type :=
  | ToastFillIn
  | ToastSent
  | ToastError (msg : jsstring).

Record SupportState : Type := {
  rid : jsstring;
  text : jsstring;
  toast : option Toast;
  busy : bool
}.

Definition send_payload (idNum : num) (text : jsstring) : value :=
  VObj [ (js "repair_request", VNum idNum); (js "text", VStr (trim text)) ].

(** [typeof e?.message === 'string' ? e.message.replace(...) : ...]: every
    error [createSupportMessage] rejects with carries a string message. *)
Definition send_error_text (e : JsError) : jsstring :=
  match e with
  | ErrorObj m => strip_quotes m
  end.

Definition send (h : Host) (fetch : Api.Fetch) (s : SupportState)
  : SupportState * list Api.Request :=
  let idNum := StringToNumber (rid s) in
  if negb (num_truthy idNum) || (match trim (text s) with [] => true | _ => false end)
  then
    ({| rid := rid s; text := text s; toast := Some ToastFillIn; busy := busy s |},
     [])
  else
    let payload := send_payload idNum (text s) in
    let req := Api.createSupportMessage_req h payload in
    match Api.createSupportMessage h fetch payload with
    | Resolved _ =>
        ({| rid := rid s; text := []; toast := Some ToastSent; busy := false |},
         [req])
    | Rejected e =>
        ({| rid := rid s; text := text s;
            toast := Some (ToastError (send_error_text e)); busy := false |},
         [req])
    end.

End App.

(* ===================================================================== *)
(** * The specification's own words, as definitions                       *)
(* ===================================================================== *)

Module Spec.

(** Price multiplier: Standard 1.0, Faster 1.1, Urgent 1.25. *)
Definition price_multiplier (u : Z) : Q :=
  match u with
  | 1 => 1
  | 2 => 11 # 10
  | _ => 5 # 4
  end.

(** Time multiplier: Standard 1.2, Faster 1.0, Urgent 0.8. *)
Definition time_multiplier (u : Z) : Q :=
  match u with
  | 1 => 12 # 10
  | 2 => 1
  | _ => 8 # 10
  end.

(** The preconditions of submission: a centre is selected, the offer is
    agreed to, the name has two characters or more that are not white
    space, the phone has seven digits or more, a brand and a model are
    selected. *)
Definition preconditions (s : App.RepairState) : bool :=
  bool_decide (is_Some (App.selectedCenterId s))
  && App.agree s
  && (2 <=? nonws_count (App.name s))%nat
  && (7 <=? length (List.filter is_digit (App.phone s)))%nat
  && bool_decide (is_Some (App.brandId s))
  && bool_decide (is_Some (App.modelId s)).

(** The exact value of the formulas: midPrice = ((min + max) / 2) * p(u)
    and etaHours = max(1, round(hours * t(u))). *)
Definition mid_price (r : App.PriceRange) (u : Z) : Q :=
  ((App.min r + App.max r) / 2 * price_multiplier u)%Q.

Definition eta_hours (r : App.PriceRange) (u : Z) : Z :=
  Z.max 1 (Math_round (App.hours r * time_multiplier u)%Q).

(** The same formulas with every constant and every operation rounded to
    binary64. *)
Definition mid_price_b64 (r : App.PriceRange) (u : Z) : F64.f64 :=
  F64.fmul
    (F64.fdiv (F64.fadd (F64.of_Q (App.min r)) (F64.of_Q (App.max r))) (F64.of_Z 2))
    (F64.of_Q (price_multiplier u)).

Definition eta_hours_b64 (r : App.PriceRange) (u : Z) : F64.f64 :=
  F64.Math_max (F64.of_Z 1)
    (F64.Math_round (F64.fmul (F64.of_Q (App.hours r)) (F64.of_Q (time_multiplier u)))).

(** A field coerces to a finite number. *)
Definition finite_number (v : value) : bool :=
  match Number v with
  | Some n => isFinite n
  | None => false
  end.

(** A price row is kept when it names an issue code and both its prices
    coerce to finite numbers. *)
Definition row_kept (r : value) : bool :=
  truthy (get (get r "issue") "code")
  && finite_number (get r "price_min")
  && finite_number (get r "price_max").

(** A coercion of the row throws: the row names an issue code and one of
    its three numeric fields is (or is an array that holds) an object with
    a [toString] property of its own, or the row is kept and its issue code
    is such a value. *)
Definition coercion_throws (r : value) : bool :=
  truthy (get (get r "issue") "code")
  && (to_primitive_throws (get r "price_min")
      || to_primitive_throws (get r "price_max")
      || to_primitive_throws (get r "hours")
      || (finite_number (get r "price_min") && finite_number (get r "price_max")
          && to_primitive_throws (get (get r "issue") "code"))).

(** The value the error message is made of: the body's [detail], else its
    [error], else its [message], else the status text, else a fixed text;
    a field counts when its value is truthy. *)
Definition error_choice (body : value) (statusText : jsstring) : value :=
  if truthy (get body "detail") then get body "detail"
  else if truthy (get body "error") then get body "error"
  else if truthy (get body "message") then get body "message"
  else match statusText with
       | _ :: _ => VStr statusText
       | [] => VStr (js "Request failed")
       end.

(** An envelope: an object whose [results] field holds the array. *)
Definition envelope_of (props : list (jsstring * value)) (l : list value) : Prop :=
  assoc (js "results") props = Some (VArr l).

End Spec.

(* ===================================================================== *)
(** * Sample inputs                                                       *)
(* ===================================================================== *)

Module Sample.

(** A host to run the definitions with.  Its [JSON.parse] reads a run of
    decimal digits and rejects everything else; the examples give it no
    other JSON text.  The serialisers are placeholders: no example looks
    at a serialised text. *)
Definition host : Host :=
  {| JSON_parse := fun t =>
       match span_digits is_digit t with
       | (_ :: _, []) => Some (VNum (Fin (inject_Z (digits_value 10 t))))
       | _ => None
       end;
     JSON_stringify := fun _ => js "{}";
     Number_toString := fun _ => js "0";
     nullish_read_message := js "Cannot read properties of null";
     to_primitive_message := js "Cannot convert object to primitive value" |}.


Definition server_price : App.PriceRange :=
  {| App.min := 6000; App.max := 8000; App.hours := 3 |}.

(** A draft ready to be submitted. *)
Definition draft : App.RepairState :=
  {| App.brands := [ {| Brand.id := Fin 1; Brand.name := js "Apple" |} ];
     App.models := [ {| DeviceModel.id := Fin 5; DeviceModel.name := js "iPhone 13" |} ];
     App.brandId := Some (Fin 1);
     App.modelId := Some (Fin 5);
     App.issueCode := js "screen";
     App.urgency := Fin 2;
     App.desc := js "cracked";
     App.selectedCenterId := Some (js "3");
     App.showDialog := true;
     App.name := js " Ann ";
     App.phone := js "+7 (900) 123-45-67";
     App.agree := true |}.

(** The same draft with a phone of six digits. *)
Definition draft_short_phone : App.RepairState :=
  {| App.brands := App.brands draft;
     App.models := App.models draft;
     App.brandId := App.brandId draft;
     App.modelId := App.modelId draft;
     App.issueCode := App.issueCode draft;
     App.urgency := App.urgency draft;
     App.desc := App.desc draft;
     App.selectedCenterId := App.selectedCenterId draft;
     App.showDialog := App.showDialog draft;
     App.name := App.name draft;
     App.phone := js "12-34-56";
     App.agree := App.agree draft |}.

Definition response_created : Api.Response :=
  {| Api.ok := true; Api.statusText := js "Created"; Api.text := js "42" |}.

Definition response_failed : Api.Response :=
  {| Api.ok := false; Api.statusText := js "Bad Request"; Api.text := js "oops" |}.

Definition fetch_ok : Api.Fetch := fun _ => Resolved response_created.
Definition fetch_fail : Api.Fetch := fun _ => Resolved response_failed.

Definition support_form : App.SupportState :=
  {| App.rid := js "42"; App.text := js "  where is my phone  ";
     App.toast := None; App.busy := false |}.

Definition support_form_no_id : App.SupportState :=
  {| App.rid := js "abc"; App.text := js "hello";
     App.toast := None; App.busy := false |}.

(** A price row whose [hours] is no number, bare and in an envelope. *)
Definition row_bad_hours : value :=
  VObj [ (js "issue", VObj [ (js "code", VStr (js "screen")) ]);
         (js "price_min", VStr (js "100"));
         (js "price_max", VNum (Fin 200));
         (js "hours", VStr (js "soon")) ].

Definition row_bad_price : value :=
  VObj [ (js "issue", VObj [ (js "code", VStr (js "battery")) ]);
         (js "price_min", VStr (js "n/a"));
         (js "price_max", VNum (Fin 200));
         (js "hours", VNum (Fin 1)) ].

Definition prices_envelope : value :=
  VObj [ (js "count", VNum (Fin 1)); (js "results", VArr [row_bad_hours]) ].

End Sample.

(* ===================================================================== *)
(** * src/api.ts: the base address, the URL of a call, one more call      *)
(* ===================================================================== *)

Module ApiUrl.

Definition slash : char16 := 47%N.

(** [path.replace(re, '')] for the pattern of one or more slashes at the
    start. *)
Fixpoint strip_leading_slashes (path : jsstring) : jsstring :=
  match path with
  | c :: r => if N.eqb c slash then strip_leading_slashes r else path
  | [] => []
  end.

(** [b.replace(re, '')] for the pattern of one or more slashes at the end. *)
Definition strip_trailing_slashes (b : jsstring) : jsstring :=
  rev (strip_leading_slashes (rev b)).

(** [normalizeBase(base)].  [window_origin] is [window.location.origin]
    where there is a window. *)
Definition normalizeBase (window_origin : option jsstring)
    (base : option jsstring) : jsstring :=
  let b := trim (default [] base) in
  match b with
  | _ :: _ => strip_trailing_slashes b
  | [] =>
      match window_origin with
      | Some origin => origin ++ js "/api"
      | None => js "/api"
      end
  end.

(** [url(path)] for a call without a query. *)
Definition url (API_BASE : jsstring) (path : jsstring) : jsstring :=
  API_BASE ++ [slash] ++ strip_leading_slashes path.

(** [fetchRequestById(id)]: a GET of the path made of the id. *)
Definition fetchRequestById_req (id : jsstring) : Api.Request :=
  {| Api.req_path := js "/repairs/" ++ id ++ js "/";
     Api.req_method := js "GET";
     Api.req_body := None |}.

Definition fetchRequestById (h : Host) (fetch : Api.Fetch) (id : jsstring)
  : Outcome value :=
  Api.http h fetch (fetchRequestById_req id).

End ApiUrl.

(* ===================================================================== *)
(** * src/App.tsx: utilities, Tracking, more of Repair, the map markers   *)
(* ===================================================================== *)

Module Ui.

Definition space : char16 := 32%N.

(** [parts.join(' ')] *)
Fixpoint join_space (parts : list jsstring) : jsstring :=
  match parts with
  | [] => []
  | [p] => p
  | p :: ps => p ++ [space] ++ join_space ps
  end.

(** [arr.filter(Boolean)] on strings, [false] and [undefined] ([None]):
    the strings that are not empty stay. *)
Fixpoint filter_Boolean (arr : list (option jsstring)) : list jsstring :=
  match arr with
  | [] => []
  | Some (c :: s) :: arr' => (c :: s) :: filter_Boolean arr'
  | _ :: arr' => filter_Boolean arr'
  end.

Definition classNames (arr : list (option jsstring)) : jsstring :=
  join_space (filter_Boolean arr).

End Ui.

Module Tracking.

Record State : Type := { id : jsstring; data : value }.

(** The request [load] sends and the alert it raises (a fixed prefix
    followed by [e?.message || e]). *)
Inductive Event : Type :=
  | EvFetch (r : Api.Request)
  | EvAlertNotFound (e : JsError).

Definition load (h : Host) (fetch : Api.Fetch) (s : State) : State * list Event :=
  match id s with
  | [] => (s, [])
  | _ :: _ =>
      let sent := EvFetch (ApiUrl.fetchRequestById_req (id s)) in
      match ApiUrl.fetchRequestById h fetch (id s) with
      | Resolved d => ({| id := id s; data := d |}, [sent])
      | Rejected e => (s, [sent; EvAlertNotFound e])
      end
  end.

End Tracking.

Module Repair.

Record Issue : Type := { code : value; name : value }.

Definition ISSUES_PRESET : list Issue :=
  [ {| code := VStr (js "screen");
       name := VStr [1069; 1082; 1088; 1072; 1085; 47; 1076; 1080; 1089; 1087;
                     1083; 1077; 1081]%N |};
    {| code := VStr (js "battery");
       name := VStr [1041; 1072; 1090; 1072; 1088; 1077; 1103]%N |};
    {| code := VStr (js "back");
       name := VStr [1050; 1086; 1088; 1087; 1091; 1089; 47; 1079; 1072; 1076;
                     1085; 1103; 1103; 32; 1082; 1088; 1099; 1096; 1082; 1072]%N |};
    {| code := VStr (js "camera");
       name := VStr [1050; 1072; 1084; 1077; 1088; 1072]%N |};
    {| code := VStr (js "charging");
       name := VStr [1056; 1072; 1079; 1098; 1105; 1084; 32; 1079; 1072; 1088;
                     1103; 1076; 1082; 1080]%N |};
    {| code := VStr (js "water");
       name := VStr [1055; 1086; 1089; 1083; 1077; 32; 1074; 1086; 1076; 1099]%N |};
    {| code := VStr (js "speaker");
       name := VStr [1052; 1080; 1082; 1088; 1086; 1092; 1086; 1085; 47; 1076;
                     1080; 1085; 1072; 1084; 1080; 1082]%N |} ].

Definition nullish (v : value) : bool :=
  match v with VUndef | VNull => true | _ => false end.

(** [v === s] for a string [s] *)
Definition is_string (v : value) (s : jsstring) : bool :=
  match v with VStr t => jsstring_eqb t s | _ => false end.

(** The [issueCode] the issues effect closes over: the effect has no
    dependencies, so it is set up once, in the first render, where
    [issueCode] is its initial value. *)
Definition issueCode_at_mount : jsstring := js "screen".

(** An element of the reply whose code is the closed-over code. *)
Definition lists_code_at_mount (i : value) : bool :=
  is_string (get i "code") issueCode_at_mount.

(** The [.then] handler of the issues effect on the pair (issues,
    issueCode), the state when the reply arrives.  Only a non-empty array
    gets past [arr.length] and [arr.map]; an element that is [null] or
    [undefined] makes the mapping throw before any setter ran, and the
    empty [.catch] swallows it. *)
Definition issues_then (st : list Issue * jsstring) (d : value)
  : list Issue * jsstring :=
  match App.issues_arr d with
  | VArr (x :: l) =>
      let arr := x :: l in
      if existsb nullish arr then st
      else
        (List.map (fun i => {| code := get i "code"; name := get i "name" |}) arr,
         match List.find lists_code_at_mount arr with
         | Some _ => snd st
         | None => js "screen"
         end)
  | _ => st
  end.

Definition issues_effect (st : list Issue * jsstring) (reply : Outcome value)
  : list Issue * jsstring :=
  match reply with
  | Resolved d => issues_then st d
  | Rejected _ => st
  end.

(** *** [currentBase] and [estimate] *)

(** The names a plain object inherits from [Object.prototype], but for the
    accessor [__proto__]. *)
Definition Object_prototype_names : list jsstring :=
  [ js "constructor"; js "hasOwnProperty"; js "isPrototypeOf";
    js "propertyIsEnumerable"; js "toLocaleString"; js "toString";
    js "valueOf"; js "__defineGetter__"; js "__defineSetter__";
    js "__lookupGetter__"; js "__lookupSetter__" ].

(** What a read [priceMap[k]] yields: a price range object, a number (a
    field of a range that is the prototype), a built-in (a method of
    [Object.prototype], or [Object.prototype] itself), or [undefined]. *)
Inductive Property : Type :=
  | PRange (r : App.PriceRange)
  | PNumber (q : Q)
  | PBuiltin
  | PUndefined.

Definition Object_prototype_get (k : jsstring) : Property :=
  if bool_decide (k ∈ Object_prototype_names) then PBuiltin else PUndefined.

(** [m[k]]: the accessor [__proto__] gives the prototype of [m]; another
    key is looked up among the own entries, then in the range installed as
    the prototype, if there is one, then in [Object.prototype]. *)
Definition priceMap_get (m : gmap jsstring App.PriceRange) (k : jsstring) : Property :=
  if bool_decide (k = js "__proto__") then
    match m !! js "__proto__" with
    | Some p => PRange p
    | None => PBuiltin
    end
  else
    match m !! k with
    | Some r => PRange r
    | None =>
        match m !! js "__proto__" with
        | Some p =>
            if bool_decide (k = js "min") then PNumber (App.min p)
            else if bool_decide (k = js "max") then PNumber (App.max p)
            else if bool_decide (k = js "hours") then PNumber (App.hours p)
            else Object_prototype_get k
        | None => Object_prototype_get k
        end
    end.

(** An issue code that names nothing a price map inherits or can be made
    to inherit. *)
Definition ordinary_code (k : jsstring) : bool :=
  negb (bool_decide
          (k ∈ js "__proto__" :: js "min" :: js "max" :: js "hours"
               :: Object_prototype_names)).

(** ToBoolean *)
Definition property_truthy (p : Property) : bool :=
  match p with
  | PRange _ | PBuiltin => true
  | PNumber q => negb (Qeq_bool q 0)
  | PUndefined => false
  end.

(** What [currentBase] is: a price range, or another truthy value, which
    has no [min], [max] or [hours]. *)
Inductive Base : Type :=
  | BaseRange (r : App.PriceRange)
  | BaseOther.

Definition to_base (p : Property) : Base :=
  match p with
  | PRange r => BaseRange r
  | _ => BaseOther
  end.

(** [priceMap[issueCode] || FALLBACK_PRICES[issueCode] || {min: 9000, ...}] *)
Definition currentBase (priceMap : gmap jsstring App.PriceRange) (issueCode : jsstring) : Base :=
  let server := priceMap_get priceMap issueCode in
  if property_truthy server then to_base server
  else
    let fallback := priceMap_get App.FALLBACK_PRICES issueCode in
    if property_truthy fallback then to_base fallback
    else BaseRange App.default_price.

(** [currentBase.min] and the like, as the operand of [+] or [*]: the
    field of a range, NaN for the [undefined] that any other base gives. *)
Definition base_field (f : App.PriceRange -> Q) (b : Base) : F64.f64 :=
  match b with
  | BaseRange r => F64.of_Q (f r)
  | BaseOther => F64.nan
  end.

Record Estimate : Type := { priceMid : F64.f64; time : F64.f64 }.

Definition estimate (currentBase : Base) (urgency : num) : Estimate :=
  let coefUrgency :=
    if num_eqb urgency (Fin 3) then F64.of_Q (5 # 4)
    else if num_eqb urgency (Fin 2) then F64.of_Q (11 # 10) else F64.of_Z 1 in
  let priceMid :=
    F64.fmul
      (F64.fdiv
         (F64.fadd (base_field App.min currentBase) (base_field App.max currentBase))
         (F64.of_Z 2))
      coefUrgency in
  let time :=
    F64.Math_max (F64.of_Z 1)
      (F64.Math_round
         (F64.fmul (base_field App.hours currentBase)
            (if num_eqb urgency (Fin 3) then F64.of_Q (8 # 10)
             else if num_eqb urgency (Fin 2) then F64.of_Z 1
             else F64.of_Q (12 # 10)))) in
  {| priceMid := priceMid; time := time |}.

(** *** The dialog *)

(** [Boolean(selectedCenterId && brandId && modelId)] *)
Definition canOpenDialog (s : App.RepairState) : bool :=
  negb (App.not_str (App.selectedCenterId s))
  && negb (App.not_id (App.brandId s))
  && negb (App.not_id (App.modelId s)).

(** The [disabled] of the confirm button: [!nameOk || !phoneOk || !agree] *)
Definition confirm_disabled (s : App.RepairState) : bool :=
  negb (App.nameOk s) || negb (App.phoneOk s) || negb (App.agree s).

End Repair.

Module MapView.

Inductive PointId : Type :=
  | IdNum (n : num)
  | IdStr (s : jsstring).

Record Point : Type := {
  id : PointId;
  lat : F64.f64;
  lng : F64.f64;
  name : option jsstring;
  address : option jsstring
}.

(** [String(p.id)] *)
Definition id_string (h : Host) (p : Point) : jsstring :=
  match id p with
  | IdNum n => Number_toString h n
  | IdStr s => s
  end.

(** One turn of [points.forEach]: a marker is made for an id that has
    none. *)
Definition add_marker (h : Host) (existing : gmap jsstring Point) (p : Point)
  : gmap jsstring Point :=
  match existing !! id_string h p with
  | Some _ => existing
  | None => <[ id_string h p := p ]> existing
  end.

(** The effect on [points], as it leaves [markersRef.current]: a marker is
    kept as the point it was made from.  [ready] says that the map library
    and the map are there. *)
Definition sync_markers (h : Host) (ready : bool)
    (existing : gmap jsstring Point) (points : list Point)
  : gmap jsstring Point :=
  if ready then
    let incomingIds : gset jsstring := list_to_set (List.map (id_string h) points) in
    fold_left (add_marker h) points
      (filter (fun kv => kv.1 ∈ incomingIds) existing)
  else existing.

End MapView.

Module PriceRows.

(** A price range as the data model wants it: 0 <= min <= max and
    hours > 0. *)
Definition well_formed (r : App.PriceRange) : bool :=
  Qle_bool 0 (App.min r) && Qle_bool (App.min r) (App.max r)
  && negb (Qle_bool (App.hours r) 0).

End PriceRows.

Module Sample2.

(** A position at 12 N, 0 E, the centre at its antipode, 12 S, 180 E, and a
    centre one degree to the east of the position. *)
Definition here : UserPos.t :=
  {| UserPos.lat := F64.of_Z 12; UserPos.lng := F64.of_Z 0 |}.

Definition center_antipode : Center.t :=
  {| Center.id := Fin 1; Center.name := js "A"; Center.address := js "1 Main St";
     Center.lat := F64.of_Z (-12); Center.lng := F64.of_Z 180 |}.

Definition center_near : Center.t :=
  {| Center.id := Fin 2; Center.name := js "B"; Center.address := js "2 Main St";
     Center.lat := F64.of_Z 12; Center.lng := F64.of_Z 1 |}.

(** A centre three degrees to the east of the position. *)
Definition center_far : Center.t :=
  {| Center.id := Fin 3; Center.name := js "C"; Center.address := js "3 Main St";
     Center.lat := F64.of_Z 12; Center.lng := F64.of_Z 3 |}.

(** The arguments [haversine] hands to [Math.sin] and [Math.cos] between
    the position and its antipode: 12 degrees in radians, with either sign,
    and a quarter turn. *)
Definition rad_12 : F64.f64 := S754_finite false 7545853602163669 (-55).
Definition rad_minus_12 : F64.f64 := S754_finite true 7545853602163669 (-55).
Definition rad_90 : F64.f64 := S754_finite false 7074237752028440 (-52).

(** The binary64 values nearest to sin(-12 deg) = -0.20791169081775934...
    and to cos(12 deg) = 0.97814760073380563... *)
Definition sin_minus_12 : F64.f64 := S754_finite true 7490808106342645 (-55).
Definition cos_12 : F64.f64 := S754_finite false 8810370340356224 (-53).

(** A math library returns the correctly rounded sine and cosine at these
    arguments, and the correctly rounded square, as glibc and fdlibm do. *)
Definition rounds_correctly_at_12_degrees (m : F64.MathLib) : Prop :=
  F64.sin_approx m rad_minus_12 = sin_minus_12
  /\ F64.sin_approx m rad_90 = F64.one
  /\ F64.cos_approx m rad_12 = cos_12
  /\ F64.cos_approx m rad_minus_12 = cos_12
  /\ F64.pow_approx m sin_minus_12 F64.two = F64.fmul sin_minus_12 sin_minus_12
  /\ F64.pow_approx m F64.one F64.two = F64.one.

(** A math library to run the definitions with: it knows the values above,
    squares by multiplying, and is a placeholder elsewhere. *)
Definition math : F64.MathLib :=
  {| F64.sin_approx := fun x =>
       if F64.same x rad_minus_12 then sin_minus_12
       else if F64.same x rad_90 then F64.one else x;
     F64.cos_approx := fun x =>
       if F64.same x rad_12 || F64.same x rad_minus_12 then cos_12 else F64.one;
     F64.atan2_approx := fun y x => F64.fdiv y x;
     F64.pow_approx := fun x _ => F64.fmul x x |}.

(** A price range whose hours are 3.1249999999999996, the binary64 value
    below 3.125. *)
Definition range_hours_below_3125 : App.PriceRange :=
  {| App.min := 7000; App.max := 12000;
     App.hours := 7036874417766399 # 2251799813685248 |}.

(** A price range whose prices are 1e308. *)
Definition range_huge : App.PriceRange :=
  {| App.min := inject_Z (10 ^ 308); App.max := inject_Z (10 ^ 308);
     App.hours := 1 |}.

Definition tracking_form : Tracking.State :=
  {| Tracking.id := js "42"; Tracking.data := VStr (js "old") |}.

Definition good_price_row : value :=
  VObj [ (js "issue", VObj [ (js "code", VStr (js "screen")) ]);
         (js "price_min", VNum (Fin 5000));
         (js "price_max", VStr (js "6500"));
         (js "hours", VNum (Fin 2)) ].

(** A row whose minimum price is an object with a [toString] property. *)
Definition row_throwing : value :=
  VObj [ (js "issue", VObj [ (js "code", VStr (js "water")) ]);
         (js "price_min", VObj [ (js "toString", VNum (Fin 1)) ]);
         (js "price_max", VNum (Fin 200));
         (js "hours", VNum (Fin 1)) ].

(** A row whose issue code is [__proto__]. *)
Definition row_proto : value :=
  VObj [ (js "issue", VObj [ (js "code", VStr (js "__proto__")) ]);
         (js "price_min", VNum (Fin 1));
         (js "price_max", VNum (Fin 2));
         (js "hours", VNum (Fin 3)) ].

Definition issues_reply : value :=
  VObj [ (js "results",
          VArr [ VObj [ (js "code", VStr (js "glass")); (js "name", VStr (js "Glass")) ];
                 VObj [ (js "code", VStr (js "battery")); (js "name", VStr (js "Battery")) ] ]) ].

(** A reply that lists the code [screen]. *)
Definition issues_reply_screen : value :=
  VArr [ VObj [ (js "code", VStr (js "screen")); (js "name", VStr (js "Screen")) ];
         VObj [ (js "code", VStr (js "glass")); (js "name", VStr (js "Glass")) ] ].

Definition point_a : MapView.Point :=
  {| MapView.id := MapView.IdStr (js "a");
     MapView.lat := F64.of_Z 45; MapView.lng := F64.of_Z 42;
     MapView.name := Some (js "A"); MapView.address := None |}.

Definition point_a_moved : MapView.Point :=
  {| MapView.id := MapView.IdStr (js "a");
     MapView.lat := F64.of_Z 46; MapView.lng := F64.of_Z 42;
     MapView.name := Some (js "A"); MapView.address := None |}.

Definition point_b : MapView.Point :=
  {| MapView.id := MapView.IdStr (js "b");
     MapView.lat := F64.of_Z 44; MapView.lng := F64.of_Z 41;
     MapView.name := None; MapView.address := None |}.

End Sample2.

(* ===================================================================== *)
(** * The model on small inputs                                           *)
(* ===================================================================== *)

Section ModelChecks.

Example StringToNumber_samples :
  StringToNumber (js " 12.5e1 ") = Fin 125
  /\ StringToNumber (js "") = Fin 0
  /\ StringToNumber (js "0x1F") = Fin 31
  /\ StringToNumber (js "-Infinity") = NegInf
  /\ StringToNumber (js "1e400") = PosInf
  /\ StringToNumber (js "12 3") = NaN
  /\ StringToNumber (js "abc") = NaN.
Proof. repeat split; vm_compute; reflexivity. Qed.

Example Number_samples :
  Number (VArr []) = Some (Fin 0)
  /\ Number (VArr [VStr (js "7")]) = Some (Fin 7)
  /\ Number (VArr [VNum (Fin 1); VNum (Fin 2)]) = Some NaN
  /\ Number (VObj []) = Some NaN
  /\ Number VNull = Some (Fin 0)
  /\ Number VUndef = Some NaN
  /\ Number (VObj [(js "toString", VNum (Fin 1))]) = None
  /\ Number (VArr [VNull; VObj [(js "toString", VNull)]]) = None.
Proof. repeat split; vm_compute; reflexivity. Qed.

Example ToString_samples :
  ToString Sample.host (VArr [VStr (js "a"); VNull; VStr (js "b")]) = Some (js "a,,b")
  /\ ToString Sample.host (VObj [(js "id", VNull)]) = Some (js "[object Object]")
  /\ ToString Sample.host (VObj [(js "toString", VStr (js "x"))]) = None.
Proof. repeat split; vm_compute; reflexivity. Qed.

Example trim_samples :
  trim (js "  a b  ") = js "a b"
  /\ trim (js "   ") = []
  /\ nonws_count (js "  a b  ") = 2%nat.
Proof. repeat split; vm_compute; reflexivity. Qed.

Example strip_quotes_samples :
  strip_quotes (quote :: js "bad id" ++ [quote]) = js "bad id"
  /\ strip_quotes [quote] = []
  /\ strip_quotes (js "plain") = js "plain".
Proof. repeat split; vm_compute; reflexivity. Qed.

Example phoneOk_samples :
  App.phoneOk Sample.draft = true /\ App.phoneOk Sample.draft_short_phone = false.
Proof. split; vm_compute; reflexivity. Qed.

(** Binary64 values: 0.1 + 0.2 is not 0.3; [Math.round] takes a tie up
    and keeps the sign of a zero; [Math.max] lets a NaN through. *)
Example F64_samples :
  F64.same (F64.fadd (F64.of_Q (1 # 10)) (F64.of_Q (2 # 10))) (F64.of_Q (3 # 10)) = false
  /\ F64.of_Q (11 # 10) = S754_finite false 4953959590107546 (-52)
  /\ F64.Math_round (F64.of_Q (5 # 2)) = F64.of_Z 3
  /\ F64.Math_round (F64.of_Q (- 5 # 2)) = F64.of_Z (-2)
  /\ F64.Math_round (F64.of_Q (- 1 # 2)) = S754_zero true
  /\ F64.Math_round (F64.of_Q (49999999999999994 # 100000000000000000)) = F64.zero
  /\ F64.Math_max F64.one F64.nan = F64.nan
  /\ F64.Math_sqrt (F64.of_Z (-1)) = F64.nan
  /\ F64.of_Q (inject_Z (2 ^ 1024)) = S754_infinity false.
Proof. repeat split; vm_compute; reflexivity. Qed.

(** Sorting four items by their second component: equal keys keep their
    order. *)
Example stable_sort_sample :
  App.stable_sort (fun a b : Z * Z => F64.fsub (F64.of_Z (snd a)) (F64.of_Z (snd b)))
    [(1, 20); (2, 10); (3, 20); (4, 10)]
  = [(2, 10); (4, 10); (1, 20); (3, 20)].
Proof. vm_compute. reflexivity. Qed.

End ModelChecks.

(* ===================================================================== *)
(** * Facts about binary64 arithmetic                                     *)
(* ===================================================================== *)

Section F64Facts.
Import F64.

Lemma shr_1_nonneg (r : shr_record) : 0 <= shr_m r -> 0 <= shr_m (shr_1 r).
Proof.
  destruct r as [m r s]. destruct m as [| [p | p |] | p]; simpl; lia.
Qed.

Lemma iter_shr_1_nonneg (p : positive) (r : shr_record) :
  0 <= shr_m r -> 0 <= shr_m (SpecFloat.iter_pos shr_1 p r).
Proof.
  revert r. induction p as [p IH | p IH |]; intros r Hr; simpl.
  - apply IH, IH, shr_1_nonneg, Hr.
  - apply IH, IH, Hr.
  - apply shr_1_nonneg, Hr.
Qed.

Lemma shr_fexp_nonneg (m e : Z) (l : location) :
  0 <= m -> 0 <= shr_m (fst (shr_fexp prec emax m e l)).
Proof.
  intros Hm. unfold shr_fexp, shr.
  assert (H0 : 0 <= shr_m (shr_record_of_loc m l)) by (destruct l as [| []]; exact Hm).
  destruct (fexp prec emax (Zdigits2 m + e) - e) as [| p | p]; simpl;
    [exact H0 | apply iter_shr_1_nonneg, H0 | exact H0].
Qed.

Lemma round_nearest_even_nonneg (m : Z) (l : location) :
  0 <= m -> 0 <= round_nearest_even m l.
Proof.
  intros Hm. destruct l as [| []]; simpl; try lia.
  destruct (Z.even m); lia.
Qed.

(** Rounding a magnitude gives a zero, a finite value or an infinity of
    the sign it was given: never NaN. *)
Lemma binary_round_aux_sign (s : bool) (m e : Z) (l : location) :
  0 <= m -> has_sign s (binary_round_aux prec emax s m e l) = true.
Proof.
  intros Hm. unfold binary_round_aux.
  pose proof (shr_fexp_nonneg m e l Hm) as H1.
  destruct (shr_fexp prec emax m e l) as [mrs' e']. simpl in H1.
  pose proof (shr_fexp_nonneg _ e' loc_Exact
                (round_nearest_even_nonneg _ (loc_of_shr_record mrs') H1)) as H2.
  destruct (shr_fexp prec emax
              (round_nearest_even (shr_m mrs') (loc_of_shr_record mrs')) e' loc_Exact)
    as [mrs'' e'']. simpl in H2.
  destruct (shr_m mrs'') as [| p | p]; simpl.
  - apply eqb_reflx.
  - destruct (e'' <=? emax - prec); simpl; apply eqb_reflx.
  - lia.
Qed.

Lemma binary_round_sign (s : bool) (m : positive) (e : Z) :
  has_sign s (binary_round prec emax s m e) = true.
Proof.
  unfold binary_round.
  destruct (shl_align m e (fexp prec emax (Z.pos (digits2_pos m) + e))) as [mz ez].
  apply binary_round_aux_sign. lia.
Qed.

Lemma has_sign_not_nan (s : bool) (x : f64) : has_sign s x = true -> is_nan x = false.
Proof. destruct x; simpl; congruence. Qed.

Lemma SFdiv_core_binary_nonneg (m1 m2 : positive) (e1 e2 : Z) :
  0 <= fst (fst (SFdiv_core_binary prec emax (Z.pos m1) e1 (Z.pos m2) e2)).
Proof.
  unfold SFdiv_core_binary.
  set (s := e1 - e2 - _).
  set (m' := match s with Z.pos _ => Z.shiftl (Z.pos m1) s | 0 => Z.pos m1 | Z.neg _ => 0 end).
  assert (Hm' : 0 <= m').
  { subst m'. destruct s; try lia. apply Z.shiftl_nonneg. lia. }
  pose proof (Z.div_eucl_eq m' (Z.pos m2) ltac:(lia)) as Heq.
  pose proof (Z.mod_pos_bound m' (Z.pos m2) ltac:(lia)) as Hr.
  unfold Z.modulo in Hr.
  destruct (Z.div_eucl m' (Z.pos m2)) as [q r]. simpl. nia.
Qed.

(** The Number of a rational has its sign: it is no NaN. *)
Lemma of_Q_not_nan (q : Q) : is_nan (of_Q q) = false.
Proof.
  unfold of_Q. destruct (Qnum q) as [| n | n]; [reflexivity | |].
  - pose proof (SFdiv_core_binary_nonneg n (Qden q) 0 0) as H.
    destruct (SFdiv_core_binary prec emax (Z.pos n) 0 (Z.pos (Qden q)) 0) as [[mz ez] lz].
    apply (has_sign_not_nan false), binary_round_aux_sign, H.
  - pose proof (SFdiv_core_binary_nonneg n (Qden q) 0 0) as H.
    destruct (SFdiv_core_binary prec emax (Z.pos n) 0 (Z.pos (Qden q)) 0) as [[mz ez] lz].
    apply (has_sign_not_nan true), binary_round_aux_sign, H.
Qed.

Lemma of_Q_nonneg (q : Q) : (0 <= q)%Q -> has_sign false (of_Q q) = true.
Proof.
  intros Hq. unfold of_Q. unfold Qle in Hq. simpl in Hq.
  destruct (Qnum q) as [| n | n]; [reflexivity | | lia].
  pose proof (SFdiv_core_binary_nonneg n (Qden q) 0 0) as H.
  destruct (SFdiv_core_binary prec emax (Z.pos n) 0 (Z.pos (Qden q)) 0) as [[mz ez] lz].
  apply binary_round_aux_sign, H.
Qed.

(** A product is NaN only if a factor is, or if it is zero times
    infinity. *)
Lemma fmul_finite_not_nan (x : f64) (s : bool) (m : positive) (e : Z) :
  is_nan x = false -> is_nan (fmul x (S754_finite s m e)) = false.
Proof.
  intros Hx. destruct x as [sx | sx | | sx mx ex]; try reflexivity; [discriminate |].
  unfold fmul, SFmul.
  apply (has_sign_not_nan (xorb sx s)), binary_round_aux_sign. lia.
Qed.

Lemma binary_normalize_not_nan (n e : Z) (s : bool) :
  is_nan (binary_normalize prec emax n e s) = false.
Proof.
  destruct n as [| p | p]; simpl; [reflexivity | |].
  - apply (has_sign_not_nan false), binary_round_sign.
  - apply (has_sign_not_nan true), binary_round_sign.
Qed.

(** [Math.round] gives NaN for NaN only. *)
Lemma Math_round_not_nan (x : f64) : is_nan x = false -> is_nan (Math_round x) = false.
Proof.
  intros Hx. destruct x as [sx | sx | | sx mx ex]; try reflexivity; [discriminate |].
  unfold Math_round. destruct (0 <=? ex); [reflexivity |].
  apply binary_normalize_not_nan.
Qed.

(** [Math.max(1, y)] is at least 1 unless [y] is NaN. *)
Lemma Math_max_one_ge (y : f64) :
  is_nan y = false -> leb one (Math_max one y) = true.
Proof.
  intros Hy. unfold Math_max. rewrite Hy.
  change one with (S754_finite false 4503599627370496 (-52)).
  cbn [is_nan orb]. unfold ltb, leb, SFltb, SFleb.
  destruct (SFcompare (S754_finite false 4503599627370496 (-52)) y) as [[] |] eqn:Hc;
    try (rewrite Hc; reflexivity);
    destruct (SFcompare y (S754_finite false 4503599627370496 (-52))) as [[] |];
    reflexivity.
Qed.

Lemma leb_nan_l (x : f64) : leb nan x = false.
Proof. reflexivity. Qed.

Lemma leb_nan_r (x : f64) : leb x nan = false.
Proof. destruct x; reflexivity. Qed.

End F64Facts.

(* ===================================================================== *)
(** * Facts about [trim]                                                  *)
(* ===================================================================== *)

Section TrimFacts.

Lemma trim_start_split (s : jsstring) :
  exists w, s = w ++ trim_start s /\ forallb is_ws w = true.
Proof.
  induction s as [| c s IH]; simpl.
  - exists []. split; reflexivity.
  - destruct (is_ws c) eqn:Hc.
    + destruct IH as (w & Hs & Hw). exists (c :: w). split.
      * simpl. now rewrite <- Hs.
      * simpl. now rewrite Hc.
    + exists []. split; reflexivity.
Qed.

Lemma trim_start_head (s : jsstring) (c : char16) (r : jsstring) :
  trim_start s = c :: r -> is_ws c = false.
Proof.
  induction s as [| d s IH]; simpl; [discriminate |].
  destruct (is_ws d) eqn:Hd; [exact IH |].
  intros [= -> _]. exact Hd.
Qed.

Lemma nonws_count_app (a b : jsstring) :
  nonws_count (a ++ b) = (nonws_count a + nonws_count b)%nat.
Proof. unfold nonws_count. now rewrite List.filter_app, length_app. Qed.

Lemma nonws_count_ws (w : jsstring) :
  forallb is_ws w = true -> nonws_count w = 0%nat.
Proof.
  unfold nonws_count. induction w as [| c w IH]; simpl; [reflexivity |].
  intros H. apply andb_prop in H as [Hc Hw]. rewrite Hc. simpl. auto.
Qed.

Lemma nonws_count_rev (s : jsstring) : nonws_count (rev s) = nonws_count s.
Proof.
  induction s as [| c s IH]; [reflexivity |].
  simpl rev. rewrite nonws_count_app, IH.
  change (c :: s) with ([c] ++ s). rewrite nonws_count_app. lia.
Qed.

Lemma nonws_count_trim_start (s : jsstring) :
  nonws_count (trim_start s) = nonws_count s.
Proof.
  destruct (trim_start_split s) as (w & Hs & Hw).
  rewrite Hs at 2. rewrite nonws_count_app, (nonws_count_ws w Hw). reflexivity.
Qed.

(** Trimming removes white space only. *)
Lemma nonws_count_trim (s : jsstring) : nonws_count (trim s) = nonws_count s.
Proof.
  unfold trim, trim_end.
  now rewrite nonws_count_rev, nonws_count_trim_start, nonws_count_rev,
    nonws_count_trim_start.
Qed.

(** A trimmed string of two characters or more starts and ends with a
    character that is not white space. *)
Lemma trim_ends (s : jsstring) :
  (2 <= length (trim s))%nat ->
  exists a m b, trim s = a :: m ++ [b] /\ is_ws a = false /\ is_ws b = false.
Proof.
  unfold trim, trim_end. set (t := trim_start s).
  destruct (trim_start_split (rev t)) as (w & Hs & Hw).
  destruct (trim_start (rev t)) as [| b v] eqn:Hv; simpl; [lia |].
  pose proof (trim_start_head _ _ _ Hv) as Hb.
  intros Hlen. destruct (rev v) as [| a m] eqn:Hm.
  - simpl in Hlen. lia.
  - exists a, m, b. repeat split; auto.
    assert (Ht : t = a :: m ++ [b] ++ rev w).
    { rewrite <- (rev_involutive t), Hs, rev_app_distr. simpl. rewrite Hm.
      simpl. now rewrite <- app_assoc. }
    apply (trim_start_head s a (m ++ [b] ++ rev w)). exact Ht.
Qed.

Lemma trim_length_nonws (s : jsstring) :
  (2 <= length (trim s))%nat -> (2 <= nonws_count s)%nat.
Proof.
  intros H. destruct (trim_ends s H) as (a & m & b & Ht & Ha & Hb).
  rewrite <- nonws_count_trim, Ht.
  change (a :: m ++ [b]) with ([a] ++ m ++ [b]).
  rewrite !nonws_count_app. unfold nonws_count at 1 3. simpl.
  rewrite Ha, Hb. simpl. lia.
Qed.

End TrimFacts.

(* ===================================================================== *)
(** * Facts about the sort                                                *)
(* ===================================================================== *)

Section SortFacts.
Context {A : Type} (compareFn : A -> A -> F64.f64).

Lemma insert_perm (x : A) (l : list A) :
  Permutation (x :: l) (App.insert compareFn x l).
Proof.
  induction l as [| y l IH]; simpl; [reflexivity |].
  destruct (App.SortCompare compareFn x y); try reflexivity.
  rewrite perm_swap. now constructor.
Qed.

Lemma stable_sort_perm (l : list A) : Permutation l (App.stable_sort compareFn l).
Proof.
  induction l as [| x l IH]; simpl; [reflexivity |].
  rewrite <- insert_perm. now constructor.
Qed.

(** [sort] always has a result: the stable sorted arrangement is one. *)
Lemma Array_sort_exists (l : list A) :
  App.Array_sort compareFn l (App.stable_sort compareFn l).
Proof. split; [apply stable_sort_perm | reflexivity]. Qed.

(** In a sorted list of two elements or more, every element is related to
    a neighbour. *)
Lemma Sorted_neighbour (R : A -> A -> Prop) (l : list A) (x : A) :
  Sorted R l -> In x l -> (2 <= length l)%nat -> exists y, R x y \/ R y x.
Proof.
  induction 1 as [| a l Hs IH Hhd]; intros Hin Hlen; [destruct Hin |].
  destruct Hin as [<- | Hin].
  - destruct Hhd as [| b l Hab]; [simpl in Hlen; lia |].
    exists b. now left.
  - destruct l as [| b [| c l]]; [destruct Hin | |].
    + destruct Hin as [<- | []]. inversion Hhd; subst. exists a. now right.
    + apply IH; [exact Hin | simpl; lia].
Qed.

End SortFacts.

(* ===================================================================== *)
(** * Facts about the order of binary64 values                            *)
(* ===================================================================== *)

Section F64Order.
Import F64.

Lemma digits2_pos_bounds (m : positive) :
  2 ^ (Z.pos (digits2_pos m) - 1) <= Z.pos m < 2 ^ Z.pos (digits2_pos m).
Proof.
  induction m as [m IH | m IH |]; simpl digits2_pos.
  - rewrite Pos2Z.inj_succ.
    replace (Z.succ (Z.pos (digits2_pos m)) - 1) with (Z.succ (Z.pos (digits2_pos m) - 1)) by lia.
    rewrite !Z.pow_succ_r by lia. lia.
  - rewrite Pos2Z.inj_succ.
    replace (Z.succ (Z.pos (digits2_pos m)) - 1) with (Z.succ (Z.pos (digits2_pos m) - 1)) by lia.
    rewrite !Z.pow_succ_r by lia. lia.
  - simpl. lia.
Qed.

Lemma bounded_facts (m : positive) (e : Z) :
  bounded prec emax m e = true ->
  -1074 <= e /\ Z.pos m < 2 ^ 53 /\ (-1074 < e -> 2 ^ 52 <= Z.pos m).
Proof.
  unfold bounded, canonical_mantissa, fexp, SpecFloat.emin, prec, emax.
  rewrite andb_true_iff, Z.eqb_eq, Z.leb_le. intros [Hc _].
  pose proof (digits2_pos_bounds m) as [Hlo Hhi].
  set (d := Z.pos (digits2_pos m)) in *.
  assert (Hd : 0 < d) by (subst d; lia).
  split; [lia |]. split.
  - assert (d <= 53) by lia.
    eapply Z.lt_le_trans; [exact Hhi |]. apply Z.pow_le_mono_r; lia.
  - intros He. assert (d = 53) by lia.
    replace 52 with (d - 1) by lia. exact Hlo.
Qed.

Lemma shl_align_value (m : positive) (e e' : Z) :
  e' <= e -> Z.pos (fst (shl_align m e e')) = Z.pos m * 2 ^ (e - e').
Proof.
  intros Hle. unfold shl_align.
  destruct (e' - e) as [| p | p] eqn:Hd; simpl.
  - replace (e - e') with 0 by lia. simpl. lia.
  - lia.
  - replace (e - e') with (Z.pos p) by lia.
    clear. induction p as [| p IH] using Pos.peano_ind.
    + simpl. lia.
    + rewrite Pos.iter_succ, Pos2Z.inj_succ, Z.pow_succ_r by lia.
      rewrite Pos2Z.inj_xO, IH. lia.
Qed.

Lemma shr_1_div2 (r : shr_record) : 0 <= shr_m r -> shr_m (shr_1 r) = shr_m r / 2.
Proof.
  destruct r as [m r s]. destruct m as [| [p | p |] | p]; simpl; intros H;
    try lia; try reflexivity.
  - apply Z.div_unique with (r := 1); lia.
  - apply Z.div_unique with (r := 0); lia.
Qed.

Lemma iter_shr_1_div (p : positive) (r : shr_record) :
  0 <= shr_m r -> shr_m (SpecFloat.iter_pos shr_1 p r) = shr_m r / 2 ^ Z.pos p.
Proof.
  revert r. induction p as [p IH | p IH |]; intros r Hr; simpl SpecFloat.iter_pos.
  - assert (H1 : 0 <= shr_m (shr_1 r)) by (rewrite shr_1_div2 by lia; apply Z.div_pos; lia).
    assert (H2 : 0 <= shr_m (SpecFloat.iter_pos shr_1 p (shr_1 r))).
    { rewrite IH by lia. apply Z.div_pos; lia. }
    assert (E : 2 ^ Z.pos p~1 = 2 * (2 ^ Z.pos p * 2 ^ Z.pos p)).
    { rewrite <- Z.pow_add_r, <- Z.pow_succ_r by lia. f_equal. lia. }
    rewrite IH, IH, shr_1_div2 by lia.
    rewrite !Z.div_div by lia. now rewrite E.
  - assert (H2 : 0 <= shr_m (SpecFloat.iter_pos shr_1 p r)).
    { rewrite IH by lia. apply Z.div_pos; lia. }
    assert (E : 2 ^ Z.pos p~0 = 2 ^ Z.pos p * 2 ^ Z.pos p).
    { rewrite <- Z.pow_add_r by lia. f_equal. lia. }
    rewrite IH, IH by lia. rewrite Z.div_div by lia. now rewrite E.
  - rewrite shr_1_div2 by lia. reflexivity.
Qed.

(** Shifting a magnitude that does not underflow leaves a magnitude. *)
Lemma shr_fexp_pos (m e : Z) (l : location) :
  1 <= m -> -1074 <= e ->
  1 <= shr_m (fst (shr_fexp prec emax m e l)) /\ -1074 <= snd (shr_fexp prec emax m e l).
Proof.
  intros Hm He. unfold shr_fexp, shr.
  assert (H0 : shr_m (shr_record_of_loc m l) = m) by (destruct l as [| []]; reflexivity).
  destruct m as [| p | p]; try lia. cbn [Zdigits2].
  pose proof (digits2_pos_bounds p) as [Hlo Hhi].
  set (d := Z.pos (digits2_pos p)) in *.
  assert (Hd : 0 < d) by (subst d; lia).
  unfold fexp, SpecFloat.emin, prec, emax.
  destruct (Z.max (d + e - 53) (3 - 1024 - 53) - e) as [| n | n] eqn:Hn; simpl.
  - rewrite H0. lia.
  - rewrite iter_shr_1_div by (rewrite H0; lia). rewrite H0.
    assert (Hnd : Z.pos n <= d - 1) by lia.
    split; [| lia].
    apply Z.div_le_lower_bound; [lia |].
    rewrite Z.mul_1_r. eapply Z.le_trans; [| exact Hlo].
    apply Z.pow_le_mono_r; lia.
  - rewrite H0. lia.
Qed.

Lemma round_nearest_even_ge (m : Z) (l : location) : m <= round_nearest_even m l.
Proof. destruct l as [| []]; simpl; try lia. destruct (Z.even m); lia. Qed.

(** Rounding a magnitude that does not underflow gives a finite value that
    is not zero, or an infinity, of the sign it was given. *)
Lemma binary_round_aux_pos (s : bool) (m e : Z) (l : location) :
  1 <= m -> -1074 <= e ->
  match binary_round_aux prec emax s m e l with
  | S754_finite s' _ _ | S754_infinity s' => s' = s
  | _ => False
  end.
Proof.
  intros Hm He. unfold binary_round_aux.
  pose proof (shr_fexp_pos m e l Hm He) as [H1 He1].
  destruct (shr_fexp prec emax m e l) as [mrs' e']. simpl in H1, He1.
  pose proof (round_nearest_even_ge (shr_m mrs') (loc_of_shr_record mrs')) as Hr.
  assert (Hr1 : 1 <= round_nearest_even (shr_m mrs') (loc_of_shr_record mrs')) by lia.
  pose proof (shr_fexp_pos _ e' loc_Exact Hr1 He1) as [H2 _].
  destruct (shr_fexp prec emax
              (round_nearest_even (shr_m mrs') (loc_of_shr_record mrs')) e' loc_Exact)
    as [mrs'' e'']. simpl in H2.
  destruct (shr_m mrs'') as [| p | p]; try lia.
  destruct (e'' <=? emax - prec); reflexivity.
Qed.

Lemma binary_round_pos (s : bool) (m : positive) (e : Z) :
  -1074 <= e ->
  match binary_round prec emax s m e with
  | S754_finite s' _ _ | S754_infinity s' => s' = s
  | _ => False
  end.
Proof.
  intros He. unfold binary_round.
  destruct (shl_align m e (fexp prec emax (Z.pos (digits2_pos m) + e))) as [mz ez] eqn:Hs.
  apply binary_round_aux_pos; [lia |].
  unfold shl_align in Hs.
  destruct (fexp prec emax (Z.pos (digits2_pos m) + e) - e) eqn:Hd;
    injection Hs as <- <-; try lia.
  unfold fexp, SpecFloat.emin, prec, emax. lia.
Qed.

(** The sign of a difference of two finite values is their comparison. *)
Lemma SFcompare_fsub (x y : f64) :
  isFinite x = true -> isFinite y = true ->
  SFcompare (fsub x y) zero = SFcompare x y.
Proof.
  destruct x as [sx | sx | | sx mx ex]; try discriminate;
    destruct y as [sy | sy | | sy my ey]; try discriminate; simpl isFinite.
  - intros _ _. destruct sx, sy; reflexivity.
  - intros _ _. destruct sy; reflexivity.
  - intros _ _. destruct sx; reflexivity.
  - intros Hx Hy.
    apply bounded_facts in Hx as (Hex & Hmx & Hnx).
    apply bounded_facts in Hy as (Hey & Hmy & Hny).
    unfold fsub, SFsub.
    pose proof (shl_align_value mx ex (Z.min ex ey) ltac:(lia)) as HX.
    pose proof (shl_align_value my ey (Z.min ex ey) ltac:(lia)) as HY.
    set (X := fst (shl_align mx ex (Z.min ex ey))) in *.
    set (Y := fst (shl_align my ey (Z.min ex ey))) in *.
    assert (Hpow : forall k, 1 <= k -> 2 <= 2 ^ k).
    { intros k Hk. change 2 with (2 ^ 1) at 1. apply Z.pow_le_mono_r; lia. }
    assert (Heq : ex = ey -> Z.pos X = Z.pos mx /\ Z.pos Y = Z.pos my).
    { intros ->. rewrite Z.min_id, Z.sub_diag in HX, HY. simpl in HX, HY. lia. }
    assert (Hlt : ex < ey -> Z.pos X < Z.pos Y).
    { intros He. rewrite Z.min_l in HX, HY by lia. rewrite Z.sub_diag in HX.
      simpl in HX. specialize (Hny ltac:(lia)).
      specialize (Hpow (ey - ex) ltac:(lia)). nia. }
    assert (Hgt : ey < ex -> Z.pos Y < Z.pos X).
    { intros He. rewrite Z.min_r in HX, HY by lia. rewrite Z.sub_diag in HY.
      simpl in HY. specialize (Hnx ltac:(lia)).
      specialize (Hpow (ex - ey) ltac:(lia)). nia. }
    clearbody X Y. clear HX HY.
    assert (Hnorm : forall D,
              SFcompare (binary_normalize prec emax D (Z.min ex ey) false) zero
              = Some (D ?= 0)).
    { intros [| p | p]; [reflexivity | |]; simpl.
      - pose proof (binary_round_pos false p (Z.min ex ey) ltac:(lia)) as H.
        destruct (binary_round prec emax false p (Z.min ex ey)); try contradiction;
          subst; reflexivity.
      - pose proof (binary_round_pos true p (Z.min ex ey) ltac:(lia)) as H.
        destruct (binary_round prec emax true p (Z.min ex ey)); try contradiction;
          subst; reflexivity. }
    rewrite Hnorm. cbn [SFcompare]. f_equal.
    assert (Hcont : Pos.compare_cont Eq mx my = (Z.pos mx ?= Z.pos my)) by reflexivity.
    rewrite Hcont.
    destruct sx, sy; cbn [cond_Zopp].
    + destruct (Z.compare_spec ex ey) as [He | He | He].
      * destruct (Heq He) as [-> ->].
        rewrite <- (Z.compare_antisym (Z.pos mx) (Z.pos my)).
        rewrite (Z.compare_sub (Z.pos my) (Z.pos mx)). f_equal.
      * specialize (Hlt He). apply Z.compare_gt_iff. lia.
      * specialize (Hgt He). apply Z.compare_lt_iff. lia.
    + apply Z.compare_lt_iff. lia.
    + apply Z.compare_gt_iff. lia.
    + destruct (Z.compare_spec ex ey) as [He | He | He].
      * destruct (Heq He) as [-> ->]. symmetry. apply Z.compare_sub.
      * specialize (Hlt He). apply Z.compare_lt_iff. lia.
      * specialize (Hgt He). apply Z.compare_gt_iff. lia.
Qed.


Lemma SFcompare_rank (x y : f64) :
  is_nan x = false -> is_nan y = false ->
  SFcompare x y = Some (lex3 (rank x) (rank y)).
Proof.
  destruct x as [sx | [] | | [] mx ex]; try discriminate;
    destruct y as [sy | [] | | [] my ey]; try discriminate; intros _ _;
    try reflexivity; unfold lex3; cbn [SFcompare rank fst snd].
  change (-1 ?= -1) with Eq. cbn iota.
  rewrite Z.compare_opp, (Z.compare_antisym ex ey).
  destruct (ex ?= ey); reflexivity.
Qed.

Lemma lex3_spec (a b : Z * Z * Z) :
  match lex3 a b with
  | Lt => a.1.1 < b.1.1 \/ (a.1.1 = b.1.1 /\ (a.1.2 < b.1.2 \/ (a.1.2 = b.1.2 /\ a.2 < b.2)))
  | Eq => a.1.1 = b.1.1 /\ a.1.2 = b.1.2 /\ a.2 = b.2
  | Gt => b.1.1 < a.1.1 \/ (a.1.1 = b.1.1 /\ (b.1.2 < a.1.2 \/ (a.1.2 = b.1.2 /\ b.2 < a.2)))
  end.
Proof.
  unfold lex3.
  destruct (Z.compare_spec a.1.1 b.1.1); [| lia | lia].
  destruct (Z.compare_spec a.1.2 b.1.2); [| lia | lia].
  destruct (Z.compare_spec a.2 b.2); lia.
Qed.

Lemma lex3_trans (a b c : Z * Z * Z) (k : comparison) :
  lex3 a b = k -> lex3 b c = k -> lex3 a c = k.
Proof.
  pose proof (lex3_spec a b) as Hab. pose proof (lex3_spec b c) as Hbc.
  pose proof (lex3_spec a c) as Hac.
  intros H1 H2. rewrite H1 in Hab. rewrite H2 in Hbc.
  destruct k, (lex3 a c); try reflexivity; exfalso; lia.
Qed.

Lemma lex3_le_trans (a b c : Z * Z * Z) :
  lex3 a b <> Gt -> lex3 b c <> Gt -> lex3 a c <> Gt.
Proof.
  pose proof (lex3_spec a b) as Hab. pose proof (lex3_spec b c) as Hbc.
  pose proof (lex3_spec a c) as Hac.
  intros H1 H2 H3. rewrite H3 in Hac.
  destruct (lex3 a b), (lex3 b c); try contradiction; lia.
Qed.

Lemma lex3_antisym (a b : Z * Z * Z) : lex3 b a = CompOpp (lex3 a b).
Proof.
  pose proof (lex3_spec a b) as Hab. pose proof (lex3_spec b a) as Hba.
  destruct (lex3 a b), (lex3 b a); try reflexivity; exfalso; lia.
Qed.

Lemma lex3_refl (a : Z * Z * Z) : lex3 a a = Eq.
Proof.
  pose proof (lex3_spec a a) as H. destruct (lex3 a a); [reflexivity | lia | lia].
Qed.

Lemma isFinite_not_nan (x : f64) : isFinite x = true -> is_nan x = false.
Proof. destruct x; simpl; congruence. Qed.

(** [x <= y] is transitive. *)
Lemma leb_trans (x y z : f64) : leb x y = true -> leb y z = true -> leb x z = true.
Proof.
  unfold leb, SFleb. intros Hxy Hyz.
  assert (Hx : is_nan x = false) by (destruct x; try reflexivity; discriminate Hxy).
  assert (Hy : is_nan y = false) by (destruct y; try reflexivity; discriminate Hyz).
  assert (Hz : is_nan z = false).
  { destruct z; try reflexivity. destruct y; discriminate Hyz. }
  rewrite (SFcompare_rank _ _ Hx Hy) in Hxy. rewrite (SFcompare_rank _ _ Hy Hz) in Hyz.
  rewrite (SFcompare_rank _ _ Hx Hz).
  pose proof (lex3_le_trans (rank x) (rank y) (rank z)) as Ht.
  destruct (lex3 (rank x) (rank y)), (lex3 (rank y) (rank z)); try discriminate;
    destruct (lex3 (rank x) (rank z)); try reflexivity; exfalso; apply Ht; congruence.
Qed.

End F64Order.

(* ===================================================================== *)
(** * Facts about sorting by a key                                        *)
(* ===================================================================== *)

Section KeySort.
Import F64.
Context {A : Type} (key : A -> F64.f64).

(** For finite keys the sign [sort] reads is the comparison of the keys. *)
Lemma SortCompare_key (a b : A) :
  App.key_finite key a -> App.key_finite key b ->
  App.SortCompare (App.by_key key) a b = lex3 (rank (key a)) (rank (key b)).
Proof.
  intros Ha Hb. unfold App.SortCompare, App.by_key, F64.ltb, SFltb.
  pose proof (SFcompare_fsub _ _ Ha Hb) as Hs.
  rewrite (SFcompare_rank _ _ (isFinite_not_nan _ Ha) (isFinite_not_nan _ Hb)) in Hs.
  assert (Hn : F64.is_nan (F64.fsub (key a) (key b)) = false).
  { destruct (F64.fsub (key a) (key b)); try reflexivity. discriminate Hs. }
  assert (Hz : F64.is_nan F64.zero = false) by reflexivity.
  rewrite (SFcompare_rank _ _ Hz Hn), Hs.
  assert (Hv : lex3 (rank (F64.fsub (key a) (key b))) (rank F64.zero)
               = lex3 (rank (key a)) (rank (key b))).
  { rewrite (SFcompare_rank _ _ Hn Hz) in Hs. congruence. }
  rewrite (lex3_antisym (rank (F64.fsub (key a) (key b))) (rank F64.zero)), Hv.
  destruct (lex3 (rank (key a)) (rank (key b))); reflexivity.
Qed.

Lemma le_key (a b : A) :
  App.key_finite key a -> App.key_finite key b ->
  (F64.leb (key a) (key b) = true <-> App.SortCompare (App.by_key key) a b <> Gt).
Proof.
  intros Ha Hb. rewrite (SortCompare_key a b Ha Hb).
  unfold F64.leb, SFleb.
  rewrite (SFcompare_rank _ _ (isFinite_not_nan _ Ha) (isFinite_not_nan _ Hb)).
  destruct (lex3 (rank (key a)) (rank (key b))); split; congruence.
Qed.

Lemma consistent_key (l : list A) : Forall (App.key_finite key) l -> App.consistent (App.by_key key) l.
Proof.
  rewrite List.Forall_forall. intros Hall a b c Ha Hb Hc.
  pose proof (Hall a Ha) as Fa. pose proof (Hall b Hb) as Fb. pose proof (Hall c Hc) as Fc.
  cbv beta in Fa, Fb, Fc.
  rewrite !(SortCompare_key a a), !(SortCompare_key a b), !(SortCompare_key b a),
    !(SortCompare_key b c), !(SortCompare_key a c) by assumption.
  split.
  { pose proof (SFcompare_fsub _ _ Fa Fb) as Hs. unfold App.by_key.
    destruct (F64.fsub (key a) (key b)); try reflexivity.
    rewrite (SFcompare_rank _ _ (isFinite_not_nan _ Fa) (isFinite_not_nan _ Fb)) in Hs.
    discriminate Hs. }
  split; [apply lex3_refl |].
  split; [intros H; rewrite lex3_antisym, H; reflexivity |].
  repeat split; apply lex3_trans.
Qed.

Lemma insert_sorted (x : A) (l : list A) :
  App.key_finite key x -> Forall (App.key_finite key) l -> Sorted (App.key_le key) l -> Sorted (App.key_le key) (App.insert (App.by_key key) x l).
Proof.
  intros Hx Hall Hs. induction Hs as [| y l Hs IH Hhd]; simpl.
  - repeat constructor.
  - inversion Hall as [| ? ? Hy Hall']; subst.
    pose proof (le_key x y Hx Hy) as Hle.
    pose proof (SortCompare_key x y Hx Hy) as Hxy.
    pose proof (SortCompare_key y x Hy Hx) as Hyx.
    rewrite lex3_antisym, <- Hxy in Hyx.
    destruct (App.SortCompare (App.by_key key) x y) eqn:Hc.
    + constructor; [now constructor |]. constructor. apply Hle. discriminate.
    + constructor; [now constructor |]. constructor. apply Hle. discriminate.
    + constructor; [now apply IH |].
      assert (Hyx' : F64.leb (key y) (key x) = true).
      { apply (le_key y x Hy Hx). rewrite Hyx. discriminate. }
      destruct l as [| z l]; simpl.
      * constructor. exact Hyx'.
      * destruct (App.SortCompare (App.by_key key) x z); constructor; try exact Hyx';
          now inversion Hhd.
Qed.

Lemma stable_sort_finite (l : list A) :
  Forall (App.key_finite key) l -> Forall (App.key_finite key) (App.stable_sort (App.by_key key) l).
Proof.
  intros H. rewrite List.Forall_forall in *. intros x Hx.
  apply H. apply (Permutation_in _ (Permutation_sym (stable_sort_perm (App.by_key key) l))), Hx.
Qed.

Lemma stable_sort_sorted (l : list A) :
  Forall (App.key_finite key) l -> Sorted (App.key_le key) (App.stable_sort (App.by_key key) l).
Proof.
  induction 1 as [| x l Hx Hall IH]; simpl; [constructor |].
  apply insert_sorted; [exact Hx | now apply stable_sort_finite | exact IH].
Qed.

(** Insertion passes only elements of a smaller key: among the elements
    that compare equal to [c0] the new one stays in front. *)
Lemma insert_filter (c0 x : A) (l : list A) :
  App.key_finite key c0 -> App.key_finite key x -> Forall (App.key_finite key) l ->
  List.filter (App.ties key c0) (App.insert (App.by_key key) x l)
  = List.filter (App.ties key c0) (x :: l).
Proof.
  intros H0 Hx Hall. induction Hall as [| y l Hy Hall IH]; [reflexivity |].
  simpl App.insert.
  pose proof (SortCompare_key x y Hx Hy) as Hxy.
  destruct (App.SortCompare (App.by_key key) x y) eqn:Hc; try reflexivity.
  simpl in *. rewrite IH.
  unfold App.ties, F64.eqb, SFeqb.
  rewrite !(SFcompare_rank (key c0)) by (apply isFinite_not_nan; assumption).
  pose proof (lex3_spec (rank (key c0)) (rank (key x))) as H1.
  pose proof (lex3_spec (rank (key c0)) (rank (key y))) as H2.
  pose proof (lex3_spec (rank (key x)) (rank (key y))) as H3.
  rewrite <- Hxy in H3.
  destruct (lex3 (rank (key c0)) (rank (key x))),
    (lex3 (rank (key c0)) (rank (key y))); try reflexivity.
  exfalso. lia.
Qed.

Lemma stable_sort_stable (c0 : A) (l : list A) :
  App.key_finite key c0 -> Forall (App.key_finite key) l ->
  List.filter (App.ties key c0) (App.stable_sort (App.by_key key) l)
  = List.filter (App.ties key c0) l.
Proof.
  intros H0. induction 1 as [| x l Hx Hall IH]; [reflexivity |].
  simpl App.stable_sort.
  rewrite insert_filter by (auto using stable_sort_finite). simpl. now rewrite IH.
Qed.

(** A sorted list is its own stable sorted arrangement. *)
Lemma stable_sort_fixed (l : list A) :
  Forall (App.key_finite key) l -> Sorted (App.key_le key) l -> App.stable_sort (App.by_key key) l = l.
Proof.
  intros Hall Hs. induction Hs as [| x l Hs IH Hhd]; [reflexivity |].
  inversion Hall as [| ? ? Hx Hall']; subst.
  simpl. rewrite IH by exact Hall'.
  destruct Hhd as [| y l Hxy]; [reflexivity |].
  inversion Hall' as [| ? ? Hy _]; subst.
  simpl. apply (le_key x y Hx Hy) in Hxy.
  destruct (App.SortCompare (App.by_key key) x y); [reflexivity | reflexivity | contradiction].
Qed.

Lemma sorted_head_least (x : A) (l : list A) :
  Sorted (App.key_le key) (x :: l) -> forall c, In c (x :: l) -> F64.isFinite (key x) = true ->
  F64.leb (key x) (key c) = true.
Proof.
  intros Hs c Hin Hx.
  assert (Htrans : Transitive (fun a b : A => F64.leb (key a) (key b) = true)).
  { intros a b d. apply leb_trans. }
  apply Sorted_StronglySorted in Hs; [| exact Htrans].
  inversion Hs as [| ? ? _ Hall]; subst.
  destruct Hin as [<- | Hin].
  - apply (le_key x x Hx Hx). rewrite (SortCompare_key x x Hx Hx), lex3_refl. discriminate.
  - rewrite List.Forall_forall in Hall. now apply Hall.
Qed.

End KeySort.

(* ===================================================================== *)
(** * The estimator                                                       *)
(* ===================================================================== *)

Section Estimator.

(** C1, as amended. For every price range and every urgency 1, 2, 3 the
    estimator returns ((min + max) / 2) * p(u) and
    max(1, round(hours * t(u))) with the stated multipliers, where the
    multipliers and every operation are rounded to binary64; the hours of
    the estimate are at least 1. *)
Theorem C1_estimate_formula (r : App.PriceRange) (u : Z) :
  u = 1 \/ u = 2 \/ u = 3 ->
  Repair.priceMid (Repair.estimate (Repair.BaseRange r) (Fin (inject_Z u)))
    = Spec.mid_price_b64 r u
  /\ Repair.time (Repair.estimate (Repair.BaseRange r) (Fin (inject_Z u)))
     = Spec.eta_hours_b64 r u
  /\ F64.leb (F64.of_Z 1)
       (Repair.time (Repair.estimate (Repair.BaseRange r) (Fin (inject_Z u))))
     = true.
Proof.
  intros Hu.
  assert (Hge : forall s m e,
             F64.leb (F64.of_Z 1)
               (F64.Math_max (F64.of_Z 1)
                  (F64.Math_round
                     (F64.fmul (F64.of_Q (App.hours r)) (S754_finite s m e)))) = true).
  { intros s m e. apply Math_max_one_ge, Math_round_not_nan, fmul_finite_not_nan,
      of_Q_not_nan. }
  unfold Repair.estimate, Spec.mid_price_b64, Spec.eta_hours_b64, Repair.base_field.
  cbn [Repair.priceMid Repair.time].
  destruct Hu as [-> | [-> | ->]].
  - change (num_eqb (Fin (inject_Z 1)) (Fin 3)) with false.
    change (num_eqb (Fin (inject_Z 1)) (Fin 2)) with false.
    cbn iota.
    split; [reflexivity |]. split; [reflexivity |].
    change (F64.of_Q (12 # 10)) with (S754_finite false 5404319552844595 (-52)).
    apply Hge.
  - change (num_eqb (Fin (inject_Z 2)) (Fin 3)) with false.
    change (num_eqb (Fin (inject_Z 2)) (Fin 2)) with true.
    cbn iota.
    split; [reflexivity |]. split; [reflexivity |].
    change (F64.of_Z 1) with (S754_finite false 4503599627370496 (-52)) at 3.
    apply Hge.
  - change (num_eqb (Fin (inject_Z 3)) (Fin 3)) with true.
    cbn iota.
    split; [reflexivity |]. split; [reflexivity |].
    change (F64.of_Q (8 # 10)) with (S754_finite false 7205759403792794 (-53)).
    apply Hge.
Qed.

Lemma C1_estimate_formula_witness :
  (3 = 1 \/ 3 = 2 \/ 3 = 3)
  /\ Repair.time
       (Repair.estimate (Repair.BaseRange Sample2.range_hours_below_3125) (Fin 3))
     = Spec.eta_hours_b64 Sample2.range_hours_below_3125 3
  /\ Spec.eta_hours_b64 Sample2.range_hours_below_3125 3 = F64.of_Z 3.
Proof.
  assert (Hu : 3 = 1 \/ 3 = 2 \/ 3 = 3) by (right; right; reflexivity).
  destruct (C1_estimate_formula Sample2.range_hours_below_3125 3 Hu) as (_ & Ht & _).
  split; [exact Hu |]. split; [exact Ht |]. vm_compute. reflexivity.
Defined.

(** The estimate is not the exact value of the formula.  For hours
    3.1249999999999996 (a binary64 value) at urgency Urgent, the product
    hours * 0.8 rounds to 2.5, so the estimator returns 3 hours where the
    exact max(1, round(hours * 0.8)) is 2.  For the prices 1e308 at urgency
    Standard the sum overflows, so the estimator returns +Infinity where
    the exact price is 1e308. *)
Lemma C1_counterexample :
  F64.to_Q (F64.of_Q (App.hours Sample2.range_hours_below_3125))
    = Some (App.hours Sample2.range_hours_below_3125)
  /\ Repair.time
       (Repair.estimate (Repair.BaseRange Sample2.range_hours_below_3125) (Fin 3))
     = F64.of_Z 3
  /\ Spec.eta_hours Sample2.range_hours_below_3125 3 = 2
  /\ Repair.priceMid (Repair.estimate (Repair.BaseRange Sample2.range_huge) (Fin 1))
     = S754_infinity false
  /\ (Spec.mid_price Sample2.range_huge 1 == inject_Z (10 ^ 308))%Q.
Proof. repeat split; vm_compute; reflexivity. Qed.

(** The estimate reads [NaN] off a base that is no price range. *)
Lemma estimate_other (urgency : num) :
  Repair.estimate Repair.BaseOther urgency
  = {| Repair.priceMid := F64.nan; Repair.time := F64.nan |}.
Proof.
  unfold Repair.estimate.
  destruct (num_eqb urgency (Fin 3)); [reflexivity |].
  destruct (num_eqb urgency (Fin 2)); reflexivity.
Qed.

Lemma FALLBACK_PRICES_no_proto : App.FALLBACK_PRICES !! js "__proto__" = None.
Proof. vm_compute. reflexivity. Qed.

Lemma ordinary_code_get (m : gmap jsstring App.PriceRange) (k : jsstring) :
  Repair.ordinary_code k = true ->
  Repair.priceMap_get m k
  = match m !! k with Some r => Repair.PRange r | None => Repair.PUndefined end.
Proof.
  unfold Repair.ordinary_code. rewrite negb_true_iff, bool_decide_eq_false.
  rewrite !not_elem_of_cons. intros (Hp & Hmin & Hmax & Hh & Hn).
  unfold Repair.priceMap_get, Repair.Object_prototype_get.
  rewrite !bool_decide_eq_false_2 by assumption.
  destruct (m !! k); [reflexivity |].
  destruct (m !! js "__proto__"); reflexivity.
Qed.

(** C2. For an issue code that is no name a plain object inherits, the
    base is the server entry if there is one, else the fallback entry, else
    the default: screen gives 9500 and 2 hours, an unknown code 10500 and
    1 hour.  For the issue code [constructor] and no server price, the base
    is the inherited [Object], which is no price range: the estimate is
    NaN and NaN where the claim wants 10500 and 1 hour. *)
Theorem C2_three_tier_base (priceMap : gmap jsstring App.PriceRange) (issueCode : jsstring) :
  Repair.ordinary_code issueCode = true ->
  Repair.currentBase priceMap issueCode
    = Repair.BaseRange
        (default (default App.default_price (App.FALLBACK_PRICES !! issueCode))
                 (priceMap !! issueCode))
  /\ Repair.estimate (Repair.currentBase ∅ (js "screen")) (Fin 1)
     = {| Repair.priceMid := F64.of_Z 9500; Repair.time := F64.of_Z 2 |}
  /\ Repair.estimate (Repair.currentBase ∅ (js "antenna")) (Fin 1)
     = {| Repair.priceMid := F64.of_Z 10500; Repair.time := F64.of_Z 1 |}
  /\ Repair.ordinary_code (js "constructor") = false
  /\ Repair.currentBase ∅ (js "constructor") = Repair.BaseOther
  /\ Repair.estimate (Repair.currentBase ∅ (js "constructor")) (Fin 1)
     = {| Repair.priceMid := F64.nan; Repair.time := F64.nan |}.
Proof.
  intros Hk. split; [| repeat split; vm_compute; reflexivity].
  unfold Repair.currentBase. rewrite !(ordinary_code_get _ _ Hk).
  destruct (priceMap !! issueCode) as [r |]; [reflexivity |].
  destruct (App.FALLBACK_PRICES !! issueCode) as [r |]; reflexivity.
Qed.

Lemma C2_three_tier_base_witness :
  Repair.ordinary_code (js "water") = true
  /\ Repair.currentBase {[ js "water" := Sample.server_price ]} (js "water")
     = Repair.BaseRange Sample.server_price
  /\ Repair.currentBase ∅ (js "constructor") = Repair.BaseOther.
Proof.
  assert (Hk : Repair.ordinary_code (js "water") = true) by (vm_compute; reflexivity).
  destruct (C2_three_tier_base {[ js "water" := Sample.server_price ]} (js "water") Hk)
    as (Hb & _ & _ & _ & Hc & _).
  split; [exact Hk |]. split; [| exact Hc].
  rewrite Hb. vm_compute. reflexivity.
Defined.

End Estimator.

(* ===================================================================== *)
(** * The distance                                                        *)
(* ===================================================================== *)

Section Distance.

(** The quantity [a] between 12 N 0 E and its antipode is
    1.0000000000000002. *)
Lemma hav_a_antipode (m : F64.MathLib) :
  Sample2.rounds_correctly_at_12_degrees m ->
  Geo.hav_a m (F64.of_Z 12) (F64.of_Z 0) (F64.of_Z (-12)) (F64.of_Z 180)
  = S754_finite false 4503599627370497 (-52).
Proof.
  intros (Hs1 & Hs2 & Hc1 & Hc2 & Hp1 & Hp2).
  unfold Geo.hav_a. cbv zeta.
  change (F64.fdiv
            (F64.fdiv (F64.fmul (F64.fsub (F64.of_Z (-12)) (F64.of_Z 12)) F64.PI)
                      (F64.of_Z 180)) F64.two)
    with Sample2.rad_minus_12.
  change (F64.fdiv
            (F64.fdiv (F64.fmul (F64.fsub (F64.of_Z 180) (F64.of_Z 0)) F64.PI)
                      (F64.of_Z 180)) F64.two)
    with Sample2.rad_90.
  change (F64.fdiv (F64.fmul (F64.of_Z 12) F64.PI) (F64.of_Z 180))
    with Sample2.rad_12.
  change (F64.fdiv (F64.fmul (F64.of_Z (-12)) F64.PI) (F64.of_Z 180))
    with Sample2.rad_minus_12.
  unfold F64.Math_sin, F64.Math_cos, Sample2.rad_minus_12, Sample2.rad_90,
    Sample2.rad_12.
  fold Sample2.rad_minus_12 Sample2.rad_90 Sample2.rad_12.
  rewrite Hs1, Hs2, Hc1, Hc2.
  unfold F64.sqr, Sample2.sin_minus_12.
  fold Sample2.sin_minus_12.
  change (S754_finite false 4503599627370496 (-52)) with F64.one.
  cbn iota. rewrite Hp1.
  change F64.one with (S754_finite false 4503599627370496 (-52)) at 1.
  cbn iota. rewrite Hp2.
  vm_compute. reflexivity.
Qed.

(** With [a] above 1, [1 - a] is negative, its square root is NaN and so
    is the distance. *)
Lemma haversine_antipode (m : F64.MathLib) :
  Sample2.rounds_correctly_at_12_degrees m ->
  Geo.haversine m (F64.of_Z 12) (F64.of_Z 0) (F64.of_Z (-12)) (F64.of_Z 180)
  = F64.nan.
Proof.
  intros Hm. unfold Geo.haversine. cbv zeta. rewrite (hav_a_antipode m Hm).
  change (F64.Math_sqrt (F64.fsub F64.one (S754_finite false 4503599627370497 (-52))))
    with F64.nan.
  unfold F64.Math_atan2.
  destruct (F64.Math_sqrt (S754_finite false 4503599627370497 (-52))) as [| | | s p e];
    destruct (F64.fmul F64.two (F64.of_Z 6371)); reflexivity.
Qed.

(** C6. Between the in-domain points 12 N 0 E and 12 S 180 E, with the
    sines and cosines correctly rounded, the quantity under the second
    square root is negative and [haversine] returns NaN: the distance is
    not [>= 0] and is equal to no number, itself and the distance in the
    other direction included. *)
Theorem C6_distance_antipode (m : F64.MathLib) :
  Sample2.rounds_correctly_at_12_degrees m ->
  Geo.haversine m (F64.of_Z 12) (F64.of_Z 0) (F64.of_Z (-12)) (F64.of_Z 180)
    = F64.nan
  /\ F64.leb F64.zero
       (Geo.haversine m (F64.of_Z 12) (F64.of_Z 0) (F64.of_Z (-12)) (F64.of_Z 180))
     = false
  /\ forall d,
       F64.eqb
         (Geo.haversine m (F64.of_Z 12) (F64.of_Z 0) (F64.of_Z (-12)) (F64.of_Z 180))
         d = false.
Proof.
  intros Hm. rewrite (haversine_antipode m Hm). repeat split.
Qed.

Lemma C6_distance_antipode_witness :
  Sample2.rounds_correctly_at_12_degrees Sample2.math
  /\ Geo.haversine Sample2.math
       (F64.of_Z 12) (F64.of_Z 0) (F64.of_Z (-12)) (F64.of_Z 180) = F64.nan.
Proof.
  assert (Hm : Sample2.rounds_correctly_at_12_degrees Sample2.math)
    by (repeat split; vm_compute; reflexivity).
  split; [exact Hm |]. apply (C6_distance_antipode Sample2.math Hm).
Defined.

End Distance.

(* ===================================================================== *)
(** * Ranking of the service centres                                      *)
(* ===================================================================== *)

Section Ranking.

Lemma distance_antipode (m : F64.MathLib) (p : UserPos.t) (c : Center.t) :
  Sample2.rounds_correctly_at_12_degrees m ->
  UserPos.lat p = F64.of_Z 12 -> UserPos.lng p = F64.of_Z 0 ->
  Center.lat c = F64.of_Z (-12) -> Center.lng c = F64.of_Z 180 ->
  App.distance_to m p c = F64.nan.
Proof.
  intros Hm Hplat Hplng Hclat Hclng. unfold App.distance_to.
  rewrite Hplat, Hplng, Hclat, Hclng. apply (haversine_antipode m Hm).
Qed.

(** C3. Without a position the ranking is the list itself.  With the
    position 12 N 0 E and a list of two centres or more that holds a
    centre at the antipode, 12 S 180 E, whose distance is NaN, no
    arrangement of the centres is in non-decreasing distance: whatever
    [sort] returns, the ranking is a permutation that is not sorted. *)
Theorem C3_ranking_antipode (m : F64.MathLib) (p : UserPos.t) (c : Center.t)
    (centers result : list Center.t) :
  Sample2.rounds_correctly_at_12_degrees m ->
  UserPos.lat p = F64.of_Z 12 -> UserPos.lng p = F64.of_Z 0 ->
  Center.lat c = F64.of_Z (-12) -> Center.lng c = F64.of_Z 180 ->
  In c centers -> (2 <= length centers)%nat ->
  (forall r, App.centersSorted m centers None r -> r = centers)
  /\ (App.centersSorted m centers (Some p) result ->
      Permutation centers result /\ ~ Sorted (App.by_distance m p) result).
Proof.
  intros Hm Hplat Hplng Hclat Hclng Hin Hlen. split; [intros r Hr; exact Hr |].
  intros [Hperm _]. split; [exact Hperm |]. intros Hsorted.
  assert (Hin' : In c result) by (apply (Permutation_in _ Hperm), Hin).
  assert (Hlen' : (2 <= length result)%nat).
  { rewrite <- (Permutation_length Hperm). exact Hlen. }
  destruct (Sorted_neighbour _ _ _ Hsorted Hin' Hlen') as [y [Hy | Hy]];
    unfold App.by_distance in Hy;
    rewrite (distance_antipode m p c Hm Hplat Hplng Hclat Hclng) in Hy.
  - rewrite leb_nan_l in Hy. discriminate Hy.
  - rewrite leb_nan_r in Hy. discriminate Hy.
Qed.

Lemma C3_ranking_antipode_witness :
  Sample2.rounds_correctly_at_12_degrees Sample2.math
  /\ App.centersSorted Sample2.math [Sample2.center_near; Sample2.center_antipode]
       (Some Sample2.here) [Sample2.center_near; Sample2.center_antipode]
  /\ ~ Sorted (App.by_distance Sample2.math Sample2.here)
         [Sample2.center_near; Sample2.center_antipode].
Proof.
  assert (Hm : Sample2.rounds_correctly_at_12_degrees Sample2.math)
    by (repeat split; vm_compute; reflexivity).
  assert (Hs : App.centersSorted Sample2.math [Sample2.center_near; Sample2.center_antipode]
                 (Some Sample2.here) [Sample2.center_near; Sample2.center_antipode]).
  { split; [reflexivity |]. intros Hc. exfalso.
    destruct (Hc Sample2.center_near Sample2.center_antipode Sample2.center_near)
      as (Hnan & _); simpl; auto.
    vm_compute in Hnan. discriminate Hnan. }
  split; [exact Hm |]. split; [exact Hs |].
  apply (C3_ranking_antipode Sample2.math Sample2.here Sample2.center_antipode
           [Sample2.center_near; Sample2.center_antipode]
           [Sample2.center_near; Sample2.center_antipode] Hm);
    [reflexivity | reflexivity | reflexivity | reflexivity | simpl; auto | simpl; lia
    | exact Hs].
Defined.

End Ranking.

(* ===================================================================== *)
(** * Submission                                                          *)
(* ===================================================================== *)

Section Submission.
Context (h : Host) (fetch : Api.Fetch).

(** When the guard of [submit] lets a draft through, the preconditions of
    the specification hold. *)
Lemma guard_preconditions (s : App.RepairState) :
  App.submit_blocked s = false -> Spec.preconditions s = true.
Proof.
  unfold App.submit_blocked, Spec.preconditions.
  rewrite !orb_false_iff, !negb_false_iff.
  intros (((((Hc & Ha) & Hn) & Hp) & Hb) & Hm).
  rewrite Ha.
  assert (Hname : (2 <=? nonws_count (App.name s))%nat = true).
  { apply Nat.leb_le, trim_length_nonws, Nat.leb_le, Hn. }
  rewrite Hname. unfold App.phoneOk, strip_non_digits in Hp. rewrite Hp.
  destruct (App.selectedCenterId s) as [[| c cs] |]; try discriminate Hc.
  destruct (App.brandId s); try discriminate Hb.
  destruct (App.modelId s); try discriminate Hm.
  reflexivity.
Qed.

(** C4. Unless every precondition holds, [submit] sends nothing and leaves
    the state as it is: so for a draft whose phone has fewer than seven
    digits, whatever its other fields. *)
Theorem C4_submit_noop (s : App.RepairState) :
  Spec.preconditions s = false -> App.submit h fetch s = (s, []).
Proof.
  intros Hpre. unfold App.submit.
  destruct (App.submit_blocked s) eqn:Hb; [reflexivity |].
  apply guard_preconditions in Hb. congruence.
Qed.

Lemma short_phone_preconditions (s : App.RepairState) :
  (length (List.filter is_digit (App.phone s)) < 7)%nat ->
  Spec.preconditions s = false.
Proof.
  intros Hlt. unfold Spec.preconditions.
  apply Nat.leb_gt in Hlt. rewrite Hlt.
  now rewrite andb_false_r.
Qed.

(** A phone of fewer than seven digits blocks the submission whatever the
    other fields are. *)
Lemma submit_short_phone (s : App.RepairState) :
  (length (List.filter is_digit (App.phone s)) < 7)%nat ->
  App.submit h fetch s = (s, []).
Proof.
  intros Hlt. unfold App.submit.
  destruct (App.submit_blocked s) eqn:Hb; [reflexivity |].
  apply guard_preconditions in Hb.
  rewrite (short_phone_preconditions s Hlt) in Hb. discriminate Hb.
Qed.

(** A request leaves only when the preconditions hold. *)
Lemma submit_sends_only_when_ready (s : App.RepairState) :
  snd (App.submit h fetch s) <> [] -> Spec.preconditions s = true.
Proof.
  unfold App.submit. destruct (App.submit_blocked s) eqn:Hb.
  - intros Hne. now contradiction Hne.
  - intros _. now apply guard_preconditions.
Qed.

(** C5. When [submit] runs on a draft and the creation call succeeds, the
    name, the phone, the agreement and the description are reset and the
    centre, brand and model selections stay; when the call fails the state
    is unchanged. *)
Theorem C5_submit_outcome (s : App.RepairState) :
  App.submit_blocked s = false ->
  (forall created,
     Api.createRequest h fetch (App.submit_payload s) = Resolved created ->
     let s' := fst (App.submit h fetch s) in
     App.name s' = [] /\ App.phone s' = [] /\ App.agree s' = false
     /\ App.desc s' = []
     /\ App.selectedCenterId s' = App.selectedCenterId s
     /\ App.brandId s' = App.brandId s /\ App.modelId s' = App.modelId s
     /\ App.brands s' = App.brands s /\ App.models s' = App.models s
     /\ App.issueCode s' = App.issueCode s /\ App.urgency s' = App.urgency s)
  /\ (forall e,
        Api.createRequest h fetch (App.submit_payload s) = Rejected e ->
        fst (App.submit h fetch s) = s).
Proof.
  intros Hrun. unfold App.submit. rewrite Hrun. split.
  - intros created ->.
    destruct created; simpl; try destruct (ToString h _); simpl; repeat split.
  - intros e ->. reflexivity.
Qed.

End Submission.

Lemma C4_submit_noop_witness :
  Spec.preconditions Sample.draft_short_phone = false
  /\ App.submit Sample.host Sample.fetch_ok Sample.draft_short_phone
     = (Sample.draft_short_phone, []).
Proof.
  split; [vm_compute; reflexivity |].
  apply (C4_submit_noop Sample.host Sample.fetch_ok Sample.draft_short_phone).
  vm_compute. reflexivity.
Defined.

Lemma C5_submit_outcome_witness :
  App.submit_blocked Sample.draft = false
  /\ App.name (fst (App.submit Sample.host Sample.fetch_ok Sample.draft)) = []
  /\ App.selectedCenterId (fst (App.submit Sample.host Sample.fetch_ok Sample.draft))
     = Some (js "3")
  /\ fst (App.submit Sample.host Sample.fetch_fail Sample.draft) = Sample.draft.
Proof.
  assert (Hrun : App.submit_blocked Sample.draft = false) by (vm_compute; reflexivity).
  destruct (C5_submit_outcome Sample.host Sample.fetch_ok Sample.draft Hrun)
    as [Hok _].
  destruct (C5_submit_outcome Sample.host Sample.fetch_fail Sample.draft Hrun)
    as [_ Hfail].
  specialize (Hok (VNum (Fin 42)) ltac:(vm_compute; reflexivity)).
  specialize (Hfail (ErrorObj (js "Bad Request")) ltac:(vm_compute; reflexivity)).
  destruct Hok as (Hn & _ & _ & _ & Hc & _).
  split; [exact Hrun |]. split; [exact Hn |]. split; [exact Hc | exact Hfail].
Defined.

(* ===================================================================== *)
(** * The model-prices effect and the list shapes                         *)
(* ===================================================================== *)

Section PriceRows.
Context (h : Host).

Lemma Number_defined (v : value) :
  to_primitive_throws v = false -> Number v = Some (to_number v).
Proof. unfold Number. now intros ->. Qed.

Lemma Number_throws (v : value) : to_primitive_throws v = true -> Number v = None.
Proof. unfold Number. now intros ->. Qed.

Lemma finite_number_spec (v : value) :
  Spec.finite_number v = true <-> exists q, Number v = Some (Fin q).
Proof.
  unfold Spec.finite_number. split.
  - destruct (Number v) as [[| | | q] |]; try discriminate. intros _. now exists q.
  - intros [q ->]. reflexivity.
Qed.

(** A turn of the loop throws exactly when a coercion of its row does. *)
Lemma row_step_throws (r : value) :
  App.row_step h r = App.Throw <-> Spec.coercion_throws r = true.
Proof.
  unfold App.row_step, Spec.coercion_throws, Spec.finite_number, App.property_key,
    ToString, Number.
  destruct (truthy (get (get r "issue") "code")); simpl; [| split; discriminate].
  destruct (to_primitive_throws (get r "price_min")); simpl; [tauto |].
  destruct (to_primitive_throws (get r "price_max")); simpl; [tauto |].
  destruct (to_primitive_throws (get r "hours")); simpl; [tauto |].
  destruct (to_number (get r "price_min")); simpl; try (split; discriminate);
    destruct (to_number (get r "price_max")); simpl; try (split; discriminate).
  destruct (to_primitive_throws (get (get r "issue") "code")); simpl;
    [tauto | split; discriminate].
Qed.

Lemma row_step_dropped (r : value) :
  Spec.coercion_throws r = false -> Spec.row_kept r = false ->
  App.row_step h r = App.Skip.
Proof.
  unfold App.row_step, Spec.coercion_throws, Spec.row_kept, Spec.finite_number,
    App.property_key, ToString, Number.
  destruct (truthy (get (get r "issue") "code")); simpl; [| reflexivity].
  destruct (to_primitive_throws (get r "price_min")); simpl; [discriminate |].
  destruct (to_primitive_throws (get r "price_max")); simpl; [discriminate |].
  destruct (to_primitive_throws (get r "hours")); simpl; [discriminate |].
  destruct (to_number (get r "price_min")); simpl; try reflexivity;
    destruct (to_number (get r "price_max")); simpl; try reflexivity.
  discriminate.
Qed.

Lemma row_step_kept (r : value) :
  Spec.coercion_throws r = false -> Spec.row_kept r = true ->
  exists mn mx hours,
    Number (get r "price_min") = Some (Fin mn)
    /\ Number (get r "price_max") = Some (Fin mx)
    /\ Number (get r "hours") = Some hours
    /\ App.row_step h r
       = App.Assign (to_string h (get (get r "issue") "code"))
           {| App.min := mn; App.max := mx;
              App.hours := match hours with Fin x => x | _ => 1%Q end |}.
Proof.
  unfold App.row_step, Spec.coercion_throws, Spec.row_kept, Spec.finite_number,
    App.property_key, ToString, Number.
  destruct (truthy (get (get r "issue") "code")); simpl; [| discriminate].
  destruct (to_primitive_throws (get r "price_min")); simpl; [discriminate |].
  destruct (to_primitive_throws (get r "price_max")); simpl; [discriminate |].
  destruct (to_primitive_throws (get r "hours")); simpl; [discriminate |].
  destruct (to_number (get r "price_min")) as [| | | mn]; simpl; try discriminate.
  destruct (to_number (get r "price_max")) as [| | | mx]; simpl; try discriminate.
  destruct (to_primitive_throws (get (get r "issue") "code")); simpl; [discriminate |].
  intros _ _. exists mn, mx, (to_number (get r "hours")). repeat split.
Qed.

Lemma price_loop_app (a b : list value) (m : gmap jsstring App.PriceRange) :
  App.price_loop h (a ++ b) m
  = match App.price_loop h a m with
    | Some m' => App.price_loop h b m'
    | None => None
    end.
Proof.
  revert m. induction a as [| r a IH]; intros m; simpl; [reflexivity |].
  destruct (App.price_row h m r); [apply IH | reflexivity].
Qed.

(** One throwing row makes the whole loop throw. *)
Lemma price_loop_throws (rows : list value) (m : gmap jsstring App.PriceRange)
    (r : value) :
  In r rows -> Spec.coercion_throws r = true -> App.price_loop h rows m = None.
Proof.
  intros Hin Ht. revert m. induction rows as [| r' rows IH]; intros m; [destruct Hin |].
  simpl. destruct Hin as [-> | Hin].
  - unfold App.price_row. apply row_step_throws in Ht. now rewrite Ht.
  - destruct (App.price_row h m r'); [now apply IH | reflexivity].
Qed.

(** Without a throwing row the loop ends, and the dropped rows make no
    difference. *)
Lemma price_loop_kept (rows : list value) (m : gmap jsstring App.PriceRange) :
  Forall (fun r => Spec.coercion_throws r = false) rows ->
  App.price_loop h rows m = App.price_loop h (List.filter Spec.row_kept rows) m.
Proof.
  intros Hall. revert m.
  induction Hall as [| r rows Hr Hall IH]; intros m; [reflexivity |].
  simpl. destruct (Spec.row_kept r) eqn:Hk; simpl.
  - destruct (App.price_row h m r); [apply IH | reflexivity].
  - unfold App.price_row. rewrite (row_step_dropped r Hr Hk). apply IH.
Qed.

(** C7, as amended. Each field of a row is coerced with [Number], a string
    included.  As long as no coercion throws: a row without an issue code,
    or whose minimum or maximum price is not finite, is dropped and the
    other rows are still read; a row whose hours are not finite is kept,
    with 1 hour; a kept row is assigned under the string of its issue code.
    One row with a coercion that throws leaves the price map empty. *)
Theorem C7_price_rows (rows : list value) :
  (Forall (fun r => Spec.coercion_throws r = false) rows ->
   App.build_price_map h rows
   = App.build_price_map h (List.filter Spec.row_kept rows))
  /\ (forall m r,
        Spec.coercion_throws r = false -> Spec.row_kept r = false ->
        App.price_row h m r = Some m)
  /\ (forall m r,
        Spec.coercion_throws r = false -> Spec.row_kept r = true ->
        exists mn mx hours,
          Number (get r "price_min") = Some (Fin mn)
          /\ Number (get r "price_max") = Some (Fin mx)
          /\ Number (get r "hours") = Some hours
          /\ App.price_row h m r
             = Some (<[ to_string h (get (get r "issue") "code") :=
                          {| App.min := mn; App.max := mx;
                             App.hours := match hours with
                                          | Fin x => x
                                          | _ => 1%Q
                                          end |} ]> m))
  /\ (forall r, In r rows -> Spec.coercion_throws r = true ->
        App.build_price_map h rows = ∅)
  /\ (forall s, Number (VStr s) = Some (StringToNumber s)).
Proof.
  split; [| split; [| split; [| split]]].
  - intros Hall. unfold App.build_price_map. now rewrite price_loop_kept.
  - intros m r Ht Hk. unfold App.price_row. now rewrite (row_step_dropped r Ht Hk).
  - intros m r Ht Hk.
    destruct (row_step_kept r Ht Hk) as (mn & mx & hours & Hmin & Hmax & Hh & Hstep).
    exists mn, mx, hours. unfold App.price_row. rewrite Hstep. repeat split; assumption.
  - intros r Hin Ht. unfold App.build_price_map.
    now rewrite (price_loop_throws rows ∅ r Hin Ht).
  - reflexivity.
Qed.

(** C8, as amended. The brands, models, issues and centres effects read a
    bare array and an envelope with the array under [results] as the same
    list.  The model-prices effect reads a bare array; an envelope leaves
    the price map empty. *)
Theorem C8_list_shapes (l : list value) (props : list (jsstring * value)) :
  Spec.envelope_of props l ->
  (App.brands_arr (VArr l) = VArr l /\ App.brands_arr (VObj props) = VArr l)
  /\ (App.models_arr (VArr l) = VArr l /\ App.models_arr (VObj props) = VArr l)
  /\ (App.issues_arr (VArr l) = VArr l /\ App.issues_arr (VObj props) = VArr l)
  /\ (App.centers_arr (VArr l) = VArr l /\ App.centers_arr (VObj props) = VArr l)
  /\ (App.prices_then h (VArr l) = App.build_price_map h l
      /\ App.prices_then h (VObj props) = ∅).
Proof.
  unfold Spec.envelope_of. intros He.
  unfold App.brands_arr, App.models_arr, App.issues_arr, App.centers_arr, get.
  simpl. rewrite He. simpl. repeat split.
Qed.

End PriceRows.

(** A row whose hours do not coerce to a finite number is not discarded:
    it contributes its entry, with 1 hour. *)
Lemma C7_counterexample :
  Number (get Sample.row_bad_hours "hours") = Some NaN
  /\ App.prices_effect Sample.host (Some (Fin 5))
       (Resolved (VArr [Sample.row_bad_hours])) !! js "screen"
     = Some {| App.min := 100; App.max := 200; App.hours := 1 |}.
Proof. split; vm_compute; reflexivity. Qed.

Lemma C7_price_rows_witness :
  Spec.coercion_throws Sample.row_bad_price = false
  /\ Spec.row_kept Sample.row_bad_price = false
  /\ App.price_row Sample.host ∅ Sample.row_bad_price = Some ∅
  /\ Spec.coercion_throws Sample.row_bad_hours = false
  /\ Spec.row_kept Sample.row_bad_hours = true
  /\ (exists mn mx,
        App.price_row Sample.host ∅ Sample.row_bad_hours
        = Some (<[ js "screen" := {| App.min := mn; App.max := mx; App.hours := 1 |} ]> ∅))
  /\ Spec.coercion_throws Sample2.row_throwing = true
  /\ App.build_price_map Sample.host [Sample2.good_price_row; Sample2.row_throwing] = ∅.
Proof.
  destruct (C7_price_rows Sample.host [Sample2.good_price_row; Sample2.row_throwing])
    as (_ & Hdrop & Hkeep & Hthrow & _).
  assert (Hb1 : Spec.coercion_throws Sample.row_bad_price = false) by (vm_compute; reflexivity).
  assert (Hb2 : Spec.row_kept Sample.row_bad_price = false) by (vm_compute; reflexivity).
  assert (Hk1 : Spec.coercion_throws Sample.row_bad_hours = false) by (vm_compute; reflexivity).
  assert (Hk2 : Spec.row_kept Sample.row_bad_hours = true) by (vm_compute; reflexivity).
  assert (Ht : Spec.coercion_throws Sample2.row_throwing = true) by (vm_compute; reflexivity).
  split; [exact Hb1 |]. split; [exact Hb2 |].
  split; [exact (Hdrop ∅ Sample.row_bad_price Hb1 Hb2) |].
  split; [exact Hk1 |]. split; [exact Hk2 |].
  split.
  - destruct (Hkeep ∅ Sample.row_bad_hours Hk1 Hk2) as (mn & mx & hours & _ & _ & Hh & Hrow).
    exists mn, mx. rewrite Hrow.
    assert (hours = NaN) as -> by (vm_compute in Hh; congruence).
    reflexivity.
  - split; [exact Ht |]. apply (Hthrow Sample2.row_throwing); [simpl; auto | exact Ht].
Defined.

Lemma C8_counterexample :
  Spec.envelope_of
    [ (js "count", VNum (Fin 1)); (js "results", VArr [Sample.row_bad_hours]) ]
    [Sample.row_bad_hours]
  /\ App.prices_then Sample.host (VArr [Sample.row_bad_hours]) !! js "screen"
     = Some {| App.min := 100; App.max := 200; App.hours := 1 |}
  /\ App.prices_then Sample.host Sample.prices_envelope !! js "screen" = None.
Proof. repeat split; vm_compute; reflexivity. Qed.

Lemma C8_list_shapes_witness :
  Spec.envelope_of
    [ (js "count", VNum (Fin 1)); (js "results", VArr [Sample.row_bad_hours]) ]
    [Sample.row_bad_hours]
  /\ App.brands_arr Sample.prices_envelope = VArr [Sample.row_bad_hours]
  /\ App.centers_arr Sample.prices_envelope = VArr [Sample.row_bad_hours].
Proof.
  assert (He : Spec.envelope_of
            [ (js "count", VNum (Fin 1)); (js "results", VArr [Sample.row_bad_hours]) ]
            [Sample.row_bad_hours]) by (vm_compute; reflexivity).
  destruct (C8_list_shapes Sample.host _ _ He) as ((_ & Hb) & _ & _ & (_ & Hc) & _).
  split; [exact He |]. split; [exact Hb | exact Hc].
Defined.

(* ===================================================================== *)
(** * The HTTP wrapper                                                    *)
(* ===================================================================== *)

Section Http.
Context (h : Host).

Lemma get_falsy (data : value) (k : string) :
  truthy data = false -> get data k = VUndef.
Proof. destruct data; simpl; intros H; try reflexivity; discriminate H. Qed.

Lemma or_else_l (a b : value) : truthy a = true -> or_else a b = a.
Proof. unfold or_else. now intros ->. Qed.

Lemma or_else_r (a b : value) : truthy a = false -> or_else a b = b.
Proof. unfold or_else. now intros ->. Qed.

Lemma error_value_choice (data : value) (statusText : jsstring) :
  Api.error_value data statusText = Spec.error_choice data statusText.
Proof.
  unfold Api.error_value, Spec.error_choice, and_then.
  assert (Hst : or_else (VStr statusText) (VStr (js "Request failed"))
                = match statusText with
                  | _ :: _ => VStr statusText
                  | [] => VStr (js "Request failed")
                  end) by (destruct statusText; reflexivity).
  destruct (truthy data) eqn:Hd.
  - destruct (truthy (get data "detail")) eqn:H1.
    { now rewrite !(or_else_l (get data "detail")) by exact H1. }
    rewrite (or_else_r (get data "detail")) by exact H1.
    destruct (truthy (get data "error")) eqn:H2.
    { now rewrite !(or_else_l (get data "error")) by exact H2. }
    rewrite (or_else_r (get data "error")) by exact H2.
    destruct (truthy (get data "message")) eqn:H3.
    { now rewrite !(or_else_l (get data "message")) by exact H3. }
    rewrite (or_else_r (get data "message")) by exact H3. exact Hst.
  - rewrite !(get_falsy data _ Hd). simpl.
    rewrite (or_else_r data) by exact Hd. exact Hst.
Qed.

(** A transport failure is passed on as it is. *)
Lemma http_transport_failure (fetch : Api.Fetch) (req : Api.Request) (e : JsError) :
  fetch req = Rejected e -> Api.http h fetch req = Rejected e.
Proof. unfold Api.http. now intros ->. Qed.

(** C9. On a response, [http] rejects exactly when the status is not ok.
    The error message is made of the body's [detail], else its [error],
    else its [message], else the status text, else the fixed text: a string
    as it is.  On an ok response the result is the parsed body: [null] for
    an empty text, the JSON value when the text parses, the text itself
    when it does not. *)
Theorem C9_http_outcome (fetch : Api.Fetch) (req : Api.Request) (res : Api.Response) :
  fetch req = Resolved res ->
  ((exists e, Api.http h fetch req = Rejected e) <-> Api.ok res = false)
  /\ (Api.ok res = false ->
      Api.http h fetch req
      = Rejected (ErrorObj (Api.message_text h
           (Spec.error_choice (Api.parse_body h (Api.text res)) (Api.statusText res))))
      /\ forall s,
           Spec.error_choice (Api.parse_body h (Api.text res)) (Api.statusText res)
             = VStr s ->
           Api.http h fetch req = Rejected (ErrorObj s))
  /\ (Api.ok res = true ->
      Api.http h fetch req = Resolved (Api.parse_body h (Api.text res)))
  /\ (Api.text res = [] -> Api.parse_body h (Api.text res) = VNull)
  /\ (forall v, Api.text res <> [] -> JSON_parse h (Api.text res) = Some v ->
        Api.parse_body h (Api.text res) = v)
  /\ (Api.text res <> [] -> JSON_parse h (Api.text res) = None ->
        Api.parse_body h (Api.text res) = VStr (Api.text res)).
Proof.
  intros Hres. unfold Api.http, Api.http_response. rewrite Hres.
  rewrite error_value_choice.
  split; [| split; [| split; [| split; [| split]]]].
  - destruct (Api.ok res); simpl; split.
    + intros [e He]. discriminate He.
    + discriminate.
    + reflexivity.
    + intros _. eexists. reflexivity.
  - intros ->. simpl. split; [reflexivity |].
    intros s ->. reflexivity.
  - intros ->. reflexivity.
  - intros ->. reflexivity.
  - intros v Hne Hp. unfold Api.parse_body.
    destruct (Api.text res); [contradiction | now rewrite Hp].
  - intros Hne Hp. unfold Api.parse_body.
    destruct (Api.text res); [contradiction | now rewrite Hp].
Qed.

End Http.

Lemma C9_http_outcome_witness :
  Sample.fetch_fail (Api.createRequest_req Sample.host VNull)
    = Resolved Sample.response_failed
  /\ Api.ok Sample.response_failed = false
  /\ Api.http Sample.host Sample.fetch_fail (Api.createRequest_req Sample.host VNull)
     = Rejected (ErrorObj (js "Bad Request"))
  /\ Api.http Sample.host Sample.fetch_ok (Api.createRequest_req Sample.host VNull)
     = Resolved (VNum (Fin 42)).
Proof.
  pose proof (C9_http_outcome Sample.host Sample.fetch_fail
                (Api.createRequest_req Sample.host VNull)
                Sample.response_failed eq_refl) as (_ & Hbad & _).
  pose proof (C9_http_outcome Sample.host Sample.fetch_ok
                (Api.createRequest_req Sample.host VNull)
                Sample.response_created eq_refl) as (_ & _ & Hgood & _ & Hparse & _).
  split; [reflexivity |]. split; [reflexivity |]. split.
  - apply (proj2 (Hbad eq_refl)). vm_compute. reflexivity.
  - rewrite (Hgood eq_refl).
    rewrite (Hparse (VNum (Fin 42)));
      [reflexivity | discriminate | vm_compute; reflexivity].
Defined.

(* ===================================================================== *)
(** * The support message                                                 *)
(* ===================================================================== *)

Section SupportSend.
Context (h : Host) (fetch : Api.Fetch).

(** C10. [send] makes no call and keeps the text when the request id does
    not coerce to a truthy number or the trimmed text is empty.  Otherwise
    it sends the id and the trimmed text, clears the text when the call
    succeeds and keeps it when the call fails. *)
Theorem C10_send_outcome (s : App.SupportState) :
  (num_truthy (StringToNumber (App.rid s)) = false \/ trim (App.text s) = [] ->
   snd (App.send h fetch s) = []
   /\ App.text (fst (App.send h fetch s)) = App.text s)
  /\ (num_truthy (StringToNumber (App.rid s)) = true ->
      trim (App.text s) <> [] ->
      snd (App.send h fetch s)
        = [ Api.createSupportMessage_req h
              (VObj [ (js "repair_request", VNum (StringToNumber (App.rid s)));
                      (js "text", VStr (trim (App.text s))) ]) ]
      /\ (forall v,
            Api.createSupportMessage h fetch
              (App.send_payload (StringToNumber (App.rid s)) (App.text s))
              = Resolved v ->
            App.text (fst (App.send h fetch s)) = [])
      /\ (forall e,
            Api.createSupportMessage h fetch
              (App.send_payload (StringToNumber (App.rid s)) (App.text s))
              = Rejected e ->
            App.text (fst (App.send h fetch s)) = App.text s)).
Proof.
  unfold App.send. split.
  - intros [Hid | Ht].
    + rewrite Hid. simpl. split; reflexivity.
    + rewrite Ht. rewrite orb_true_r. split; reflexivity.
  - intros Hid Ht. rewrite Hid. simpl.
    destruct (trim (App.text s)) as [| c t] eqn:Htrim; [contradiction |].
    destruct (Api.createSupportMessage h fetch
                (App.send_payload (StringToNumber (App.rid s)) (App.text s)))
      as [v | e] eqn:Hcall; simpl.
    + split; [unfold App.send_payload; now rewrite Htrim |].
      split; [reflexivity | discriminate].
    + split; [unfold App.send_payload; now rewrite Htrim |].
      split; [discriminate | reflexivity].
Qed.

End SupportSend.

Lemma C10_send_outcome_witness :
  snd (App.send Sample.host Sample.fetch_ok Sample.support_form_no_id) = []
  /\ App.text (fst (App.send Sample.host Sample.fetch_ok Sample.support_form)) = []
  /\ App.text (fst (App.send Sample.host Sample.fetch_fail Sample.support_form))
     = App.text Sample.support_form.
Proof.
  destruct (C10_send_outcome Sample.host Sample.fetch_ok Sample.support_form_no_id)
    as [Hno _].
  destruct (C10_send_outcome Sample.host Sample.fetch_ok Sample.support_form)
    as [_ Hok].
  destruct (C10_send_outcome Sample.host Sample.fetch_fail Sample.support_form)
    as [_ Hfail].
  split; [apply Hno; left; vm_compute; reflexivity |].
  split.
  - destruct Hok as (_ & Hres & _);
      [vm_compute; reflexivity | vm_compute; discriminate |].
    apply (Hres (VNum (Fin 42))). vm_compute. reflexivity.
  - destruct Hfail as (_ & _ & Hrej);
      [vm_compute; reflexivity | vm_compute; discriminate |].
    apply (Hrej (ErrorObj (js "Bad Request"))). vm_compute. reflexivity.
Defined.

From Stdlib Require Import Psatz.
(* ===================================================================== *)
(** * More about the distance                                             *)
(* ===================================================================== *)

Section DistanceMore.
Import F64.

Lemma Zdigits2_le (m k : Z) : 0 <= k -> 0 <= m < 2 ^ k -> Zdigits2 m <= k.
Proof.
  intros Hk [H0 Hm]. destruct m as [| p | p]; [simpl; lia | | lia].
  simpl. pose proof (digits2_pos_bounds p) as [Hlo _].
  destruct (Z.le_gt_cases (Z.pos (digits2_pos p)) k) as [Hle | Hgt]; [exact Hle |].
  exfalso.
  assert (2 ^ k <= 2 ^ (Z.pos (digits2_pos p) - 1)) by (apply Z.pow_le_mono_r; lia).
  lia.
Qed.

Lemma shr_fexp_bounds (m e : Z) (l : location) :
  0 <= m ->
  0 <= shr_m (fst (shr_fexp prec emax m e l)) <= m
  /\ snd (shr_fexp prec emax m e l) <= Z.max e (fexp prec emax (Zdigits2 m + e)).
Proof.
  intros Hm. unfold shr_fexp, shr.
  assert (H0 : shr_m (shr_record_of_loc m l) = m) by (destruct l as [| []]; reflexivity).
  destruct (fexp prec emax (Zdigits2 m + e) - e) as [| n | n] eqn:Hn; simpl.
  - rewrite H0. lia.
  - rewrite iter_shr_1_div by (rewrite H0; lia). rewrite H0.
    split; [| lia]. split; [apply Z.div_pos; lia |].
    apply Z.div_le_upper_bound; [lia |].
    assert (1 <= 2 ^ Z.pos n) by (apply Z.pow_le_mono_r with (b := 0); lia || lia). nia.
  - rewrite H0. lia.
Qed.

(** The square of a finite value of magnitude at most 2 is no infinity. *)
Lemma fmul_small (s : bool) (m : positive) (e : Z) :
  Z.pos m < 2 ^ 53 -> e <= -52 ->
  match fmul (S754_finite s m e) (S754_finite s m e) with
  | S754_zero s' | S754_finite s' _ _ => s' = false
  | _ => False
  end.
Proof.
  intros Hm He. unfold fmul, SFmul. rewrite xorb_nilpotent.
  unfold binary_round_aux.
  assert (Hsq : 0 <= Z.pos (m * m) < 2 ^ 106).
  { rewrite Pos2Z.inj_mul. change (2 ^ 106) with (2 ^ 53 * 2 ^ 53). nia. }
  pose proof (shr_fexp_bounds (Z.pos (m * m)) (e + e) loc_Exact ltac:(lia)) as [H1 He1].
  pose proof (Zdigits2_le (Z.pos (m * m)) 106 ltac:(lia) Hsq) as Hd1.
  destruct (shr_fexp prec emax (Z.pos (m * m)) (e + e) loc_Exact) as [mrs' e'].
  cbn [fst snd] in H1, He1.
  set (m2 := round_nearest_even (shr_m mrs') (loc_of_shr_record mrs')).
  assert (Hm2 : 0 <= m2 < 2 ^ 107).
  { subst m2. pose proof (round_nearest_even_nonneg (shr_m mrs') (loc_of_shr_record mrs')
                            ltac:(lia)).
    split; [lia |].
    assert (round_nearest_even (shr_m mrs') (loc_of_shr_record mrs') <= shr_m mrs' + 1).
    { destruct (loc_of_shr_record mrs') as [| []]; simpl; try lia.
      destruct (Z.even (shr_m mrs')); lia. }
    change (2 ^ 107) with (2 * 2 ^ 106). lia. }
  pose proof (shr_fexp_bounds m2 e' loc_Exact ltac:(lia)) as [H2 He2].
  pose proof (Zdigits2_le m2 107 ltac:(lia) Hm2) as Hd2.
  destruct (shr_fexp prec emax m2 e' loc_Exact) as [mrs'' e'']. cbn [fst snd] in H2, He2.
  unfold fexp, SpecFloat.emin, prec, emax in *.
  destruct (shr_m mrs'') as [| p | p]; [reflexivity | | lia].
  assert (Hle : e'' <= 1024 - 53) by lia.
  apply Z.leb_le in Hle. unfold prec, emax. rewrite Hle. reflexivity.
Qed.

Lemma fsub_diag (x : f64) : isFinite x = true -> fsub x x = zero.
Proof.
  destruct x as [[] | | | s mx ex]; try discriminate; intros _;
    [reflexivity | reflexivity |].
  unfold fsub, SFsub. rewrite Z.sub_diag. reflexivity.
Qed.

(** The product of two equal cosines and +0 is +0. *)
Lemma cos_sqr_zero (c : f64) :
  isFinite c = true -> leb (Math_abs c) one = true ->
  fmul (fmul c c) zero = zero.
Proof.
  destruct c as [[] | | | s mc ec]; try discriminate; intros Hfin Hle;
    [reflexivity | reflexivity |].
  simpl in Hfin. apply bounded_facts in Hfin as (_ & Hm & _).
  assert (He : ec <= -52).
  { change one with (S754_finite false 4503599627370496 (-52)) in Hle.
    unfold leb, SFleb, Math_abs in Hle. cbn [SFabs SFcompare] in Hle.
    destruct (Z.compare_spec ec (-52)); [lia | lia | discriminate Hle]. }
  pose proof (fmul_small s mc ec Hm He) as Hsq.
  destruct (fmul (S754_finite s mc ec) (S754_finite s mc ec)) as [s' | | | s' p e];
    try contradiction; subst; reflexivity.
Qed.

(** X1. The distance from a point to itself is exactly +0, for every
    finite latitude and longitude, as soon as the cosine the math library
    returns at that latitude is a finite number of magnitude at most 1. *)
Theorem haversine_diag (m : MathLib) (lat lon : f64) :
  isFinite lat = true -> isFinite lon = true ->
  isFinite (Math_cos m (fdiv (fmul lat PI) (of_Z 180))) = true ->
  leb (Math_abs (Math_cos m (fdiv (fmul lat PI) (of_Z 180)))) one = true ->
  Geo.haversine m lat lon lat lon = zero.
Proof.
  intros Hlat Hlon Hfin Hle.
  unfold Geo.haversine, Geo.hav_a. cbv zeta.
  rewrite (fsub_diag lat Hlat), (fsub_diag lon Hlon).
  change (fdiv (fdiv (fmul zero PI) (of_Z 180)) two) with zero.
  change (sqr m (Math_sin m zero)) with zero.
  rewrite (cos_sqr_zero _ Hfin Hle).
  vm_compute. reflexivity.
Qed.

End DistanceMore.

Lemma haversine_diag_witness :
  F64.isFinite (F64.of_Z 12) = true
  /\ F64.leb
       (F64.Math_abs
          (F64.Math_cos Sample2.math
             (F64.fdiv (F64.fmul (F64.of_Z 12) F64.PI) (F64.of_Z 180)))) F64.one = true
  /\ Geo.haversine Sample2.math (F64.of_Z 12) (F64.of_Z 0) (F64.of_Z 12) (F64.of_Z 0)
     = F64.zero.
Proof.
  assert (H1 : F64.isFinite (F64.of_Z 12) = true) by (vm_compute; reflexivity).
  assert (H2 : F64.leb
       (F64.Math_abs
          (F64.Math_cos Sample2.math
             (F64.fdiv (F64.fmul (F64.of_Z 12) F64.PI) (F64.of_Z 180)))) F64.one = true)
    by (vm_compute; reflexivity).
  split; [exact H1 |]. split; [exact H2 |].
  apply (haversine_diag Sample2.math (F64.of_Z 12) (F64.of_Z 0)); vm_compute; reflexivity.
Defined.

(* ===================================================================== *)
(** * More about the ranking                                              *)
(* ===================================================================== *)

Section RankingMore.
Context (m : F64.MathLib).

(** With finite distances the comparator is consistent, so [sort] has one
    possible result. *)
Lemma centersSorted_finite (centers result : list Center.t) (p : UserPos.t) :
  Forall (App.key_finite (App.distance_to m p)) centers ->
  App.centersSorted m centers (Some p) result ->
  result = App.stable_sort (App.by_key (App.distance_to m p)) centers.
Proof.
  intros Hfin [_ Hsort]. apply Hsort.
  exact (consistent_key (App.distance_to m p) centers Hfin).
Qed.

(** X3. With a user position from which the distance to every centre is a
    finite number, the ranking is a permutation of the centres in
    non-decreasing distance, the centres at one distance keep their order,
    and the centre at the head is a nearest one. *)
Theorem centersSorted_head_nearest (centers result : list Center.t)
    (p : UserPos.t) :
  Forall (fun c => F64.isFinite (App.distance_to m p c) = true) centers ->
  App.centersSorted m centers (Some p) result ->
  Permutation centers result
  /\ Sorted (App.by_distance m p) result
  /\ (forall c0, In c0 centers ->
        List.filter (App.ties (App.distance_to m p) c0) result
        = List.filter (App.ties (App.distance_to m p) c0) centers)
  /\ (forall first rest, result = first :: rest ->
        forall c, In c centers -> App.by_distance m p first c).
Proof.
  intros Hfin Hsort.
  pose proof (centersSorted_finite centers result p Hfin Hsort) as Hres.
  assert (Hperm : Permutation centers result) by (destruct Hsort as [H _]; exact H).
  assert (Hsorted : Sorted (App.by_distance m p) result).
  { rewrite Hres. exact (stable_sort_sorted (App.distance_to m p) centers Hfin). }
  split; [exact Hperm |]. split; [exact Hsorted |]. split.
  - intros c0 Hc0. rewrite Hres.
    apply (stable_sort_stable (App.distance_to m p)); [| exact Hfin].
    rewrite List.Forall_forall in Hfin. exact (Hfin c0 Hc0).
  - intros first rest Hhead c Hc. rewrite Hhead in Hsorted, Hperm.
    apply (sorted_head_least (App.distance_to m p) first rest Hsorted).
    + apply (Permutation_in _ Hperm), Hc.
    + rewrite List.Forall_forall in Hfin. apply (Hfin first).
      apply (Permutation_in _ (Permutation_sym Hperm)). now left.
Qed.

(** X4. With or without a position, and with finite distances, ranking a
    ranked list again changes nothing. *)
Theorem centersSorted_idempotent (centers once twice : list Center.t)
    (userPos : option UserPos.t) :
  (forall p, userPos = Some p ->
     Forall (fun c => F64.isFinite (App.distance_to m p c) = true) centers) ->
  App.centersSorted m centers userPos once ->
  App.centersSorted m once userPos twice ->
  twice = once.
Proof.
  intros Hfin H1 H2. destruct userPos as [p |]; [| exact H2].
  specialize (Hfin p eq_refl).
  pose proof (centersSorted_finite centers once p Hfin H1) as Honce.
  assert (Hfin1 : Forall (App.key_finite (App.distance_to m p)) once).
  { rewrite Honce. exact (stable_sort_finite (App.distance_to m p) centers Hfin). }
  rewrite (centersSorted_finite once twice p Hfin1 H2).
  apply (stable_sort_fixed (App.distance_to m p)); [exact Hfin1 |].
  rewrite Honce. exact (stable_sort_sorted (App.distance_to m p) centers Hfin).
Qed.

End RankingMore.

Lemma centersSorted_head_nearest_witness :
  Forall (fun c => F64.isFinite (App.distance_to Sample2.math Sample2.here c) = true)
    [Sample2.center_far; Sample2.center_near]
  /\ App.centersSorted Sample2.math [Sample2.center_far; Sample2.center_near]
       (Some Sample2.here) [Sample2.center_near; Sample2.center_far]
  /\ App.by_distance Sample2.math Sample2.here Sample2.center_near Sample2.center_far.
Proof.
  assert (Hfin : Forall
            (fun c => F64.isFinite (App.distance_to Sample2.math Sample2.here c) = true)
            [Sample2.center_far; Sample2.center_near])
    by (repeat constructor).
  assert (Hs : App.centersSorted Sample2.math [Sample2.center_far; Sample2.center_near]
                 (Some Sample2.here) [Sample2.center_near; Sample2.center_far]).
  { split; [apply perm_swap | intros _; vm_compute; reflexivity]. }
  split; [exact Hfin |]. split; [exact Hs |].
  destruct (centersSorted_head_nearest Sample2.math _ _ _ Hfin Hs) as (_ & _ & _ & Hhead).
  apply (Hhead Sample2.center_near [Sample2.center_far] eq_refl). now left.
Defined.

Lemma centersSorted_idempotent_witness :
  App.centersSorted Sample2.math [Sample2.center_far; Sample2.center_near]
    (Some Sample2.here) [Sample2.center_near; Sample2.center_far]
  /\ forall twice,
       App.centersSorted Sample2.math [Sample2.center_near; Sample2.center_far]
         (Some Sample2.here) twice ->
       twice = [Sample2.center_near; Sample2.center_far].
Proof.
  assert (Hs : App.centersSorted Sample2.math [Sample2.center_far; Sample2.center_near]
                 (Some Sample2.here) [Sample2.center_near; Sample2.center_far]).
  { split; [apply perm_swap | intros _; vm_compute; reflexivity]. }
  split; [exact Hs |]. intros twice Ht.
  apply (centersSorted_idempotent Sample2.math [Sample2.center_far; Sample2.center_near]
           [Sample2.center_near; Sample2.center_far] twice (Some Sample2.here));
    [| exact Hs | exact Ht].
  intros p [= <-]. repeat constructor.
Defined.

(* ===================================================================== *)
(** * More about the estimate                                             *)
(* ===================================================================== *)

Section EstimateMore.





Lemma well_formed_spec (r : App.PriceRange) :
  PriceRows.well_formed r = true
  <-> (0 <= App.min r)%Q /\ (App.min r <= App.max r)%Q /\ (0 < App.hours r)%Q.
Proof.
  unfold PriceRows.well_formed.
  rewrite !andb_true_iff, !Qle_bool_iff, negb_true_iff.
  split.
  - intros ((H1 & H2) & H3). repeat split; auto.
    apply Qnot_le_lt. intros Hle. apply Qle_bool_iff in Hle. congruence.
  - intros (H1 & H2 & H3). repeat split; auto.
    destruct (Qle_bool (App.hours r) 0) eqn:E; [| reflexivity].
    apply Qle_bool_iff in E. lra.
Qed.

Lemma FALLBACK_PRICES_well_formed :
  map_Forall (fun _ r => PriceRows.well_formed r = true) App.FALLBACK_PRICES.
Proof.
  unfold App.FALLBACK_PRICES.
  repeat (apply map_Forall_insert_2; [vm_compute; reflexivity |]).
  apply map_Forall_empty.
Qed.

(** A read of the price map gives a range exactly for a binding. *)
Lemma priceMap_get_range (m : gmap jsstring App.PriceRange) (k : jsstring)
    (pr : App.PriceRange) :
  Repair.priceMap_get m k = Repair.PRange pr <-> m !! k = Some pr.
Proof.
  unfold Repair.priceMap_get, Repair.Object_prototype_get.
  destruct (bool_decide (k = js "__proto__")) eqn:Hk.
  - apply bool_decide_eq_true in Hk. subst k.
    destruct (m !! js "__proto__"); split; congruence.
  - destruct (m !! k); [split; congruence |].
    destruct (m !! js "__proto__"); repeat case_match; split; discriminate.
Qed.

(** The base is a range only when it is the default or a binding of the
    price map or of the fallback table. *)
Lemma currentBase_range (priceMap : gmap jsstring App.PriceRange)
    (issueCode : jsstring) (r : App.PriceRange) :
  Repair.currentBase priceMap issueCode = Repair.BaseRange r ->
  priceMap !! issueCode = Some r \/ App.FALLBACK_PRICES !! issueCode = Some r
  \/ r = App.default_price.
Proof.
  unfold Repair.currentBase.
  destruct (Repair.property_truthy (Repair.priceMap_get priceMap issueCode)).
  - destruct (Repair.priceMap_get priceMap issueCode) as [r' | | |] eqn:Hg;
      try discriminate.
    intros [= ->]. left. now apply priceMap_get_range.
  - destruct (Repair.property_truthy (Repair.priceMap_get App.FALLBACK_PRICES issueCode)).
    + destruct (Repair.priceMap_get App.FALLBACK_PRICES issueCode) as [r' | | |] eqn:Hg;
        try discriminate.
      intros [= ->]. right; left. now apply priceMap_get_range.
    + intros [= <-]. right; right; reflexivity.
Qed.

Lemma leb_zero_nonneg (x : F64.f64) :
  F64.has_sign false x = true -> F64.leb F64.zero x = true.
Proof. destruct x as [[] | [] | | [] m e]; simpl; try discriminate; reflexivity. Qed.

Lemma fadd_nonneg (x y : F64.f64) :
  F64.has_sign false x = true -> F64.has_sign false y = true ->
  F64.has_sign false (F64.fadd x y) = true.
Proof.
  destruct x as [[] | [] | | [] mx ex]; simpl; try discriminate;
    destruct y as [[] | [] | | [] my ey]; simpl; try discriminate;
    intros _ _; try reflexivity.
  apply binary_round_sign.
Qed.

Lemma fdiv_nonneg (x : F64.f64) (m : positive) (e : Z) :
  F64.has_sign false x = true ->
  F64.has_sign false (F64.fdiv x (S754_finite false m e)) = true.
Proof.
  destruct x as [[] | [] | | [] mx ex]; simpl; try discriminate; intros _;
    try reflexivity.
  unfold F64.fdiv, SFdiv.
  pose proof (SFdiv_core_binary_nonneg mx m ex e) as H.
  destruct (SFdiv_core_binary F64.prec F64.emax (Z.pos mx) ex (Z.pos m) e)
    as [[mz ez] lz].
  apply binary_round_aux_sign, H.
Qed.

Lemma fmul_nonneg (x : F64.f64) (m : positive) (e : Z) :
  F64.has_sign false x = true ->
  F64.has_sign false (F64.fmul x (S754_finite false m e)) = true.
Proof.
  destruct x as [[] | [] | | [] mx ex]; simpl; try discriminate; intros _;
    try reflexivity.
  unfold F64.fmul, SFmul. apply binary_round_aux_sign. lia.
Qed.

(** X7. The base range keeps the shape of the data model: when every
    entry of the price map has [0 <= min <= max] and [hours > 0], the base
    of an issue code that is no inherited name is a range, and a base that
    is a range has this shape and an estimate whose price is not negative
    (it may be +Infinity).  A base that is no range has the estimate NaN. *)
Theorem currentBase_well_formed (priceMap : gmap jsstring App.PriceRange)
    (issueCode : jsstring) (urgency : num) :
  map_Forall (fun _ r => PriceRows.well_formed r = true) priceMap ->
  (Repair.ordinary_code issueCode = true ->
   exists r, Repair.currentBase priceMap issueCode = Repair.BaseRange r)
  /\ (forall r,
        Repair.currentBase priceMap issueCode = Repair.BaseRange r ->
        PriceRows.well_formed r = true
        /\ F64.leb F64.zero
             (Repair.priceMid (Repair.estimate (Repair.BaseRange r) urgency)) = true)
  /\ (Repair.currentBase priceMap issueCode = Repair.BaseOther ->
      Repair.estimate (Repair.currentBase priceMap issueCode) urgency
      = {| Repair.priceMid := F64.nan; Repair.time := F64.nan |}).
Proof.
  intros Hall. split; [| split].
  - intros Hk. unfold Repair.currentBase. rewrite !(ordinary_code_get _ _ Hk).
    destruct (priceMap !! issueCode); [eexists; reflexivity |].
    destruct (App.FALLBACK_PRICES !! issueCode); eexists; reflexivity.
  - intros r Hr.
    assert (Hwf : PriceRows.well_formed r = true).
    { destruct (currentBase_range _ _ _ Hr) as [H | [H | ->]].
      - exact (Hall _ _ H).
      - exact (FALLBACK_PRICES_well_formed _ _ H).
      - vm_compute. reflexivity. }
    split; [exact Hwf |].
    apply well_formed_spec in Hwf as (H0 & Hle & _).
    assert (Hmax : (0 <= App.max r)%Q) by lra.
    apply leb_zero_nonneg.
    unfold Repair.estimate, Repair.base_field. cbn [Repair.priceMid].
    assert (Hhalf : F64.has_sign false
              (F64.fdiv (F64.fadd (F64.of_Q (App.min r)) (F64.of_Q (App.max r)))
                        (F64.of_Z 2)) = true).
    { change (F64.of_Z 2) with (S754_finite false 4503599627370496 (-51)).
      apply fdiv_nonneg, fadd_nonneg; now apply of_Q_nonneg. }
    destruct (num_eqb urgency (Fin 3)).
    { change (F64.of_Q (5 # 4)) with (S754_finite false 5629499534213120 (-52)).
      now apply fmul_nonneg. }
    destruct (num_eqb urgency (Fin 2)).
    { change (F64.of_Q (11 # 10)) with (S754_finite false 4953959590107546 (-52)).
      now apply fmul_nonneg. }
    change (F64.of_Z 1) with (S754_finite false 4503599627370496 (-52)).
    now apply fmul_nonneg.
  - intros ->. apply estimate_other.
Qed.

Lemma currentBase_well_formed_witness :
  map_Forall (fun _ r => PriceRows.well_formed r = true)
    ({[ js "screen" := Sample.server_price ]} : gmap jsstring App.PriceRange)
  /\ Repair.currentBase {[ js "screen" := Sample.server_price ]} (js "screen")
     = Repair.BaseRange Sample.server_price
  /\ PriceRows.well_formed Sample.server_price = true
  /\ F64.leb F64.zero
       (Repair.priceMid
          (Repair.estimate (Repair.BaseRange Sample.server_price) (Fin 3))) = true.
Proof.
  assert (H : map_Forall (fun _ r => PriceRows.well_formed r = true)
                ({[ js "screen" := Sample.server_price ]} : gmap jsstring App.PriceRange)).
  { apply map_Forall_singleton. vm_compute. reflexivity. }
  assert (Hb : Repair.currentBase {[ js "screen" := Sample.server_price ]} (js "screen")
               = Repair.BaseRange Sample.server_price) by (vm_compute; reflexivity).
  destruct (currentBase_well_formed _ (js "screen") (Fin 3) H) as (_ & Hr & _).
  destruct (Hr _ Hb) as [Hwf Hge].
  split; [exact H |]. split; [exact Hb |]. split; [exact Hwf | exact Hge].
Defined.

End EstimateMore.

(* ===================================================================== *)
(** * More about the price map                                            *)
(* ===================================================================== *)

Section PriceMapMore.
Context (h : Host).

Lemma price_row_lookup (m m' : gmap jsstring App.PriceRange) (r : value)
    (k : jsstring) :
  App.price_row h m r = Some m' -> App.row_assigns h k r = false ->
  m' !! k = m !! k.
Proof.
  unfold App.price_row, App.row_assigns.
  destruct (App.row_step h r) as [| | key range]; try congruence.
  intros [= <-] Hk. apply bool_decide_eq_false in Hk.
  now apply lookup_insert_ne.
Qed.

(** Rows that do not assign under [k] leave the binding of [k] as it
    was. *)
Lemma price_loop_lookup (rows : list value) (m m' : gmap jsstring App.PriceRange)
    (k : jsstring) :
  App.price_loop h rows m = Some m' ->
  Forall (fun r => App.row_assigns h k r = false) rows ->
  m' !! k = m !! k.
Proof.
  intros Hloop Hall. revert m Hloop.
  induction Hall as [| r rows Hr Hall IH]; intros m Hloop; simpl in Hloop.
  - congruence.
  - destruct (App.price_row h m r) as [m1 |] eqn:H1; [| discriminate].
    rewrite (IH _ Hloop). exact (price_row_lookup _ _ _ _ H1 Hr).
Qed.

(** A binding of the map the loop built was there before or comes from a
    row. *)
Lemma price_loop_source (rows : list value) (m m' : gmap jsstring App.PriceRange)
    (k : jsstring) (pr : App.PriceRange) :
  App.price_loop h rows m = Some m' -> m' !! k = Some pr ->
  m !! k = Some pr \/ exists r, In r rows /\ App.row_step h r = App.Assign k pr.
Proof.
  revert m. induction rows as [| r rows IH]; intros m Hloop Hl; simpl in Hloop.
  - left. congruence.
  - destruct (App.price_row h m r) as [m1 |] eqn:H1; [| discriminate].
    destruct (IH _ Hloop Hl) as [Hm1 | (r' & Hin & Hr')].
    + unfold App.price_row in H1.
      destruct (App.row_step h r) as [| | key range] eqn:Hs; try congruence.
      * left. congruence.
      * injection H1 as <-.
        destruct (decide (key = k)) as [-> | Hne].
        -- rewrite lookup_insert_eq in Hm1. injection Hm1 as ->.
           right. exists r. split; [now left | exact Hs].
        -- rewrite lookup_insert_ne in Hm1 by exact Hne. now left.
    + right. exists r'. split; [now right | exact Hr'].
Qed.

(** Without a throwing row the loop ends. *)
Lemma price_loop_total (rows : list value) (m : gmap jsstring App.PriceRange) :
  Forall (fun r => App.row_throws h r = false) rows ->
  exists m', App.price_loop h rows m = Some m'.
Proof.
  intros Hall. revert m. induction Hall as [| r rows Hr Hall IH]; intros m; simpl.
  - now exists m.
  - unfold App.price_row. unfold App.row_throws in Hr.
    destruct (App.row_step h r); [discriminate | apply IH | apply IH].
Qed.

(** X8. A price range that a read of the stored price map finds comes from
    a row of the reply that was assigned under that key; a key that is no
    inherited name and that no row is assigned under reads as undefined. *)
Theorem build_price_map_source (rows : list value) (k : jsstring) :
  (forall pr,
     Repair.priceMap_get (App.build_price_map h rows) k = Repair.PRange pr ->
     exists r, In r rows /\ App.row_step h r = App.Assign k pr)
  /\ (Repair.ordinary_code k = true ->
      Forall (fun r => App.row_assigns h k r = false) rows ->
      Repair.priceMap_get (App.build_price_map h rows) k = Repair.PUndefined).
Proof.
  unfold App.build_price_map. split.
  - intros pr Hg. apply priceMap_get_range in Hg.
    destruct (App.price_loop h rows ∅) as [m |] eqn:Hloop; simpl in Hg.
    + destruct (price_loop_source _ _ _ _ _ Hloop Hg) as [He | Hr]; [| exact Hr].
      rewrite lookup_empty in He. discriminate He.
    + rewrite lookup_empty in Hg. discriminate Hg.
  - intros Hk Hno. rewrite (ordinary_code_get _ _ Hk).
    destruct (App.price_loop h rows ∅) as [m |] eqn:Hloop; simpl.
    + rewrite (price_loop_lookup _ _ _ _ Hloop Hno), lookup_empty. reflexivity.
    + rewrite lookup_empty. reflexivity.
Qed.

(** X9. When no row of the reply throws, the last row assigned under a key
    wins: the read of that key gives its range, and so does the base of
    that issue code, whatever the key is. *)
Theorem build_price_map_last_wins (before after : list value) (r : value)
    (k : jsstring) (pr : App.PriceRange) :
  App.row_step h r = App.Assign k pr ->
  Forall (fun r' => App.row_assigns h k r' = false) after ->
  Forall (fun r' => App.row_throws h r' = false) (before ++ after) ->
  Repair.priceMap_get (App.build_price_map h (before ++ r :: after)) k
    = Repair.PRange pr
  /\ Repair.currentBase (App.build_price_map h (before ++ r :: after)) k
     = Repair.BaseRange pr.
Proof.
  intros Hr Hno Hall. apply Forall_app in Hall as [Hb Ha].
  destruct (price_loop_total before ∅ Hb) as [m1 H1].
  destruct (price_loop_total after (<[ k := pr ]> m1) Ha) as [m2 H2].
  assert (Hbuild : App.build_price_map h (before ++ r :: after) = m2).
  { unfold App.build_price_map. rewrite price_loop_app, H1. simpl.
    unfold App.price_row. rewrite Hr, H2. reflexivity. }
  assert (Hg : Repair.priceMap_get m2 k = Repair.PRange pr).
  { apply priceMap_get_range.
    rewrite (price_loop_lookup _ _ _ _ H2 Hno). apply lookup_insert_eq. }
  rewrite Hbuild. split; [exact Hg |].
  unfold Repair.currentBase. rewrite Hg. reflexivity.
Qed.

(** X10. Rows assigned neither under an issue code nor under [__proto__]
    do not change the base of that issue code. *)
Theorem currentBase_unrelated_rows (rows : list value) (issueCode : jsstring) :
  Forall (fun r => App.row_assigns h issueCode r = false) rows ->
  Forall (fun r => App.row_assigns h (js "__proto__") r = false) rows ->
  Repair.currentBase (App.build_price_map h rows) issueCode
  = Repair.currentBase ∅ issueCode.
Proof.
  intros Hno Hproto. unfold App.build_price_map.
  destruct (App.price_loop h rows ∅) as [m |] eqn:Hloop; simpl; [| reflexivity].
  pose proof (price_loop_lookup _ _ _ _ Hloop Hno) as Hk.
  pose proof (price_loop_lookup _ _ _ _ Hloop Hproto) as Hp.
  unfold Repair.currentBase, Repair.priceMap_get.
  rewrite Hk, Hp. reflexivity.
Qed.

End PriceMapMore.

Lemma build_price_map_source_witness :
  Repair.ordinary_code (js "battery") = true
  /\ Repair.priceMap_get (App.build_price_map Sample.host [Sample.row_bad_price])
       (js "battery") = Repair.PUndefined
  /\ exists r, In r [Sample2.good_price_row]
       /\ App.row_step Sample.host r
          = App.Assign (js "screen") {| App.min := 5000; App.max := 6500; App.hours := 2 |}.
Proof.
  assert (Hk : Repair.ordinary_code (js "battery") = true) by (vm_compute; reflexivity).
  destruct (build_price_map_source Sample.host [Sample.row_bad_price] (js "battery"))
    as [_ Hnone].
  destruct (build_price_map_source Sample.host [Sample2.good_price_row] (js "screen"))
    as [Hsome _].
  split; [exact Hk |]. split.
  - apply Hnone; [exact Hk |]. repeat constructor.
  - apply Hsome. vm_compute. reflexivity.
Defined.

Lemma build_price_map_last_wins_witness :
  App.row_step Sample.host Sample2.good_price_row
    = App.Assign (js "screen") {| App.min := 5000; App.max := 6500; App.hours := 2 |}
  /\ Repair.currentBase
       (App.build_price_map Sample.host
          ([Sample.row_bad_hours] ++ Sample2.good_price_row :: [Sample.row_bad_price]))
       (js "screen")
     = Repair.BaseRange {| App.min := 5000; App.max := 6500; App.hours := 2 |}
  /\ Repair.currentBase
       (App.build_price_map Sample.host ([] ++ Sample2.row_proto :: []))
       (js "__proto__")
     = Repair.BaseRange {| App.min := 1; App.max := 2; App.hours := 3 |}.
Proof.
  assert (He : App.row_step Sample.host Sample2.good_price_row
               = App.Assign (js "screen")
                   {| App.min := 5000; App.max := 6500; App.hours := 2 |})
    by (vm_compute; reflexivity).
  split; [exact He |]. split.
  - apply (build_price_map_last_wins Sample.host [Sample.row_bad_hours]
             [Sample.row_bad_price] Sample2.good_price_row _ _ He);
      repeat constructor.
  - apply (build_price_map_last_wins Sample.host [] [] Sample2.row_proto);
      [vm_compute; reflexivity | constructor | constructor].
Defined.

Lemma currentBase_unrelated_rows_witness :
  Repair.currentBase (App.build_price_map Sample.host [Sample2.good_price_row])
    (js "water")
  = Repair.currentBase ∅ (js "water").
Proof.
  apply (currentBase_unrelated_rows Sample.host [Sample2.good_price_row] (js "water"));
    repeat constructor.
Defined.

(* ===================================================================== *)
(** * More about [trim]                                                   *)
(* ===================================================================== *)

Section TrimMore.

Lemma is_ws_not_digit (c : char16) : is_ws c = true -> is_digit c = false.
Proof.
  unfold is_ws, is_digit. cbv zeta.
  destruct (48 <=? Z.of_N c) eqn:H1; [| reflexivity].
  destruct (Z.of_N c <=? 57) eqn:H2; [| reflexivity].
  apply Z.leb_le in H1, H2. intros Hws. exfalso.
  repeat (apply orb_prop in Hws as [Hws | Hws]);
    try (apply Z.eqb_eq in Hws; lia).
  apply andb_prop in Hws as [Ha Hb]. apply Z.leb_le in Ha. lia.
Qed.

Lemma filter_digit_ws (w : jsstring) :
  forallb is_ws w = true -> List.filter is_digit w = [].
Proof.
  induction w as [| c w IH]; simpl; [reflexivity |].
  intros H. apply andb_prop in H as [Hc Hw].
  rewrite (is_ws_not_digit c Hc). auto.
Qed.

Lemma filter_digit_trim_start (s : jsstring) :
  List.filter is_digit (trim_start s) = List.filter is_digit s.
Proof.
  destruct (trim_start_split s) as (w & Hs & Hw).
  rewrite Hs at 2. now rewrite List.filter_app, (filter_digit_ws w Hw).
Qed.

(** Trimming removes no digit. *)
Lemma filter_digit_trim (s : jsstring) :
  List.filter is_digit (trim s) = List.filter is_digit s.
Proof.
  unfold trim, trim_end.
  rewrite List.filter_rev, filter_digit_trim_start, List.filter_rev, rev_involutive.
  apply filter_digit_trim_start.
Qed.

Lemma trim_start_fixed (s : jsstring) :
  (forall c r, s = c :: r -> is_ws c = false) -> trim_start s = s.
Proof.
  destruct s as [| c r]; [reflexivity |].
  intros H. simpl. now rewrite (H c r eq_refl).
Qed.

Lemma trim_head (s : jsstring) (c : char16) (r : jsstring) :
  trim s = c :: r -> is_ws c = false.
Proof.
  unfold trim, trim_end. set (t := trim_start s).
  destruct (trim_start_split (rev t)) as (w & Hs & _).
  intros Hu.
  assert (Ht : t = (c :: r) ++ rev w).
  { rewrite <- (rev_involutive t), Hs, rev_app_distr. now rewrite Hu. }
  apply (trim_start_head s c (r ++ rev w)). exact Ht.
Qed.

Lemma trim_last (s : jsstring) (c : char16) (r : jsstring) :
  trim s = r ++ [c] -> is_ws c = false.
Proof.
  unfold trim, trim_end. intros Hu.
  apply (f_equal (@rev char16)) in Hu.
  rewrite rev_involutive, rev_app_distr in Hu. simpl in Hu.
  apply (trim_start_head _ _ _ Hu).
Qed.

(** Trimming twice is trimming once. *)
Lemma trim_idempotent (s : jsstring) : trim (trim s) = trim s.
Proof.
  assert (Hstart : trim_start (trim s) = trim s).
  { apply trim_start_fixed. intros c r. apply trim_head. }
  unfold trim at 1. rewrite Hstart. unfold trim_end.
  rewrite trim_start_fixed; [apply rev_involutive |].
  intros c r Hr. apply (trim_last s c (rev r)).
  rewrite <- (rev_involutive (trim s)), Hr. reflexivity.
Qed.

End TrimMore.

(* ===================================================================== *)
(** * More about the submission, the wrapper and the support message      *)
(* ===================================================================== *)

Section SubmissionMore.
Context (h : Host) (fetch : Api.Fetch).

Lemma submit_sends (s : App.RepairState) :
  App.submit_blocked s = false ->
  exists rest,
    snd (App.submit h fetch s)
    = App.EvFetch (Api.createRequest_req h (App.submit_payload s)) :: rest.
Proof.
  intros Hrun. unfold App.submit. rewrite Hrun.
  destruct (Api.createRequest h fetch (App.submit_payload s)) as [created | e].
  - destruct created; try destruct (ToString h _); eexists; reflexivity.
  - eexists; reflexivity.
Qed.

(** X11. Whatever [submit] sends is a well-formed request: the customer
    name is trimmed and has two characters or more, the phone is trimmed
    and still holds seven digits or more, the agreement flag is true, and
    the centre is the number the selected id coerces to. *)
Theorem submit_payload_well_formed (s : App.RepairState) :
  snd (App.submit h fetch s) <> [] ->
  exists name phone center rest,
    snd (App.submit h fetch s)
      = App.EvFetch (Api.createRequest_req h (App.submit_payload s)) :: rest
    /\ get (App.submit_payload s) "customer_name" = VStr name
    /\ trim name = name /\ (2 <= length name)%nat
    /\ get (App.submit_payload s) "customer_phone" = VStr phone
    /\ trim phone = phone /\ (7 <= length (List.filter is_digit phone))%nat
    /\ get (App.submit_payload s) "agree_to_offer" = VBool true
    /\ App.selectedCenterId s = Some center /\ center <> []
    /\ get (App.submit_payload s) "center" = VNum (StringToNumber center).
Proof.
  intros Hsent.
  destruct (App.submit_blocked s) eqn:Hb.
  { exfalso. apply Hsent. unfold App.submit. now rewrite Hb. }
  destruct (submit_sends s Hb) as [rest Hrest].
  unfold App.submit_blocked in Hb.
  rewrite !orb_false_iff, !negb_false_iff in Hb.
  destruct Hb as (((((Hc & _) & Hn) & Hp) & _) & _).
  destruct (App.selectedCenterId s) as [[| c cs] |] eqn:Hsel; try discriminate Hc.
  exists (trim (App.name s)), (trim (App.phone s)), (c :: cs), rest.
  split; [exact Hrest |].
  split; [unfold App.submit_payload; reflexivity |].
  split; [apply trim_idempotent |].
  split; [apply Nat.leb_le, Hn |].
  split; [unfold App.submit_payload; reflexivity |].
  split; [apply trim_idempotent |].
  split; [rewrite filter_digit_trim; apply Nat.leb_le, Hp |].
  split; [unfold App.submit_payload; reflexivity |].
  split; [reflexivity |].
  split; [discriminate |].
  unfold App.submit_payload. rewrite Hsel. reflexivity.
Qed.

(** X12. [submit] sends a request exactly when the dialog may be opened
    and the confirm button is enabled; with the button enabled it still
    does nothing when the centre, brand or model selection is missing. *)
Theorem submit_sends_iff_enabled (s : App.RepairState) :
  snd (App.submit h fetch s) = []
  <-> Repair.canOpenDialog s = false \/ Repair.confirm_disabled s = true.
Proof.
  assert (Hb : App.submit_blocked s
               = negb (Repair.canOpenDialog s && negb (Repair.confirm_disabled s))).
  { unfold App.submit_blocked, Repair.canOpenDialog, Repair.confirm_disabled.
    destruct (App.not_str (App.selectedCenterId s)), (App.agree s), (App.nameOk s),
      (App.phoneOk s), (App.not_id (App.brandId s)), (App.not_id (App.modelId s));
      reflexivity. }
  split.
  - intros Hnone.
    destruct (App.submit_blocked s) eqn:Hblk.
    + symmetry in Hb. apply negb_true_iff, andb_false_iff in Hb.
      destruct Hb as [Hb | Hb]; [now left | right].
      now apply negb_false_iff in Hb.
    + destruct (submit_sends s Hblk) as [rest Hrest]. congruence.
  - intros Hor. unfold App.submit.
    assert (Hblk : App.submit_blocked s = true).
    { rewrite Hb. apply negb_true_iff, andb_false_iff.
      destruct Hor as [H | H]; [now left | right; now rewrite H]. }
    now rewrite Hblk.
Qed.

(** X13. For a draft that [submit] lets through and a request the
    network answers: an ok response resets the draft, whatever its body;
    a response that is not ok leaves the draft as it was and raises the
    alert with the message of the wrapper; a transport failure leaves the
    draft as it was and raises the alert with its error. *)
Theorem submit_by_response (s : App.RepairState) :
  App.submit_blocked s = false ->
  (forall res,
     fetch (Api.createRequest_req h (App.submit_payload s)) = Resolved res ->
     (Api.ok res = true -> fst (App.submit h fetch s) = App.reset_draft s)
     /\ (Api.ok res = false ->
         App.submit h fetch s
         = (s, [ App.EvFetch (Api.createRequest_req h (App.submit_payload s));
                 App.EvAlertCreateFailed
                   (ErrorObj (Api.message_text h
                      (Spec.error_choice (Api.parse_body h (Api.text res))
                                         (Api.statusText res)))) ])))
  /\ (forall e,
        fetch (Api.createRequest_req h (App.submit_payload s)) = Rejected e ->
        App.submit h fetch s
        = (s, [ App.EvFetch (Api.createRequest_req h (App.submit_payload s));
                App.EvAlertCreateFailed e ])).
Proof.
  intros Hrun. unfold App.submit, Api.createRequest, Api.http, Api.http_response.
  rewrite Hrun. split.
  - intros res ->. split.
    + intros ->. simpl.
      destruct (Api.parse_body h (Api.text res)); try destruct (ToString h _);
        reflexivity.
    + intros ->. simpl. now rewrite error_value_choice.
  - intros e ->. reflexivity.
Qed.

(** X14. The error of a response that is not ok never has an empty
    message, as long as the serialiser gives no empty text for a truthy
    value. *)
Theorem http_error_message_nonempty (req : Api.Request) (res : Api.Response) :
  (forall v, truthy v = true -> JSON_stringify h v <> []) ->
  fetch req = Resolved res -> Api.ok res = false ->
  exists m, Api.http h fetch req = Rejected (ErrorObj m) /\ m <> [].
Proof.
  intros Hser Hres Hok. unfold Api.http, Api.http_response.
  rewrite Hres, Hok. simpl. eexists. split; [reflexivity |].
  rewrite error_value_choice.
  set (data := Api.parse_body h (Api.text res)).
  assert (Ht : truthy (Spec.error_choice data (Api.statusText res)) = true).
  { unfold Spec.error_choice.
    destruct (truthy (get data "detail")) eqn:H1; [exact H1 |].
    destruct (truthy (get data "error")) eqn:H2; [exact H2 |].
    destruct (truthy (get data "message")) eqn:H3; [exact H3 |].
    destruct (Api.statusText res); reflexivity. }
  destruct (Spec.error_choice data (Api.statusText res)) as [| | b | n | m | l | ps] eqn:Hc;
    simpl; try (apply Hser; exact Ht).
  destruct m; [discriminate Ht | discriminate].
Qed.

End SubmissionMore.

Lemma submit_payload_well_formed_witness :
  snd (App.submit Sample.host Sample.fetch_ok Sample.draft) <> []
  /\ get (App.submit_payload Sample.draft) "customer_name" = VStr (js "Ann")
  /\ get (App.submit_payload Sample.draft) "center" = VNum (Fin 3).
Proof.
  assert (Hs : snd (App.submit Sample.host Sample.fetch_ok Sample.draft) <> [])
    by (vm_compute; discriminate).
  destruct (submit_payload_well_formed Sample.host Sample.fetch_ok Sample.draft Hs)
    as (name & phone & center & rest & _ & Hn & _).
  split; [exact Hs |]. split; vm_compute; reflexivity.
Defined.

Lemma submit_by_response_witness :
  App.submit_blocked Sample.draft = false
  /\ fst (App.submit Sample.host Sample.fetch_ok Sample.draft)
     = App.reset_draft Sample.draft
  /\ fst (App.submit Sample.host Sample.fetch_fail Sample.draft) = Sample.draft.
Proof.
  assert (Hrun : App.submit_blocked Sample.draft = false) by (vm_compute; reflexivity).
  destruct (submit_by_response Sample.host Sample.fetch_ok Sample.draft Hrun)
    as [Hok _].
  destruct (submit_by_response Sample.host Sample.fetch_fail Sample.draft Hrun)
    as [Hbad _].
  split; [exact Hrun |]. split.
  - apply (proj1 (Hok Sample.response_created eq_refl)). reflexivity.
  - rewrite (proj2 (Hbad Sample.response_failed eq_refl) eq_refl). reflexivity.
Defined.

Lemma http_error_message_nonempty_witness :
  (forall v, truthy v = true -> JSON_stringify Sample.host v <> [])
  /\ exists m,
       Api.http Sample.host Sample.fetch_fail (Api.createRequest_req Sample.host VNull)
       = Rejected (ErrorObj m) /\ m <> [].
Proof.
  assert (Hser : forall v, truthy v = true -> JSON_stringify Sample.host v <> [])
    by (intros v _; vm_compute; discriminate).
  split; [exact Hser |].
  apply (http_error_message_nonempty Sample.host Sample.fetch_fail
           (Api.createRequest_req Sample.host VNull) Sample.response_failed Hser);
    reflexivity.
Defined.

Section SendMore.
Context (h : Host) (fetch : Api.Fetch).

(** X15. Whatever [send] sends names a request id that is a truthy number
    and a text that is trimmed and not empty; and once [send] has made
    its call the form is no longer busy. *)
Theorem send_payload_well_formed (s : App.SupportState) (req : Api.Request) :
  In req (snd (App.send h fetch s)) ->
  (exists n t,
     req = Api.createSupportMessage_req h
             (VObj [ (js "repair_request", VNum n); (js "text", VStr t) ])
     /\ n = StringToNumber (App.rid s) /\ num_truthy n = true
     /\ t <> [] /\ trim t = t)
  /\ App.busy (fst (App.send h fetch s)) = false.
Proof.
  unfold App.send.
  destruct (num_truthy (StringToNumber (App.rid s))) eqn:Hid; simpl;
    [| intros []].
  destruct (trim (App.text s)) as [| c t] eqn:Ht; [intros [] |].
  assert (Hreq : In req [Api.createSupportMessage_req h
            (App.send_payload (StringToNumber (App.rid s)) (App.text s))] ->
          exists n t0,
            req = Api.createSupportMessage_req h
                    (VObj [ (js "repair_request", VNum n); (js "text", VStr t0) ])
            /\ n = StringToNumber (App.rid s) /\ num_truthy n = true
            /\ t0 <> [] /\ trim t0 = t0).
  { intros [<- | []]. exists (StringToNumber (App.rid s)), (trim (App.text s)).
    split; [reflexivity |]. split; [reflexivity |]. split; [exact Hid |].
    split; [rewrite Ht; discriminate | apply trim_idempotent]. }
  destruct (Api.createSupportMessage h fetch
              (App.send_payload (StringToNumber (App.rid s)) (App.text s)));
    simpl; intros Hin; (split; [apply Hreq, Hin | reflexivity]).
Qed.

(** X16. For a form that [send] lets through and a request the network
    answers: an ok response empties the text and shows the sent toast; a
    response that is not ok keeps the text and shows the wrapper's
    message without its surrounding double quotes behind the error
    prefix. *)
Theorem send_by_response (s : App.SupportState) (res : Api.Response) :
  num_truthy (StringToNumber (App.rid s)) = true ->
  trim (App.text s) <> [] ->
  fetch (Api.createSupportMessage_req h
           (App.send_payload (StringToNumber (App.rid s)) (App.text s)))
    = Resolved res ->
  (Api.ok res = true ->
   App.text (fst (App.send h fetch s)) = []
   /\ App.toast (fst (App.send h fetch s)) = Some App.ToastSent)
  /\ (Api.ok res = false ->
      App.text (fst (App.send h fetch s)) = App.text s
      /\ App.toast (fst (App.send h fetch s))
         = Some (App.ToastError
                   (strip_quotes
                      (Api.message_text h
                         (Spec.error_choice (Api.parse_body h (Api.text res))
                                            (Api.statusText res)))))).
Proof.
  intros Hid Ht Hres.
  unfold App.send, Api.createSupportMessage, Api.http, Api.http_response.
  rewrite Hid, Hres. simpl.
  destruct (trim (App.text s)) as [| c t] eqn:Htrim; [contradiction |].
  split; intros ->; simpl; [split; reflexivity |].
  rewrite error_value_choice. split; reflexivity.
Qed.

End SendMore.

Lemma send_payload_well_formed_witness :
  In (Api.createSupportMessage_req Sample.host
        (VObj [ (js "repair_request", VNum (Fin 42));
                (js "text", VStr (js "where is my phone")) ]))
     (snd (App.send Sample.host Sample.fetch_ok Sample.support_form))
  /\ App.busy (fst (App.send Sample.host Sample.fetch_ok Sample.support_form)) = false.
Proof.
  assert (Hin : In (Api.createSupportMessage_req Sample.host
        (VObj [ (js "repair_request", VNum (Fin 42));
                (js "text", VStr (js "where is my phone")) ]))
     (snd (App.send Sample.host Sample.fetch_ok Sample.support_form)))
    by (left; vm_compute; reflexivity).
  split; [exact Hin |].
  apply (send_payload_well_formed Sample.host Sample.fetch_ok Sample.support_form _ Hin).
Defined.

Lemma send_by_response_witness :
  num_truthy (StringToNumber (App.rid Sample.support_form)) = true
  /\ App.text (fst (App.send Sample.host Sample.fetch_ok Sample.support_form)) = []
  /\ App.toast (fst (App.send Sample.host Sample.fetch_fail Sample.support_form))
     = Some (App.ToastError (js "Bad Request")).
Proof.
  assert (Hid : num_truthy (StringToNumber (App.rid Sample.support_form)) = true)
    by (vm_compute; reflexivity).
  assert (Ht : trim (App.text Sample.support_form) <> []) by (vm_compute; discriminate).
  destruct (send_by_response Sample.host Sample.fetch_ok Sample.support_form
              Sample.response_created Hid Ht eq_refl) as [Hok _].
  destruct (send_by_response Sample.host Sample.fetch_fail Sample.support_form
              Sample.response_failed Hid Ht eq_refl) as [_ Hbad].
  split; [exact Hid |]. split.
  - apply (proj1 (Hok eq_refl)).
  - rewrite (proj2 (Hbad eq_refl)). vm_compute. reflexivity.
Defined.

(* ===================================================================== *)
(** * The base address and the URL of a call                              *)
(* ===================================================================== *)

Section UrlFacts.
Import ApiUrl.

Lemma strip_leading_slashes_head (path : jsstring) :
  head (strip_leading_slashes path) <> Some slash.
Proof.
  induction path as [| c r IH]; simpl; [discriminate |].
  destruct (N.eqb c slash) eqn:Hc; [exact IH |].
  simpl. intros [= ->]. now rewrite N.eqb_refl in Hc.
Qed.

Lemma last_rev_head {A : Type} (l : list A) : last (rev l) = head l.
Proof.
  destruct l as [| x l]; [reflexivity |].
  simpl. apply last_snoc.
Qed.

Lemma strip_trailing_slashes_last (b : jsstring) :
  last (strip_trailing_slashes b) <> Some slash.
Proof.
  unfold strip_trailing_slashes. rewrite last_rev_head.
  apply strip_leading_slashes_head.
Qed.

Lemma strip_leading_slashes_more (n : nat) (path : jsstring) :
  strip_leading_slashes (List.repeat slash n ++ path) = strip_leading_slashes path.
Proof. induction n as [| n IH]; [reflexivity | exact IH]. Qed.

Lemma normalizeBase_last (window_origin base : option jsstring) :
  last (normalizeBase window_origin base) <> Some slash.
Proof.
  unfold normalizeBase.
  destruct (trim (default [] base)) as [| c r] eqn:Ht.
  - destruct window_origin as [o |]; [| vm_compute; discriminate].
    change (js "/api") with ([47; 97; 112]%N ++ [105%N]).
    rewrite app_assoc, last_snoc. discriminate.
  - apply strip_trailing_slashes_last.
Qed.

(** X17. The base address never ends with a slash, whatever the
    configured value and the page origin are; white space around the
    configured value is ignored; and without a (non-blank) configured
    value the base is the page origin followed by /api, or /api alone. *)
Theorem normalizeBase_shape (window_origin : option jsstring) (base : jsstring) :
  (forall b, last (normalizeBase window_origin b) <> Some slash)
  /\ normalizeBase window_origin (Some (trim base))
     = normalizeBase window_origin (Some base)
  /\ (trim base = [] ->
      normalizeBase window_origin (Some base) = normalizeBase window_origin None
      /\ normalizeBase window_origin None
         = default [] window_origin ++ js "/api").
Proof.
  split; [| split].
  - intros b. apply normalizeBase_last.
  - unfold normalizeBase. simpl. now rewrite trim_idempotent.
  - intros Ht. unfold normalizeBase. simpl. rewrite Ht.
    split; [reflexivity |]. destruct window_origin; reflexivity.
Qed.

Lemma normalizeBase_shape_witness :
  trim (js "  ") = []
  /\ normalizeBase (Some (js "https://fix.net")) (Some (js "  "))
     = js "https://fix.net/api"
  /\ normalizeBase None (Some (js " https://api.fix.net/v1// "))
     = js "https://api.fix.net/v1".
Proof.
  assert (Ht : trim (js "  ") = []) by (vm_compute; reflexivity).
  destruct (normalizeBase_shape (Some (js "https://fix.net")) (js "  "))
    as (_ & _ & Hblank).
  destruct (Hblank Ht) as [H1 H2].
  split; [exact Ht |]. split.
  - rewrite H1, H2. reflexivity.
  - vm_compute. reflexivity.
Defined.

(** X18. The URL of a call is the base, one slash, and the path without
    its leading slashes: with a normalised base there is exactly one
    slash at the joint, and leading slashes of the path make no
    difference. *)
Theorem url_joint (window_origin base : option jsstring) (path : jsstring) (n : nat) :
  url (normalizeBase window_origin base) path
    = normalizeBase window_origin base ++ [slash] ++ strip_leading_slashes path
  /\ last (normalizeBase window_origin base) <> Some slash
  /\ head (strip_leading_slashes path) <> Some slash
  /\ url (normalizeBase window_origin base) (List.repeat slash n ++ path)
     = url (normalizeBase window_origin base) path.
Proof.
  split; [reflexivity |]. split; [| split].
  - apply normalizeBase_last.
  - apply strip_leading_slashes_head.
  - unfold url. now rewrite strip_leading_slashes_more.
Qed.

End UrlFacts.

(* ===================================================================== *)
(** * Tracking                                                            *)
(* ===================================================================== *)

Section TrackingFacts.
Context (h : Host) (fetch : Api.Fetch).

(** X19. [load] does nothing for an empty id.  For any other id, white
    space included, it sends one GET; an ok response replaces the data
    shown with the parsed body, and a response that is not ok or a
    transport failure leaves the data shown as it was and raises the
    alert.  The id typed in is never changed. *)
Theorem load_outcome (s : Tracking.State) :
  (Tracking.id s = [] -> Tracking.load h fetch s = (s, []))
  /\ (Tracking.id s <> [] ->
      (forall res,
         fetch (ApiUrl.fetchRequestById_req (Tracking.id s)) = Resolved res ->
         (Api.ok res = true ->
          Tracking.load h fetch s
          = ({| Tracking.id := Tracking.id s;
                Tracking.data := Api.parse_body h (Api.text res) |},
             [Tracking.EvFetch (ApiUrl.fetchRequestById_req (Tracking.id s))]))
         /\ (Api.ok res = false ->
             exists e,
               Tracking.load h fetch s
               = (s, [Tracking.EvFetch (ApiUrl.fetchRequestById_req (Tracking.id s));
                      Tracking.EvAlertNotFound e])))
      /\ (forall e,
            fetch (ApiUrl.fetchRequestById_req (Tracking.id s)) = Rejected e ->
            Tracking.load h fetch s
            = (s, [Tracking.EvFetch (ApiUrl.fetchRequestById_req (Tracking.id s));
                   Tracking.EvAlertNotFound e])))
  /\ Tracking.id (fst (Tracking.load h fetch s)) = Tracking.id s.
Proof.
  unfold Tracking.load, ApiUrl.fetchRequestById, Api.http, Api.http_response.
  split; [| split].
  - now intros ->.
  - intros Hne. destruct (Tracking.id s) as [| c r] eqn:Hid; [contradiction |].
    split.
    + intros res ->. split; intros ->; simpl; [reflexivity |].
      eexists. reflexivity.
    + intros e ->. reflexivity.
  - destruct (Tracking.id s) as [| c r] eqn:Hid; [exact Hid |].
    destruct (fetch _) as [res | e]; [| exact Hid].
    destruct (Api.ok res); simpl; [reflexivity | exact Hid].
Qed.

End TrackingFacts.

Lemma load_outcome_witness :
  Tracking.id Sample2.tracking_form <> []
  /\ Tracking.data (fst (Tracking.load Sample.host Sample.fetch_ok Sample2.tracking_form))
     = VNum (Fin 42)
  /\ Tracking.data (fst (Tracking.load Sample.host Sample.fetch_fail Sample2.tracking_form))
     = VStr (js "old").
Proof.
  assert (Hne : Tracking.id Sample2.tracking_form <> []) by (vm_compute; discriminate).
  destruct (load_outcome Sample.host Sample.fetch_ok Sample2.tracking_form)
    as (_ & Hok & _).
  destruct (load_outcome Sample.host Sample.fetch_fail Sample2.tracking_form)
    as (_ & Hbad & _).
  destruct (Hok Hne) as [Hok' _]. destruct (Hbad Hne) as [Hbad' _].
  split; [exact Hne |]. split.
  - rewrite (proj1 (Hok' Sample.response_created eq_refl) eq_refl). reflexivity.
  - destruct (proj2 (Hbad' Sample.response_failed eq_refl) eq_refl) as [e He].
    rewrite He. reflexivity.
Defined.

(* ===================================================================== *)
(** * The issues effect                                                   *)
(* ===================================================================== *)

Section IssuesFacts.

Lemma find_existsb {A : Type} (f : A -> bool) (l : list A) :
  existsb f l = match List.find f l with Some _ => true | None => false end.
Proof.
  induction l as [| x l IH]; simpl; [reflexivity |].
  destruct (f x); [reflexivity | exact IH].
Qed.

(** X20. What the issues effect does to the pair (issues, selected code).
    It changes nothing when the request fails, when the reply holds no
    array, an empty array, or an array with a [null] element.  Otherwise
    the issues become the records of the reply, and the selected code is
    kept when the reply lists the code [screen] (the code the effect closed
    over when it was set up) and is set to [screen] when it does not:
    whatever code is selected by then.  The list of issues is never
    emptied. *)
Theorem issues_effect_invariants (st : list Repair.Issue * jsstring)
    (reply : Outcome value) :
  (forall e, reply = Rejected e -> Repair.issues_effect st reply = st)
  /\ (forall d, reply = Resolved d -> App.isArray (App.issues_arr d) = false ->
        Repair.issues_effect st reply = st)
  /\ (forall d, reply = Resolved d -> App.issues_arr d = VArr [] ->
        Repair.issues_effect st reply = st)
  /\ (forall d arr, reply = Resolved d -> App.issues_arr d = VArr arr ->
        existsb Repair.nullish arr = true -> Repair.issues_effect st reply = st)
  /\ (forall d arr, reply = Resolved d -> App.issues_arr d = VArr arr ->
        arr <> [] -> existsb Repair.nullish arr = false ->
        fst (Repair.issues_effect st reply)
        = List.map (fun i => {| Repair.code := get i "code";
                                Repair.name := get i "name" |}) arr
        /\ snd (Repair.issues_effect st reply)
           = if existsb (fun i => Repair.is_string (get i "code") (js "screen")) arr
             then snd st else js "screen")
  /\ (fst st <> [] -> fst (Repair.issues_effect st reply) <> []).
Proof.
  split; [| split; [| split; [| split; [| split]]]].
  - intros e ->. reflexivity.
  - intros d -> Harr. simpl. unfold Repair.issues_then.
    destruct (App.issues_arr d) as [| | | | | [| x l] |]; try reflexivity;
      discriminate Harr.
  - intros d -> Harr. simpl. unfold Repair.issues_then. now rewrite Harr.
  - intros d arr -> Harr Hnull. simpl. unfold Repair.issues_then. rewrite Harr.
    destruct arr as [| x l]; [reflexivity |]. now rewrite Hnull.
  - intros d arr -> Harr Hne Hnull. simpl. unfold Repair.issues_then. rewrite Harr.
    destruct arr as [| x l]; [contradiction |]. rewrite Hnull. cbn [fst snd].
    split; [reflexivity |].
    rewrite (find_existsb (fun i => Repair.is_string (get i "code") (js "screen"))).
    unfold Repair.lists_code_at_mount, Repair.issueCode_at_mount.
    destruct (List.find _ (x :: l)); reflexivity.
  - intros Hne. destruct reply as [d | e]; [| exact Hne].
    simpl. unfold Repair.issues_then.
    destruct (App.issues_arr d) as [| | | | | [| x l] |]; try exact Hne.
    destruct (existsb Repair.nullish (x :: l)); [exact Hne |].
    simpl. discriminate.
Qed.

Lemma issues_effect_invariants_witness :
  App.issues_arr Sample2.issues_reply
    = VArr [ VObj [ (js "code", VStr (js "glass")); (js "name", VStr (js "Glass")) ];
             VObj [ (js "code", VStr (js "battery")); (js "name", VStr (js "Battery")) ] ]
  /\ Repair.issues_effect (Repair.ISSUES_PRESET, js "water")
       (Resolved Sample2.issues_reply)
     = ([ {| Repair.code := VStr (js "glass"); Repair.name := VStr (js "Glass") |};
          {| Repair.code := VStr (js "battery"); Repair.name := VStr (js "Battery") |} ],
        js "screen")
  /\ snd (Repair.issues_effect (Repair.ISSUES_PRESET, js "water")
            (Resolved Sample2.issues_reply_screen)) = js "water"
  /\ Repair.issues_effect (Repair.ISSUES_PRESET, js "water")
       (Resolved (VArr [VNull])) = (Repair.ISSUES_PRESET, js "water").
Proof.
  assert (Harr : App.issues_arr Sample2.issues_reply
    = VArr [ VObj [ (js "code", VStr (js "glass")); (js "name", VStr (js "Glass")) ];
             VObj [ (js "code", VStr (js "battery")); (js "name", VStr (js "Battery")) ] ])
    by (vm_compute; reflexivity).
  split; [exact Harr |].
  destruct (issues_effect_invariants (Repair.ISSUES_PRESET, js "water")
              (Resolved Sample2.issues_reply)) as (_ & _ & _ & _ & Hnew & _).
  destruct (Hnew _ _ eq_refl Harr ltac:(discriminate) ltac:(vm_compute; reflexivity))
    as [Hfst Hsnd].
  split.
  - rewrite (surjective_pairing (Repair.issues_effect _ _)), Hfst, Hsnd.
    vm_compute. reflexivity.
  - destruct (issues_effect_invariants (Repair.ISSUES_PRESET, js "water")
                (Resolved Sample2.issues_reply_screen)) as (_ & _ & _ & _ & Hkeep & _).
    destruct (Hkeep _ _ eq_refl ltac:(vm_compute; reflexivity) ltac:(discriminate)
                ltac:(vm_compute; reflexivity)) as [_ Hs].
    destruct (issues_effect_invariants (Repair.ISSUES_PRESET, js "water")
                (Resolved (VArr [VNull]))) as (_ & _ & _ & Hnull & _).
    split; [rewrite Hs; vm_compute; reflexivity |].
    apply (Hnull _ [VNull] eq_refl); vm_compute; reflexivity.
Defined.

End IssuesFacts.

(* ===================================================================== *)
(** * The markers of the map                                              *)
(* ===================================================================== *)

Section MarkerFacts.
Context (h : Host).

Lemma add_markers_old (points : list MapView.Point) (m : gmap jsstring MapView.Point)
    (k : jsstring) (p : MapView.Point) :
  m !! k = Some p -> fold_left (MapView.add_marker h) points m !! k = Some p.
Proof.
  revert m. induction points as [| q points IH]; intros m Hk; [exact Hk |].
  simpl. apply IH. unfold MapView.add_marker.
  destruct (m !! MapView.id_string h q) eqn:Hq; [exact Hk |].
  rewrite lookup_insert_ne; [exact Hk |]. intros Heq. congruence.
Qed.

Lemma add_markers_source (points : list MapView.Point) (m : gmap jsstring MapView.Point)
    (k : jsstring) (p : MapView.Point) :
  fold_left (MapView.add_marker h) points m !! k = Some p ->
  m !! k = Some p \/ (In p points /\ MapView.id_string h p = k).
Proof.
  revert m. induction points as [| q points IH]; intros m Hk; [now left |].
  simpl in Hk. apply IH in Hk as [Hk | [Hin Hid]].
  - unfold MapView.add_marker in Hk.
    destruct (m !! MapView.id_string h q) eqn:Hq; [now left |].
    destruct (decide (MapView.id_string h q = k)) as [<- | Hne].
    + rewrite lookup_insert_eq in Hk. injection Hk as <-.
      right. split; [now left | reflexivity].
    + rewrite lookup_insert_ne in Hk by exact Hne. now left.
  - right. split; [now right | exact Hid].
Qed.

Lemma add_markers_covers (points : list MapView.Point) (m : gmap jsstring MapView.Point)
    (q : MapView.Point) :
  In q points -> is_Some (fold_left (MapView.add_marker h) points m !! MapView.id_string h q).
Proof.
  revert m. induction points as [| q' points IH]; intros m Hin; [destruct Hin |].
  simpl. destruct Hin as [-> | Hin]; [| now apply IH].
  unfold MapView.add_marker.
  destruct (m !! MapView.id_string h q) as [p |] eqn:Hq.
  - exists p. now apply add_markers_old.
  - exists q. apply add_markers_old. apply lookup_insert_eq.
Qed.

(** X21. After the markers are synchronised with the points, the ids
    with a marker are exactly the ids of the points.  A marker that was
    there for one of these ids is kept as it was, also when the point of
    that id now has other coordinates; any other marker is made from a
    point of its id. *)
Theorem sync_markers_keys (existing : gmap jsstring MapView.Point)
    (points : list MapView.Point) (k : jsstring) :
  (is_Some (MapView.sync_markers h true existing points !! k)
   <-> In k (List.map (MapView.id_string h) points))
  /\ (forall p, existing !! k = Some p ->
        In k (List.map (MapView.id_string h) points) ->
        MapView.sync_markers h true existing points !! k = Some p)
  /\ (forall p, MapView.sync_markers h true existing points !! k = Some p ->
        existing !! k = Some p \/ (In p points /\ MapView.id_string h p = k))
  /\ MapView.sync_markers h false existing points = existing.
Proof.
  unfold MapView.sync_markers. cbv zeta.
  set (ids := list_to_set (List.map (MapView.id_string h) points) : gset jsstring).
  assert (Hids : forall x, x ∈ ids <-> In x (List.map (MapView.id_string h) points)).
  { intros x. unfold ids. rewrite elem_of_list_to_set. apply list_elem_of_In. }
  split; [| split; [| split]].
  - split.
    + intros [p Hp]. apply add_markers_source in Hp as [Hp | [Hin Hid]].
      * apply map_lookup_filter_Some in Hp as [_ Hp]. now apply Hids.
      * subst k. now apply List.in_map.
    + intros Hin. apply List.in_map_iff in Hin as (q & <- & Hq).
      now apply add_markers_covers.
  - intros p Hp Hin. apply add_markers_old.
    apply map_lookup_filter_Some. split; [exact Hp | now apply Hids].
  - intros p Hp. apply add_markers_source in Hp as [Hp | Hp]; [| now right].
    apply map_lookup_filter_Some in Hp as [Hp _]. now left.
  - reflexivity.
Qed.

End MarkerFacts.

Lemma sync_markers_keys_witness :
  ({[ js "a" := Sample2.point_a ]} : gmap jsstring MapView.Point) !! js "a"
    = Some Sample2.point_a
  /\ MapView.sync_markers Sample.host true {[ js "a" := Sample2.point_a ]}
       [Sample2.point_a_moved; Sample2.point_b] !! js "a"
     = Some Sample2.point_a
  /\ is_Some (MapView.sync_markers Sample.host true {[ js "a" := Sample2.point_a ]}
                [Sample2.point_a_moved; Sample2.point_b] !! js "b").
Proof.
  assert (Ha : ({[ js "a" := Sample2.point_a ]} : gmap jsstring MapView.Point) !! js "a"
               = Some Sample2.point_a) by apply lookup_singleton_eq.
  destruct (sync_markers_keys Sample.host {[ js "a" := Sample2.point_a ]}
              [Sample2.point_a_moved; Sample2.point_b] (js "a")) as (_ & Hkeep & _).
  destruct (sync_markers_keys Sample.host {[ js "a" := Sample2.point_a ]}
              [Sample2.point_a_moved; Sample2.point_b] (js "b")) as (Hdom & _).
  split; [exact Ha |]. split.
  - apply (Hkeep _ Ha). left. reflexivity.
  - apply Hdom. right. left. reflexivity.
Defined.

(* ===================================================================== *)
(** * classNames                                                          *)
(* ===================================================================== *)

Section ClassNamesFacts.
Import Ui.

Lemma filter_Boolean_app (xs ys : list (option jsstring)) :
  filter_Boolean (xs ++ ys) = filter_Boolean xs ++ filter_Boolean ys.
Proof.
  induction xs as [| [[| c s] |] xs IH]; simpl; try exact IH; [reflexivity |].
  now rewrite IH.
Qed.

Lemma filter_Boolean_nonempty (xs : list (option jsstring)) :
  Forall (fun p => p <> []) (filter_Boolean xs).
Proof.
  induction xs as [| [[| c s] |] xs IH]; simpl; try exact IH.
  - constructor.
  - constructor; [discriminate | exact IH].
Qed.

Lemma join_space_nil (parts : list jsstring) :
  Forall (fun p => p <> []) parts -> join_space parts = [] -> parts = [].
Proof.
  destruct parts as [| p ps]; [reflexivity |].
  intros Hall Hj. inversion Hall as [| ? ? Hp _]; subst.
  destruct p as [| c p]; [contradiction |].
  destruct ps; simpl in Hj; discriminate Hj.
Qed.

Lemma join_space_app (a b : list jsstring) :
  a <> [] -> b <> [] ->
  join_space (a ++ b) = join_space a ++ [space] ++ join_space b.
Proof.
  intros Ha Hb. induction a as [| p a IH]; [contradiction |].
  destruct a as [| q a].
  - simpl. destruct b; [contradiction | reflexivity].
  - change (join_space ((p :: q :: a) ++ b))
      with (p ++ [space] ++ join_space ((q :: a) ++ b)).
    rewrite IH by discriminate.
    change (join_space (p :: q :: a)) with (p ++ [space] ++ join_space (q :: a)).
    now rewrite <- !app_assoc.
Qed.

Lemma classNames_concat (xs ys : list (option jsstring)) :
  classNames (xs ++ ys)
  = match classNames xs, classNames ys with
    | [], r => r
    | l, [] => l
    | l, r => l ++ [space] ++ r
    end.
Proof.
  unfold classNames. rewrite filter_Boolean_app.
  pose proof (filter_Boolean_nonempty xs) as Hx.
  pose proof (filter_Boolean_nonempty ys) as Hy.
  destruct (join_space (filter_Boolean xs)) as [| c l] eqn:Hjx.
  - apply join_space_nil in Hjx; [| exact Hx]. now rewrite Hjx.
  - destruct (join_space (filter_Boolean ys)) as [| d r] eqn:Hjy.
    + apply join_space_nil in Hjy; [| exact Hy].
      now rewrite Hjy, app_nil_r, Hjx.
    + rewrite join_space_app, Hjx, Hjy; [reflexivity | |].
      * intros E. now rewrite E in Hjx.
      * intros E. now rewrite E in Hjy.
Qed.

(** X22. The class string: empty for no argument, the class itself for
    one class; an argument that is false, undefined or the empty string
    leaves no trace wherever it stands; the string of two argument lists
    put together is the other one when one is empty and the two with one
    space between them otherwise, so that a class in front is followed by
    one space and the string of the rest, or by nothing. *)
Theorem classNames_app (xs ys : list (option jsstring)) :
  classNames [] = []
  /\ (forall c s, classNames [Some (c :: s)] = c :: s)
  /\ classNames (xs ++ None :: ys) = classNames (xs ++ ys)
  /\ classNames (xs ++ Some [] :: ys) = classNames (xs ++ ys)
  /\ classNames (xs ++ ys)
     = match classNames xs, classNames ys with
       | [], r => r
       | l, [] => l
       | l, r => l ++ [space] ++ r
       end
  /\ (forall c s,
        classNames (Some (c :: s) :: ys)
        = match classNames ys with
          | [] => c :: s
          | r => (c :: s) ++ [space] ++ r
          end).
Proof.
  split; [reflexivity |]. split; [reflexivity |].
  split; [unfold classNames; now rewrite !filter_Boolean_app |].
  split; [unfold classNames; now rewrite !filter_Boolean_app |].
  split; [apply classNames_concat |].
  intros c s.
  change (Some (c :: s) :: ys) with ([Some (c :: s)] ++ ys).
  rewrite classNames_concat.
  change (classNames [Some (c :: s)]) with (c :: s).
  destruct (classNames ys); reflexivity.
Qed.

Lemma classNames_app_witness :
  classNames [Some (js "btn"); None; Some []; Some (js "primary")] = js "btn primary"
  /\ classNames [None; Some []] = [].
Proof.
  destruct (classNames_app [Some (js "btn"); None] [Some []; Some (js "primary")])
    as (_ & _ & _ & _ & Happ & _).
  destruct (classNames_app [] [Some []]) as (Hnil & _ & Hnone & _).
  split.
  - change [Some (js "btn"); None; Some []; Some (js "primary")]
      with ([Some (js "btn"); None] ++ [Some []; Some (js "primary")]).
    rewrite Happ. vm_compute. reflexivity.
  - etransitivity; [exact Hnone | vm_compute; reflexivity].
Defined.

End ClassNamesFacts.

(* ===================================================================== *)
(** * The guard of the submission, exactly                                *)
(* ===================================================================== *)

Section GuardFacts.
Context (h : Host) (fetch : Api.Fetch).

Lemma short_phone_confirm_disabled :
  Repair.confirm_disabled Sample.draft_short_phone = true.
Proof. vm_compute. reflexivity. Qed.

Lemma nonws_count_le_length (s : jsstring) : (nonws_count s <= length s)%nat.
Proof. unfold nonws_count. apply List.filter_length_le. Qed.

Lemma nonws_trim_length (s : jsstring) :
  (2 <= nonws_count s)%nat -> (2 <= length (trim s))%nat.
Proof.
  intros H. rewrite <- nonws_count_trim in H.
  pose proof (nonws_count_le_length (trim s)). lia.
Qed.

(** X24. The name test of the form is exactly "two characters or more
    that are not white space", and the guard of [submit] lets a draft
    through exactly when the stated preconditions hold and, beyond them,
    the centre id is not the empty string and the brand and model ids are
    truthy numbers (neither 0 nor NaN). *)
Theorem submit_guard_exact (s : App.RepairState) :
  (App.nameOk s = true <-> (2 <= nonws_count (App.name s))%nat)
  /\ (App.submit_blocked s = false
      <-> Spec.preconditions s = true
          /\ App.not_str (App.selectedCenterId s) = false
          /\ App.not_id (App.brandId s) = false
          /\ App.not_id (App.modelId s) = false).
Proof.
  assert (Hname : App.nameOk s = true <-> (2 <= nonws_count (App.name s))%nat).
  { unfold App.nameOk. rewrite Nat.leb_le. split.
    - apply trim_length_nonws.
    - apply nonws_trim_length. }
  split; [exact Hname |]. split.
  - intros Hb. split; [now apply guard_preconditions |].
    unfold App.submit_blocked in Hb. rewrite !orb_false_iff in Hb. tauto.
  - intros (Hpre & Hc & Hbr & Hm).
    unfold Spec.preconditions in Hpre. rewrite !andb_true_iff in Hpre.
    destruct Hpre as (((((_ & Ha) & Hn) & Hp) & _) & _).
    apply Nat.leb_le, Hname in Hn.
    unfold App.submit_blocked, App.phoneOk, strip_non_digits.
    now rewrite Hc, Ha, Hn, Hp, Hbr, Hm.
Qed.

(** X23. The brand and model names of the request are looked up in the
    loaded lists by the selected ids: the name of the first entry with
    that id, and the empty string when no entry has it.  The guard does
    not look at the lists, so a draft whose selected ids are not in the
    lists is sent with empty names. *)
Theorem submit_payload_names (s : App.RepairState) (bi mi : num) :
  App.brandId s = Some bi -> App.modelId s = Some mi ->
  (forall pre b post,
     App.brands s = pre ++ b :: post ->
     (forall b', In b' pre -> num_eqb (Brand.id b') bi = false) ->
     num_eqb (Brand.id b) bi = true ->
     get (App.submit_payload s) "brand" = VStr (Brand.name b))
  /\ ((forall b', In b' (App.brands s) -> num_eqb (Brand.id b') bi = false) ->
      get (App.submit_payload s) "brand" = VStr [])
  /\ (forall pre m post,
        App.models s = pre ++ m :: post ->
        (forall m', In m' pre -> num_eqb (DeviceModel.id m') mi = false) ->
        num_eqb (DeviceModel.id m) mi = true ->
        get (App.submit_payload s) "model" = VStr (DeviceModel.name m))
  /\ ((forall m', In m' (App.models s) -> num_eqb (DeviceModel.id m') mi = false) ->
      get (App.submit_payload s) "model" = VStr []).
Proof.
  intros Hb Hm.
  assert (Hfind : forall (A : Type) (f : A -> bool) pre x post,
            (forall y, In y pre -> f y = false) -> f x = true ->
            List.find f (pre ++ x :: post) = Some x).
  { intros A f pre x post Hpre Hx. induction pre as [| y pre IH]; simpl.
    - now rewrite Hx.
    - rewrite (Hpre y) by now left. apply IH. intros z Hz. apply Hpre. now right. }
  assert (Hnone : forall (A : Type) (f : A -> bool) l,
            (forall y, In y l -> f y = false) -> List.find f l = None).
  { intros A f l Hl. induction l as [| y l IH]; simpl; [reflexivity |].
    rewrite (Hl y) by now left. apply IH. intros z Hz. apply Hl. now right. }
  split; [| split; [| split]].
  - intros pre b post Hl Hpre Hx.
    change (get (App.submit_payload s) "brand") with (VStr (App.selectedBrandName s)).
    unfold App.selectedBrandName. rewrite Hb, Hl.
    now rewrite (Hfind _ (fun b0 => num_eqb (Brand.id b0) bi) pre b post Hpre Hx).
  - intros Hall.
    change (get (App.submit_payload s) "brand") with (VStr (App.selectedBrandName s)).
    unfold App.selectedBrandName. rewrite Hb.
    now rewrite (Hnone _ (fun b0 => num_eqb (Brand.id b0) bi) _ Hall).
  - intros pre m post Hl Hpre Hx.
    change (get (App.submit_payload s) "model") with (VStr (App.selectedModelName s)).
    unfold App.selectedModelName. rewrite Hm, Hl.
    now rewrite (Hfind _ (fun m0 => num_eqb (DeviceModel.id m0) mi) pre m post Hpre Hx).
  - intros Hall.
    change (get (App.submit_payload s) "model") with (VStr (App.selectedModelName s)).
    unfold App.selectedModelName. rewrite Hm.
    now rewrite (Hnone _ (fun m0 => num_eqb (DeviceModel.id m0) mi) _ Hall).
Qed.

End GuardFacts.

Lemma submit_sends_iff_enabled_witness :
  Repair.confirm_disabled Sample.draft_short_phone = true
  /\ snd (App.submit Sample.host Sample.fetch_ok Sample.draft_short_phone) = [].
Proof.
  split; [exact short_phone_confirm_disabled |].
  apply (submit_sends_iff_enabled Sample.host Sample.fetch_ok Sample.draft_short_phone).
  right. exact short_phone_confirm_disabled.
Defined.

Lemma submit_guard_exact_witness :
  App.submit_blocked Sample.draft = false
  /\ Spec.preconditions Sample.draft = true
  /\ App.nameOk Sample.draft = true.
Proof.
  destruct (submit_guard_exact Sample.draft) as [Hname Hguard].
  assert (Hb : App.submit_blocked Sample.draft = false) by (vm_compute; reflexivity).
  split; [exact Hb |]. split.
  - apply (proj1 (proj1 Hguard Hb)).
  - apply Hname. vm_compute. lia.
Defined.

Lemma submit_payload_names_witness :
  App.brandId Sample.draft = Some (Fin 1)
  /\ App.modelId Sample.draft = Some (Fin 5)
  /\ get (App.submit_payload Sample.draft) "brand" = VStr (js "Apple")
  /\ get (App.submit_payload Sample.draft) "model" = VStr (js "iPhone 13").
Proof.
  destruct (submit_payload_names Sample.draft (Fin 1) (Fin 5) eq_refl eq_refl)
    as (Hb & _ & Hm & _).
  split; [reflexivity |]. split; [reflexivity |]. split.
  - apply (Hb [] {| Brand.id := Fin 1; Brand.name := js "Apple" |} []);
      [reflexivity | intros b' [] | reflexivity].
  - apply (Hm [] {| DeviceModel.id := Fin 5; DeviceModel.name := js "iPhone 13" |} []);
      [reflexivity | intros m' [] | reflexivity].
Defined.

